(** * The C4 diagram hierarchy engine of CodeInvestigatorAgent

    A shallow embedding of [src/c4_diagram_generator.py] (class
    [C4DiagramGenerator]) and of the records of [src/models.py] it uses.

    Python objects are modelled by two heaps, one of [C4Element] objects and
    one of [C4Diagram] objects, addressed by allocation order.  The
    dictionaries [self.elements] and [self.diagrams] and the [elements] list
    of a diagram hold references into these heaps, so that the in-place
    update [system_element.children.append(...)] is seen through every
    diagram that lists the element, as it is in Python: Pydantic keeps a
    model instance given as a field value (or, in its first major version,
    copies it shallowly, the copy sharing the [children] list object, which
    is the only thing the generator ever updates in an element); it never
    takes a deep copy.

    The dictionaries given to the two builders of child diagrams are
    modelled as they arrive: association lists from keys to values, read
    with [info["name"]], which raises a [KeyError] when the key is missing,
    and with [info.get(key, default)].  The values are [None], booleans,
    integers, strings and dictionaries of these.  The constructor of
    [C4Element] validates what it is given as Pydantic does in its second
    major version, to which [model_dump_json] belongs: a field declared
    [str] takes a string, [Optional[str]] a string or [None], and
    [Dict[str, Any]] a dictionary; for another value the constructor raises
    a [ValidationError].  The state a call leaves is modelled whether the
    call returns or raises: a builder that raises inside its loop has stored
    the elements of the dictionaries before the one that makes it raise.

    [uuid.uuid4()] and [datetime.now()] are modelled by two counters: the
    identifiers drawn are pairwise distinct, and every reading of the clock
    is a new instant.  The coordinates computed by
    [generate_plotly_diagram] are floating-point numbers and are not
    modelled; the list [edge_text] of the edges it draws is.

    The methods [_arun] of the three diagram tools of
    [src/agent_manager.py], which call the generator of an agent and keep
    the identifier of its current diagram, are embedded as functions of the
    agent.  The text of a [ValidationError], which a tool would put in its
    message, is a parameter of these functions. *)

From Stdlib Require Import String Ascii List Arith Lia.
From stdpp Require Import base option list strings pretty gmap.

Local Open Scope string_scope.
Local Open Scope list_scope.

(** ** Data model ([src/models.py]) *)

Inductive C4Level : Type := CONTEXT | CONTAINER | COMPONENT | CODE.

(** The values of the open [properties] mapping ([Dict[str, Any]]); the
    generator only stores them. *)
Inductive PyValue : Type :=
  | PyNone
  | PyBool (b : bool)
  | PyInt (z : Z)
  | PyStr (s : string).

Definition PyDict := list (string * PyValue).

(** A value found in a dictionary given to a builder: one of the values
    above, or a dictionary of them. *)
Inductive PyArg : Type :=
  | Atom (v : PyValue)
  | Dict (d : PyDict).

(** References to objects of the two model classes. *)
Abbreviation eref := nat.
Abbreviation dref := nat.

Record C4Element : Type := mkElement {
  e_id : string;
  e_name : string;
  e_type : string;
  e_level : C4Level;
  e_description : string;
  e_technology : option string;
  e_relationships : list string;
  e_properties : PyDict;
  e_parent_id : option string;
  e_children : list string
}.

(** A relationship is the dictionary with the keys [id], [from], [to],
    [description] and [technology] that the generator builds. *)
Record Relationship : Type := mkRelationship {
  r_id : string;
  r_from : string;
  r_to : string;
  r_description : string;
  r_technology : string
}.

Record C4Diagram : Type := mkDiagram {
  d_id : string;
  d_name : string;
  d_level : C4Level;
  d_elements : list eref;
  d_relationships : list Relationship;
  d_created_at : nat;
  d_updated_at : nat
}.

(** ** Insertion-ordered dictionaries

    [self.diagrams] is iterated with [.values()], which follows insertion
    order; assigning to a key that is present keeps its position. *)
Module odict.
Definition t (V : Type) : Type := list (string * V).

Fixpoint get {V} (k : string) (d : t V) : option V :=
  match d with
  | [] => None
  | (k', v) :: d' => if String.eqb k k' then Some v else get k d'
  end.

Fixpoint set {V} (k : string) (v : V) (d : t V) : t V :=
  match d with
  | [] => [(k, v)]
  | (k', v') :: d' =>
      if String.eqb k k' then (k', v) :: d' else (k', v') :: set k v d'
  end.

Definition values {V} (d : t V) : list V := map snd d.
End odict.

(** The dictionaries describing a container or a component to create
    ([Dict[str, Any]]): the key [name] is read with [info["name"]], the keys
    [description], [technology] and [properties] with [info.get]. *)
Definition Info : Type := odict.t PyArg.

(** ** The generator and the objects it has created *)

Record State : Type := mkState {
  diagrams : odict.t dref;          (* self.diagrams *)
  elements : gmap string eref;      (* self.elements *)
  element_objs : list C4Element;    (* every C4Element constructed so far *)
  diagram_objs : list C4Diagram;    (* every C4Diagram constructed so far *)
  uuid_drawn : nat;                 (* number of calls of uuid.uuid4() *)
  clock : nat                       (* number of calls of datetime.now() *)
}.

(** [C4DiagramGenerator.__init__] *)
Definition init : State :=
  {| diagrams := []; elements := ∅; element_objs := []; diagram_objs := [];
     uuid_drawn := 0; clock := 0 |}.

(** [str(uuid.uuid4())]: the identifiers drawn are pairwise distinct; the
    [n]-th one is written [uuid-n]. *)
Definition uuid_str (n : nat) : string := "uuid-" +:+ pretty n.

(** The exceptions of the generator: the [ValueError] of a builder, the
    [KeyError] of [info[key]], and the [ValidationError] of the constructor
    of [C4Element], with the fields it rejects and the values given for
    them. *)
Inductive exn : Type :=
  | ValueError (msg : string)
  | KeyError (key : string)
  | ValidationError (errors : list (string * PyArg)).

Inductive outcome (A : Type) : Type :=
  | Return (a : A)
  | Raise (e : exn).
Arguments Return {A} a.
Arguments Raise {A} e.

(** Computations of the generator: they update the state and either return
    or raise; what was written before an exception stays written. *)
Definition M (A : Type) : Type := State -> State * outcome A.

#[global] Instance M_ret : MRet M := fun A (a : A) st => (st, Return a).

#[global] Instance M_bind : MBind M := fun A B (f : A -> M B) (m : M A) st =>
  match m st with
  | (st', Return a) => f a st'
  | (st', Raise e) => (st', Raise e)
  end.

Definition raise {A} (e : exn) : M A := fun st => (st, Raise e).

Definition uuid4 : M string := fun st =>
  (mkState (diagrams st) (elements st) (element_objs st) (diagram_objs st)
     (S (uuid_drawn st)) (clock st),
   Return (uuid_str (uuid_drawn st))).

Definition now : M nat := fun st =>
  (mkState (diagrams st) (elements st) (element_objs st) (diagram_objs st)
     (uuid_drawn st) (S (clock st)),
   Return (clock st)).

(** Object construction: [C4Element(...)] and [C4Diagram(...)]. *)
Definition new_element (e : C4Element) : M eref := fun st =>
  (mkState (diagrams st) (elements st) (element_objs st ++ [e])
     (diagram_objs st) (uuid_drawn st) (clock st),
   Return (length (element_objs st))).

Definition new_diagram (d : C4Diagram) : M dref := fun st =>
  (mkState (diagrams st) (elements st) (element_objs st)
     (diagram_objs st ++ [d]) (uuid_drawn st) (clock st),
   Return (length (diagram_objs st))).

(** [info[key]] and [info.get(key, default)] *)
Definition item (key : string) (info : Info) : M PyArg := fun st =>
  match odict.get key info with
  | Some v => (st, Return v)
  | None => (st, Raise (KeyError key))
  end.

Definition info_get (key : string) (dflt : PyArg) (info : Info) : PyArg :=
  default dflt (odict.get key info).

(** What Pydantic makes of a value given for a field declared [str],
    [Optional[str]] or [Dict[str, Any]]: the value of the field, or [None]
    when it rejects the value.  It does not convert numbers to strings. *)
Definition as_str (v : PyArg) : option string :=
  match v with
  | Atom (PyStr s) => Some s
  | _ => None
  end.

Definition as_optional_str (v : PyArg) : option (option string) :=
  match v with
  | Atom (PyStr s) => Some (Some s)
  | Atom PyNone => Some None
  | _ => None
  end.

Definition as_dict (v : PyArg) : option PyDict :=
  match v with
  | Dict d => Some d
  | _ => None
  end.

Definition rejected {A} (field : string) (v : PyArg) (validated : option A)
  : list (string * PyArg) :=
  match validated with
  | Some _ => []
  | None => [(field, v)]
  end.

(** [C4Element(id=..., name=..., type=..., level=..., description=...,
    technology=..., relationships=[], properties=..., parent_id=...,
    children=[])] with values read from a dictionary: the constructor
    validates them and raises when it rejects one. *)
Definition C4Element_new (id : string) (name : PyArg) (type : string)
    (level : C4Level) (description technology properties : PyArg)
    (parent_id : string) : M eref :=
  match as_str name, as_str description, as_optional_str technology,
        as_dict properties with
  | Some n, Some d, Some t, Some p =>
      new_element (mkElement id n type level d t [] p (Some parent_id) [])
  | n, d, t, p =>
      raise (ValidationError
               (rejected "name" name n
                ++ rejected "description" description d
                ++ rejected "technology" technology t
                ++ rejected "properties" properties p))
  end.

(** Reading an object through a reference.  References are only obtained
    from constructions, so the default is never met in a state built by the
    generator. *)
Definition no_element : C4Element :=
  mkElement "" "" "" CONTEXT "" None [] [] None [].
Definition no_diagram : C4Diagram :=
  mkDiagram "" "" CONTEXT [] [] 0 0.

Definition element_at (st : State) (r : eref) : C4Element :=
  default no_element (element_objs st !! r).
Definition diagram_at (st : State) (r : dref) : C4Diagram :=
  default no_diagram (diagram_objs st !! r).

Definition get_element (r : eref) : M C4Element :=
  fun st => (st, Return (element_at st r)).
Definition get_diagram (r : dref) : M C4Diagram :=
  fun st => (st, Return (diagram_at st r)).

(** [self.elements.get(k)], [self.elements[k] = r] *)
Definition elements_get (k : string) : M (option eref) :=
  fun st => (st, Return (elements st !! k)).
Definition elements_set (k : string) (r : eref) : M unit := fun st =>
  (mkState (diagrams st) (<[k := r]> (elements st)) (element_objs st)
     (diagram_objs st) (uuid_drawn st) (clock st),
   Return tt).

(** [self.diagrams.get(k)], [self.diagrams[k] = r], [self.diagrams.values()] *)
Definition diagrams_get (k : string) : M (option dref) :=
  fun st => (st, Return (odict.get k (diagrams st))).
Definition diagrams_set (k : string) (r : dref) : M unit := fun st =>
  (mkState (odict.set k r (diagrams st)) (elements st) (element_objs st)
     (diagram_objs st) (uuid_drawn st) (clock st),
   Return tt).
Definition diagrams_values : M (list dref) :=
  fun st => (st, Return (odict.values (diagrams st))).

(** [element.children.append(child_id)] on the object behind [r]. *)
Definition append_child (child_id : string) (e : C4Element) : C4Element :=
  mkElement (e_id e) (e_name e) (e_type e) (e_level e) (e_description e)
    (e_technology e) (e_relationships e) (e_properties e) (e_parent_id e)
    (e_children e ++ [child_id]).

Definition children_append (r : eref) (child_id : string) : M unit := fun st =>
  (mkState (diagrams st) (elements st)
     (alter (append_child child_id) r (element_objs st))
     (diagram_objs st) (uuid_drawn st) (clock st),
   Return tt).

(** [diagram.relationships.append(rel)] and [diagram.updated_at = t] on the
    object behind [r]. *)
Definition append_relationship (rel : Relationship) (d : C4Diagram) : C4Diagram :=
  mkDiagram (d_id d) (d_name d) (d_level d) (d_elements d)
    (d_relationships d ++ [rel]) (d_created_at d) (d_updated_at d).

Definition set_updated_at (t : nat) (d : C4Diagram) : C4Diagram :=
  mkDiagram (d_id d) (d_name d) (d_level d) (d_elements d)
    (d_relationships d) (d_created_at d) t.

Definition relationships_append (r : dref) (rel : Relationship) : M unit := fun st =>
  (mkState (diagrams st) (elements st) (element_objs st)
     (alter (append_relationship rel) r (diagram_objs st))
     (uuid_drawn st) (clock st),
   Return tt).

Definition updated_at_set (r : dref) (t : nat) : M unit := fun st =>
  (mkState (diagrams st) (elements st) (element_objs st)
     (alter (set_updated_at t) r (diagram_objs st))
     (uuid_drawn st) (clock st),
   Return tt).

(** ** The operations ([src/c4_diagram_generator.py]) *)

Definition create_context_diagram (system_name description : string) : M dref :=
  diagram_id ← uuid4;
  system_element ← new_element
    (mkElement (diagram_id +:+ "_system") system_name "System" CONTEXT
       description (Some "") [] [] None []);
  created_at ← now;
  updated_at ← now;
  diagram ← new_diagram
    (mkDiagram diagram_id (system_name +:+ " - Context") CONTEXT
       [system_element] [] created_at updated_at);
  diagrams_set diagram_id diagram;;
  e ← get_element system_element;
  elements_set (e_id e) system_element;;
  mret diagram.

(** [for x in xs: body], the body threading the local variables [acc]. *)
Fixpoint for_each {A B} (xs : list A) (body : A -> B -> M B) (acc : B) : M B :=
  match xs with
  | [] => mret acc
  | x :: xs' => acc' ← body x acc; for_each xs' body acc'
  end.

(** The body of the loop of [create_container_diagram]; the local lists
    [elements] and [relationships] are the accumulator. *)
Definition add_container (system_id : string) (system_element : eref)
    (container_info : Info) (acc : list eref * list Relationship)
  : M (list eref * list Relationship) :=
  container_id ← uuid4;
  name ← item "name" container_info;
  container_element ← C4Element_new container_id name "Container" CONTAINER
    (info_get "description" (Atom (PyStr "")) container_info)
    (info_get "technology" (Atom (PyStr "")) container_info)
    (info_get "properties" (Dict []) container_info)
    system_id;
  elements_set container_id container_element;;
  relationship_id ← uuid4;
  children_append system_element container_id;;
  mret (acc.1 ++ [container_element],
        acc.2 ++ [mkRelationship relationship_id container_id system_id
                    "deployed on" ""]).

Definition create_container_diagram (system_id : string) (containers : list Info)
  : M dref :=
  diagram_id ← uuid4;
  found ← elements_get system_id;
  match found with
  | None => raise (ValueError ("System element " +:+ system_id +:+ " not found"))
  | Some system_element =>
      built ← for_each containers (add_container system_id system_element)
                ([system_element], []);
      parent ← get_element system_element;
      created_at ← now;
      updated_at ← now;
      diagram ← new_diagram
        (mkDiagram diagram_id (e_name parent +:+ " - Containers") CONTAINER
           built.1 built.2 created_at updated_at);
      diagrams_set diagram_id diagram;;
      mret diagram
  end.

(** The body of the loop of [create_component_diagram]. *)
Definition add_component (container_id : string) (container_element : eref)
    (component_info : Info) (acc : list eref * list Relationship)
  : M (list eref * list Relationship) :=
  component_id ← uuid4;
  name ← item "name" component_info;
  component_element ← C4Element_new component_id name "Component" COMPONENT
    (info_get "description" (Atom (PyStr "")) component_info)
    (info_get "technology" (Atom (PyStr "")) component_info)
    (info_get "properties" (Dict []) component_info)
    container_id;
  elements_set component_id component_element;;
  relationship_id ← uuid4;
  children_append container_element component_id;;
  mret (acc.1 ++ [component_element],
        acc.2 ++ [mkRelationship relationship_id component_id container_id
                    "part of" ""]).

Definition create_component_diagram (container_id : string) (components : list Info)
  : M dref :=
  diagram_id ← uuid4;
  found ← elements_get container_id;
  match found with
  | None => raise (ValueError ("Container element " +:+ container_id +:+ " not found"))
  | Some container_element =>
      built ← for_each components (add_component container_id container_element)
                ([container_element], []);
      parent ← get_element container_element;
      created_at ← now;
      updated_at ← now;
      diagram ← new_diagram
        (mkDiagram diagram_id (e_name parent +:+ " - Components") COMPONENT
           built.1 built.2 created_at updated_at);
      diagrams_set diagram_id diagram;;
      mret diagram
  end.

Definition add_relationship (diagram_id from_element to_element
    description technology : string) : M bool :=
  found ← diagrams_get diagram_id;
  match found with
  | None => mret false
  | Some diagram =>
      relationship_id ← uuid4;
      relationships_append diagram
        (mkRelationship relationship_id from_element to_element
           description technology);;
      t ← now;
      updated_at_set diagram t;;
      mret true
  end.

#[global] Instance C4Level_eq_dec : EqDecision C4Level.
Proof. solve_decision. Defined.

(** [xs.index(x)], [None] standing for the [ValueError] of a missing value. *)
Fixpoint index {A} `{EqDecision A} (x : A) (xs : list A) : option nat :=
  match xs with
  | [] => None
  | y :: xs' => if decide (y = x) then Some 0 else S <$> index x xs'
  end.

Definition _get_next_level (current_level : C4Level) : C4Level :=
  let level_order := [CONTEXT; CONTAINER; COMPONENT; CODE] in
  match index current_level level_order with
  | Some current_index =>
      if Nat.ltb current_index (length level_order - 1)
      then nth (current_index + 1) level_order current_level
      else current_level
  | None => current_level
  end.

(** [diagram.elements and diagram.elements[0].id == element_id] *)
Definition shows_first (st : State) (element_id : string) (diagram : dref) : bool :=
  match d_elements (diagram_at st diagram) with
  | [] => false
  | first :: _ => String.eqb (e_id (element_at st first)) element_id
  end.

(** The search loop of [drill_down]: the first diagram, in the order of
    [self.diagrams.values()], that passes the test. *)
Definition find_existing (element_id : string) : M (option dref) := fun st =>
  (st, Return (find (shows_first st element_id) (odict.values (diagrams st)))).

(** [[self.elements[c] for c in children if c in self.elements]] *)
Definition known_children (children : list string) : M (list eref) := fun st =>
  (st, Return (omap (fun child_id => elements st !! child_id) children)).

Definition drill_down (element_id : string) : M (option dref) :=
  found ← elements_get element_id;
  match found with
  | None => mret None
  | Some element =>
      e ← get_element element;
      match e_children e with
      | [] => mret None
      | _ :: _ =>
          existing ← find_existing element_id;
          match existing with
          | Some diagram => mret (Some diagram)
          | None =>
              child_elements ← known_children (e_children e);
              match child_elements with
              | [] => mret None
              | _ :: _ =>
                  diagram_id ← uuid4;
                  created_at ← now;
                  updated_at ← now;
                  diagram ← new_diagram
                    (mkDiagram diagram_id (e_name e +:+ " - Details")
                       (_get_next_level (e_level e))
                       ([element] ++ child_elements) [] created_at updated_at);
                  d ← get_diagram diagram;
                  diagrams_set (d_id d) diagram;;
                  mret (Some diagram)
              end
          end
      end
  end.

(** ** Read-only operations

    They do not write to the generator and are given as functions of the
    state they read. *)

Record ElementInfo : Type := mkElementInfo {
  i_id : string;
  i_name : string;
  i_type : string;
  i_level : C4Level;
  i_has_children : bool;
  i_children : list string
}.

Record Hierarchy : Type := mkHierarchy {
  h_diagram_id : string;
  h_name : string;
  h_level : C4Level;
  h_elements : list ElementInfo
}.

Definition element_info (element : C4Element) : ElementInfo :=
  mkElementInfo (e_id element) (e_name element) (e_type element)
    (e_level element) (Nat.ltb 0 (length (e_children element)))
    (e_children element).

(** [get_diagram_hierarchy]; [None] is the empty dictionary returned for an
    unknown diagram. *)
Definition get_diagram_hierarchy (st : State) (diagram_id : string)
  : option Hierarchy :=
  match odict.get diagram_id (diagrams st) with
  | None => None
  | Some diagram =>
      let d := diagram_at st diagram in
      Some (mkHierarchy diagram_id (d_name d) (d_level d)
              (fold_left
                 (fun infos element => infos ++ [element_info (element_at st element)])
                 (d_elements d) []))
  end.

(** [next((e for e in elements if e.id == wanted), None)] *)
Definition first_with_id (st : State) (wanted : string) (els : list eref)
  : option eref :=
  find (fun e => String.eqb (e_id (element_at st e)) wanted) els.

(** The edge loop of [generate_plotly_diagram]: the list [edge_text], one
    description per relationship both ends of which are found among the
    elements of the diagram. *)
Definition edge_text (st : State) (diagram : dref) : list string :=
  let d := diagram_at st diagram in
  fold_left
    (fun texts rel =>
       match first_with_id st (r_from rel) (d_elements d),
             first_with_id st (r_to rel) (d_elements d) with
       | Some _, Some _ => texts ++ [r_description rel]
       | _, _ => texts
       end)
    (d_relationships d) [].

Definition dquote : string := String "034"%char EmptyString.
Definition newline : string := String "010"%char EmptyString.

(** The line written for an element, and the line written for a
    relationship; [\n] in a label is a backslash followed by [n]. *)
Definition node_line (element : C4Element) : string :=
  "  " +:+ dquote +:+ e_id element +:+ dquote +:+ " [label=" +:+ dquote
  +:+ e_name element +:+ "\n" +:+ e_type element +:+ dquote +:+ "];".

Definition edge_line (rel : Relationship) : string :=
  "  " +:+ dquote +:+ r_from rel +:+ dquote +:+ " -> " +:+ dquote +:+ r_to rel
  +:+ dquote +:+ " [label=" +:+ dquote +:+ r_description rel +:+ dquote +:+ "];".

(** The list [dot_lines] at the end of [_generate_dot_format]. *)
Definition dot_lines (st : State) (diagram : dref) : list string :=
  let d := diagram_at st diagram in
  let dot_lines := ["digraph G {"] in
  let dot_lines := dot_lines ++ ["  rankdir=TB;"] in
  let dot_lines :=
    dot_lines ++ ["  node [shape=box, style=filled, fillcolor=lightblue];"] in
  let dot_lines :=
    fold_left (fun lines element => lines ++ [node_line (element_at st element)])
      (d_elements d) dot_lines in
  let dot_lines :=
    fold_left (fun lines rel => lines ++ [edge_line rel])
      (d_relationships d) dot_lines in
  dot_lines ++ ["}"].

Definition _generate_dot_format (st : State) (diagram : dref) : string :=
  String.concat newline (dot_lines st diagram).

(** [export_diagram]; [model_dump_json] is Pydantic's serializer. *)
Definition export_diagram (model_dump_json : State -> dref -> string)
    (st : State) (diagram_id format : string) : string :=
  match odict.get diagram_id (diagrams st) with
  | None => ""
  | Some diagram =>
      if String.eqb format "json" then model_dump_json st diagram
      else if String.eqb format "dot" then _generate_dot_format st diagram
      else model_dump_json st diagram
  end.

(** ** Sequences of calls *)

Inductive Call : Type :=
  | CreateContextDiagram (system_name description : string)
  | CreateContainerDiagram (system_id : string) (containers : list Info)
  | CreateComponentDiagram (container_id : string) (components : list Info)
  | AddRelationship (diagram_id from_element to_element description technology : string)
  | DrillDown (element_id : string).

(** The state a call leaves, whether it returns or raises. *)
Definition exec (c : Call) (st : State) : State :=
  match c with
  | CreateContextDiagram n d => (create_context_diagram n d st).1
  | CreateContainerDiagram i cs => (create_container_diagram i cs st).1
  | CreateComponentDiagram i cs => (create_component_diagram i cs st).1
  | AddRelationship d f t ds te => (add_relationship d f t ds te st).1
  | DrillDown i => (drill_down i st).1
  end.

Definition run (calls : list Call) (st : State) : State :=
  fold_left (fun s c => exec c s) calls st.

(** The states the generator can be in. *)
Definition reachable (st : State) : Prop := exists calls, st = run calls init.

(** The element stored under [k], read through the Element Store. *)
Definition lookup_element (st : State) (k : string) : option C4Element :=
  r ← elements st !! k; element_objs st !! r.

(** A call respects the levels when it creates containers under an element
    of the Context level, or components under an element of the Container
    level, or no element at all. *)
Definition respects_levels (c : Call) (st : State) : Prop :=
  match c with
  | CreateContainerDiagram system_id _ =>
      forall e, lookup_element st system_id = Some e -> e_level e = CONTEXT
  | CreateComponentDiagram container_id _ =>
      forall e, lookup_element st container_id = Some e -> e_level e = CONTAINER
  | _ => True
  end.

Fixpoint all_respect_levels (calls : list Call) (st : State) : Prop :=
  match calls with
  | [] => True
  | c :: calls' => respects_levels c st /\ all_respect_levels calls' (exec c st)
  end.

Definition level_index (l : C4Level) : nat :=
  match l with CONTEXT => 0 | CONTAINER => 1 | COMPONENT => 2 | CODE => 3 end.


(** ** Definitions used to state the properties *)

Definition is_digit (c : ascii) : bool :=
  Nat.leb 48 (nat_of_ascii c) && Nat.leb (nat_of_ascii c) 57.

Fixpoint all_digits (s : string) : bool :=
  match s with
  | EmptyString => true
  | String c s' => is_digit c && all_digits s'
  end.

(** A specification of a container or of a component as the builders
    expect it: a name and, optionally, a description, a technology and
    properties, of the types of the fields of [C4Element]. *)
Record Spec : Type := mkSpec {
  s_name : string;
  s_description : option string;
  s_technology : option string;
  s_properties : option PyDict
}.

(** The dictionary that holds a specification: the key [name], and the
    other keys when the specification has them. *)
Definition spec_dict (s : Spec) : Info :=
  [("name", Atom (PyStr (s_name s)))]
  ++ match s_description s with
     | Some description => [("description", Atom (PyStr description))]
     | None => []
     end
  ++ match s_technology s with
     | Some technology => [("technology", Atom (PyStr technology))]
     | None => []
     end
  ++ match s_properties s with
     | Some properties => [("properties", Dict properties)]
     | None => []
     end.

(** The element created for a specification. *)
Definition child_element (type : string) (level : C4Level) (parent_id : string)
    (child_id : string) (info : Spec) : C4Element :=
  mkElement child_id (s_name info) type level
    (default "" (s_description info))
    (Some (default "" (s_technology info)))
    [] (default [] (s_properties info)) (Some parent_id) [].

(** What one turn of the loop of a builder makes of any dictionary: the
    exception it raises, for a dictionary without [name] or with a value of
    another type than the field it is given for, or the fields of the
    element it constructs. *)
Record Fields : Type := mkFields {
  v_name : string;
  v_description : string;
  v_technology : option string;
  v_properties : PyDict
}.

Definition not_str (field : string) (v : PyArg) : list (string * PyArg) :=
  match v with
  | Atom (PyStr _) => []
  | _ => [(field, v)]
  end.

Definition not_optional_str (field : string) (v : PyArg)
  : list (string * PyArg) :=
  match v with
  | Atom (PyStr _) | Atom PyNone => []
  | _ => [(field, v)]
  end.

Definition not_dict (field : string) (v : PyArg) : list (string * PyArg) :=
  match v with
  | Dict _ => []
  | _ => [(field, v)]
  end.

Definition str_of (v : PyArg) : string :=
  match v with
  | Atom (PyStr s) => s
  | _ => ""
  end.

Definition optional_str_of (v : PyArg) : option string :=
  match v with
  | Atom (PyStr s) => Some s
  | _ => None
  end.

Definition dict_of (v : PyArg) : PyDict :=
  match v with
  | Dict d => d
  | _ => []
  end.

Definition read_info (info : Info) : exn + Fields :=
  match odict.get "name" info with
  | None => inl (KeyError "name")
  | Some name =>
      let description := default (Atom (PyStr "")) (odict.get "description" info) in
      let technology := default (Atom (PyStr "")) (odict.get "technology" info) in
      let properties := default (Dict []) (odict.get "properties" info) in
      match not_str "name" name ++ not_str "description" description
            ++ not_optional_str "technology" technology
            ++ not_dict "properties" properties with
      | [] =>
          inr (mkFields (str_of name) (str_of description)
                 (optional_str_of technology) (dict_of properties))
      | errors => inl (ValidationError errors)
      end
  end.

(** The dictionaries a turn of the loop goes through: [name] is a string,
    [description] is absent or a string, [technology] is absent, [None] or
    a string, and [properties] is absent or a dictionary. *)
Definition well_formed (info : Info) : Prop :=
  (exists name, odict.get "name" info = Some (Atom (PyStr name))) /\
  (odict.get "description" info = None \/
   exists description,
     odict.get "description" info = Some (Atom (PyStr description))) /\
  (odict.get "technology" info = None \/
   odict.get "technology" info = Some (Atom PyNone) \/
   exists technology,
     odict.get "technology" info = Some (Atom (PyStr technology))) /\
  (odict.get "properties" info = None \/
   exists properties, odict.get "properties" info = Some (Dict properties)).

(** The dictionaries of a list that are read before the first one that makes
    the loop raise, and the exception then raised. *)
Fixpoint read_infos (infos : list Info) : list Fields * option exn :=
  match infos with
  | [] => ([], None)
  | info :: infos' =>
      match read_info info with
      | inl e => ([], Some e)
      | inr f => (f :: (read_infos infos').1, (read_infos infos').2)
      end
  end.

Definition fields_of (s : Spec) : Fields :=
  mkFields (s_name s) (default "" (s_description s))
    (Some (default "" (s_technology s))) (default [] (s_properties s)).

Definition element_of (type : string) (level : C4Level) (parent_id : string)
    (child_id : string) (f : Fields) : C4Element :=
  mkElement child_id (v_name f) type level (v_description f) (v_technology f)
    [] (v_properties f) (Some parent_id) [].

(** [create_container_diagram] and [create_component_diagram] are the same
    text up to five constants: the word of the error message, the [type] and
    the [level] of the elements created, the description of the implicit
    relationship and the suffix of the name of the diagram.  The common
    text for dictionaries that are read without an exception, with the
    constants as parameters: *)

Definition implicit_relationship (description parent_id : string)
    (relationship_id child_id : string) : Relationship :=
  mkRelationship relationship_id child_id parent_id description "".

Definition add_child (type : string) (level : C4Level) (description : string)
    (parent_id : string) (parent : eref)
    (info : Fields) (acc : list eref * list Relationship)
  : M (list eref * list Relationship) :=
  child_id ← uuid4;
  child ← new_element (element_of type level parent_id child_id info);
  elements_set child_id child;;
  relationship_id ← uuid4;
  children_append parent child_id;;
  mret (acc.1 ++ [child],
        acc.2 ++ [implicit_relationship description parent_id
                    relationship_id child_id]).

Definition create_child_diagram (what type : string) (level : C4Level)
    (description suffix : string) (parent_id : string) (infos : list Fields)
  : M dref :=
  diagram_id ← uuid4;
  found ← elements_get parent_id;
  match found with
  | None => raise (ValueError (what +:+ " element " +:+ parent_id +:+ " not found"))
  | Some parent =>
      built ← for_each infos (add_child type level description parent_id parent)
                ([parent], []);
      e ← get_element parent;
      created_at ← now;
      updated_at ← now;
      diagram ← new_diagram
        (mkDiagram diagram_id (e_name e +:+ suffix) level
           built.1 built.2 created_at updated_at);
      diagrams_set diagram_id diagram;;
      mret diagram
  end.

(** The text of a builder, for any loop body. *)
Definition build_diagram {I} (what : string) (level : C4Level) (suffix : string)
    (body : string -> eref -> I -> list eref * list Relationship ->
            M (list eref * list Relationship))
    (parent_id : string) (infos : list I) : M dref :=
  diagram_id ← uuid4;
  found ← elements_get parent_id;
  match found with
  | None => raise (ValueError (what +:+ " element " +:+ parent_id +:+ " not found"))
  | Some parent =>
      built ← for_each infos (body parent_id parent) ([parent], []);
      e ← get_element parent;
      created_at ← now;
      updated_at ← now;
      diagram ← new_diagram
        (mkDiagram diagram_id (e_name e +:+ suffix) level
           built.1 built.2 created_at updated_at);
      diagrams_set diagram_id diagram;;
      mret diagram
  end.

(** The identifiers drawn at every second call of [uuid.uuid4()], from the
    [u]-th call on: the loops draw the identifier of a child, then the
    identifier of its relationship. *)
Fixpoint ids_from (u n : nat) : list string :=
  match n with
  | 0 => []
  | S n' => uuid_str u :: ids_from (S (S u)) n'
  end.

(** An element with [cs] appended to its [children]. *)
Definition with_children (cs : list string) (e : C4Element) : C4Element :=
  mkElement (e_id e) (e_name e) (e_type e) (e_level e) (e_description e)
    (e_technology e) (e_relationships e) (e_properties e) (e_parent_id e)
    (e_children e ++ cs).

(** An element without its [children]: the fields no operation writes to. *)
Definition fixed_fields (e : C4Element) : C4Element :=
  mkElement (e_id e) (e_name e) (e_type e) (e_level e) (e_description e)
    (e_technology e) (e_relationships e) (e_properties e) (e_parent_id e) [].

(** [e'] is [e] after some appends to its [children]. *)
Definition element_grown (e e' : C4Element) : Prop :=
  fixed_fields e' = fixed_fields e /\ e_children e `prefix_of` e_children e'.

(** What later calls keep of the objects constructed so far: an element
    keeps every field but [children], which only grows; a diagram keeps its
    identifier, name, level, creation time and list of elements, and its
    list of relationships only grows. *)
Record objects_grown (st st' : State) : Prop := {
  grown_elements : forall r e, element_objs st !! r = Some e ->
    exists e', element_objs st' !! r = Some e' /\ element_grown e e';
  grown_diagrams : forall r d, diagram_objs st !! r = Some d ->
    exists d', diagram_objs st' !! r = Some d' /\
      d_id d' = d_id d /\ d_name d' = d_name d /\ d_level d' = d_level d /\
      d_elements d' = d_elements d /\ d_created_at d' = d_created_at d /\
      d_relationships d `prefix_of` d_relationships d'
}.

(** A computation all of whose runs relate the state before to the state
    after by [R]. *)
Definition steps_to (R : relation State) {A} (m : M A) : Prop :=
  forall st, R st (m st).1.

(** The stores are consistent: an element is stored under its own
    identifier, the identifiers still to be drawn are not in use, and the
    Diagram Store refers to diagrams that exist. *)
Record store_ok (st : State) : Prop := {
  ok_keys : forall k r, elements st !! k = Some r ->
    exists e, element_objs st !! r = Some e /\ e_id e = k;
  ok_fresh : forall n, uuid_drawn st <= n ->
    elements st !! (uuid_str n) = None /\
    elements st !! (uuid_str n +:+ "_system") = None;
  ok_diagrams : forall r, r ∈ odict.values (diagrams st) ->
    r < length (diagram_objs st)
}.

(** Every identifier in a [children] list is that of a stored element, which
    is related to the parent by [Q]. *)
Definition children_are (Q : C4Element -> C4Element -> Prop) (st : State) : Prop :=
  forall k e c, lookup_element st k = Some e -> c ∈ e_children e ->
    exists ce, lookup_element st c = Some ce /\ Q e ce.

(** A relation between a parent and a child that does not read their
    [children]. *)
Definition stable (Q : C4Element -> C4Element -> Prop) : Prop :=
  forall e e' ce ce',
    fixed_fields e' = fixed_fields e -> fixed_fields ce' = fixed_fields ce ->
    Q e ce -> Q e' ce'.

(** [Q] relates an element to the children a call creates under it. *)
Definition admits (Q : C4Element -> C4Element -> Prop) (c : Call) (st : State)
  : Prop :=
  match c with
  | CreateContainerDiagram pid _ =>
      forall ep0, lookup_element st pid = Some ep0 ->
      forall ep cid info, fixed_fields ep = fixed_fields ep0 ->
        Q ep (element_of "Container" CONTAINER pid cid info)
  | CreateComponentDiagram pid _ =>
      forall ep0, lookup_element st pid = Some ep0 ->
      forall ep cid info, fixed_fields ep = fixed_fields ep0 ->
        Q ep (element_of "Component" COMPONENT pid cid info)
  | _ => True
  end.

Definition child_of (e ce : C4Element) : Prop := e_parent_id ce = Some (e_id e).

Definition one_level_deeper (e ce : C4Element) : Prop :=
  level_index (e_level ce) = S (level_index (e_level e)).

(** The test of the edge loop of [generate_plotly_diagram]: both ends of
    the relationship are found among the elements of the diagram. *)
Definition ends_shown (st : State) (d : C4Diagram) (rel : Relationship) : bool :=
  match first_with_id st (r_from rel) (d_elements d),
        first_with_id st (r_to rel) (d_elements d) with
  | Some _, Some _ => true
  | _, _ => false
  end.

(** The three lines every export in the [dot] format starts with. *)
Definition dot_header : list string :=
  ["digraph G {"; "  rankdir=TB;";
   "  node [shape=box, style=filled, fillcolor=lightblue];"].

(** The element records read through the [elements] of a diagram. *)
Definition observed (st : State) (diagram : dref) : list C4Element :=
  map (element_at st) (d_elements (diagram_at st diagram)).

(** [s.split(sep)] for a separator of one character; with the newline, the
    lines of a text. *)
Fixpoint split (sep : ascii) (s : string) : list string :=
  match s with
  | EmptyString => [EmptyString]
  | String c s' =>
      if Ascii.eqb c sep then EmptyString :: split sep s'
      else match split sep s' with
           | [] => [String c EmptyString]
           | word :: words => String c word :: words
           end
  end.

(** The string holds no newline. *)
Fixpoint one_line (s : string) : bool :=
  match s with
  | EmptyString => true
  | String c s' => negb (Ascii.eqb c "010"%char) && one_line s'
  end.

(** ** States and scenarios used as examples *)

(** An Element Store whose only element lists a child that is not stored. *)
Definition orphaned : State :=
  mkState [] {["S" := 0]}
    [mkElement "S" "Shop" "System" CONTEXT "" (Some "") [] [] None ["ghost"]]
    [] 0 0.

Definition api_and_worker : list Spec :=
  [mkSpec "API" None None None; mkSpec "Worker" None None None].

(** The scenario of the Payments system: a context diagram, a container
    diagram for its system, then a drill-down into the system. *)
Definition payments (description : string)
  : M (dref * dref * option dref) :=
  context ← create_context_diagram "Payments" description;
  d ← get_diagram context;
  system ← get_element (nth 0 (d_elements d) 0);
  containers ← create_container_diagram (e_id system)
                 (map spec_dict api_and_worker);
  drilled ← drill_down (e_id system);
  mret (context, containers, drilled).

(** The states of the scenario after its first and after its second call;
    the system is stored under [uuid-0_system]. *)
Definition payments_context : State :=
  (create_context_diagram "Payments" "handles billing" init).1.

Definition payments_containers : State :=
  (create_container_diagram "uuid-0_system" (map spec_dict api_and_worker)
     payments_context).1.

(** The scenario continued by a relationship from the first container to an
    identifier that is not that of an element. *)
Definition payments_dangling : State :=
  exec (AddRelationship "uuid-1" "uuid-2" "elsewhere" "calls" "HTTP")
    payments_containers.

(** The scenario continued by a relationship whose description holds a
    newline. *)
Definition payments_two_lines : State :=
  exec (AddRelationship "uuid-1" "uuid-2" "uuid-4"
          ("calls" +:+ newline +:+ "twice") "HTTP")
    payments_containers.

(** The calls of the scenario, and calls that create a component directly
    under a system. *)
Definition payments_calls : list Call :=
  [CreateContextDiagram "Payments" "handles billing";
   CreateContainerDiagram "uuid-0_system" (map spec_dict api_and_worker)].

Definition ledger_under_system : list Call :=
  [CreateContextDiagram "Payments" "handles billing";
   CreateComponentDiagram "uuid-0_system"
     [spec_dict (mkSpec "Ledger" None None None)]].

(** The scenario continued by a second container diagram for the system. *)
Definition payments_database : State :=
  exec (CreateContainerDiagram "uuid-0_system"
          [spec_dict (mkSpec "Database" None None None)]) payments_containers.

(** ** The other read-only operations *)

#[global] Instance PyValue_eq_dec : EqDecision PyValue.
Proof. solve_decision. Defined.

(** Equality of two model instances is equality of their fields. *)
#[global] Instance C4Element_eq_dec : EqDecision C4Element.
Proof. solve_decision. Defined.

(** [x in xs], for a list of strings. *)
Definition py_in (x : string) (xs : list string) : bool :=
  existsb (String.eqb x) xs.

Record Highlighted : Type := mkHighlighted {
  hl_id : string;
  hl_name : string;
  hl_type : string;
  hl_highlighted : bool
}.

Record HighlightResult : Type := mkHighlightResult {
  hr_diagram_id : string;
  hr_highlighted_elements : list Highlighted
}.

Definition highlighted_of (element : C4Element) : Highlighted :=
  mkHighlighted (e_id element) (e_name element) (e_type element) true.

(** [highlight_elements]; [None] is the empty dictionary returned for an
    unknown diagram. *)
Definition highlight_elements (st : State) (diagram_id : string)
    (element_ids : list string) : option HighlightResult :=
  match odict.get diagram_id (diagrams st) with
  | None => None
  | Some diagram =>
      let d := diagram_at st diagram in
      Some (mkHighlightResult diagram_id
              (fold_left
                 (fun highlighted_elements element =>
                    if py_in (e_id (element_at st element)) element_ids
                    then highlighted_elements
                         ++ [highlighted_of (element_at st element)]
                    else highlighted_elements)
                 (d_elements d) []))
  end.

(** [highlighted_elements and element.id in highlighted_elements], the
    argument being [None] by default. *)
Definition is_highlighted (highlighted_elements : option (list string))
    (element_id : string) : bool :=
  match highlighted_elements with
  | None => false
  | Some [] => false
  | Some (x :: xs) => py_in element_id (x :: xs)
  end.

(** What [generate_plotly_diagram] computes besides the coordinates: the
    texts, colours and sizes of the nodes, and for every edge drawn the
    positions [from_idx] and [to_idx] at which [node_x] and [node_y] are
    read, with the text of the edge. *)
Record Figure : Type := mkFigure {
  f_title : string;
  f_node_text : list string;
  f_node_colors : list string;
  f_node_sizes : list nat;
  f_edge_ends : list (nat * nat);
  f_edge_text : list string
}.

(** The exceptions of [list.index] and of list subscription. *)
Inductive list_error : Type :=
  | NotInList
  | IndexOutOfRange.

Inductive plot : Type :=
  | EmptyFigure
  | Plotted (f : Figure)
  | PlotRaises (e : list_error).

(** The node loop: the lists [node_text], [node_colors] and [node_sizes]. *)
Definition plot_nodes (st : State) (els : list eref)
    (highlighted_elements : option (list string))
  : list string * list string * list nat :=
  fold_left
    (fun '(node_text, node_colors, node_sizes) element =>
       let e := element_at st element in
       let node_text := node_text ++ [e_name e +:+ "<br>" +:+ e_type e] in
       if is_highlighted highlighted_elements (e_id e)
       then (node_text, node_colors ++ ["red"], node_sizes ++ [30])
       else (node_text, node_colors ++ ["lightblue"], node_sizes ++ [20]))
    els ([], [], []).

(** One turn of the edge loop; [num_nodes] is the length of [node_x]. *)
Definition plot_edge (st : State) (els : list eref) (num_nodes : nat)
    (rel : Relationship) (acc : list (nat * nat) * list string)
  : list_error + list (nat * nat) * list string :=
  match first_with_id st (r_from rel) els, first_with_id st (r_to rel) els with
  | Some from_element, Some to_element =>
      match index (element_at st from_element) (map (element_at st) els),
            index (element_at st to_element) (map (element_at st) els) with
      | Some from_idx, Some to_idx =>
          if Nat.ltb from_idx num_nodes && Nat.ltb to_idx num_nodes
          then inr (acc.1 ++ [(from_idx, to_idx)], acc.2 ++ [r_description rel])
          else inl IndexOutOfRange
      | _, _ => inl NotInList
      end
  | _, _ => inr acc
  end.

Fixpoint plot_edges (st : State) (els : list eref) (num_nodes : nat)
    (rels : list Relationship) (acc : list (nat * nat) * list string)
  : list_error + list (nat * nat) * list string :=
  match rels with
  | [] => inr acc
  | rel :: rels' =>
      match plot_edge st els num_nodes rel acc with
      | inl e => inl e
      | inr acc' => plot_edges st els num_nodes rels' acc'
      end
  end.

Definition generate_plotly_diagram (st : State) (diagram_id : string)
    (highlighted_elements : option (list string)) : plot :=
  match odict.get diagram_id (diagrams st) with
  | None => EmptyFigure
  | Some diagram =>
      let d := diagram_at st diagram in
      let '(node_text, node_colors, node_sizes) :=
        plot_nodes st (d_elements d) highlighted_elements in
      match plot_edges st (d_elements d) (length node_text)
              (d_relationships d) ([], []) with
      | inl e => PlotRaises e
      | inr (edge_ends, edge_text) =>
          Plotted (mkFigure (d_name d) node_text node_colors node_sizes
                     edge_ends edge_text)
      end
  end.

(** The place an edge end is drawn at: a position of the figure that holds
    an element with the identifier of the end. *)
Definition drawn_at (st : State) (els : list eref) (wanted : string) (i : nat)
  : Prop :=
  exists r, els !! i = Some r /\ e_id (element_at st r) = wanted.

(** ** Definitions used to state the properties of reachable states *)

(** The Element Store after the loop of a builder: the identifiers [ids] are
    stored, in order, for the objects constructed from [first] on. *)
Fixpoint store_children (ids : list string) (first : eref)
    (m : gmap string eref) : gmap string eref :=
  match ids with
  | [] => m
  | id :: ids' => store_children ids' (S first) (<[id := first]> m)
  end.

(** The Diagram Store is consistent: a diagram is stored under its own
    identifier, and the identifiers still to be drawn are not in use. *)
Record diagrams_ok (st : State) : Prop := {
  dk_keys : forall k r, odict.get k (diagrams st) = Some r ->
    exists d, diagram_objs st !! r = Some d /\ d_id d = k;
  dk_fresh : forall n, uuid_drawn st <= n ->
    odict.get (uuid_str n) (diagrams st) = None
}.

(** Every element object is stored, under its identifier. *)
Definition registered (st : State) : Prop :=
  forall r e, element_objs st !! r = Some e -> elements st !! (e_id e) = Some r.

(** The elements of every diagram are objects that exist, and there is at
    least one. *)
Definition diagrams_shown (st : State) : Prop :=
  forall diagram d, diagram_objs st !! diagram = Some d ->
    d_elements d <> [] /\
    Forall (fun r => r < length (element_objs st)) (d_elements d).

(** Some stored diagram shows the element with identifier [k] first. *)
Definition shown_first (st : State) (k : string) : Prop :=
  exists diagram d r rest e,
    diagram ∈ odict.values (diagrams st) /\
    diagram_objs st !! diagram = Some d /\
    d_elements d = r :: rest /\
    element_objs st !! r = Some e /\ e_id e = k.

(** Every stored element that has children is shown first by a stored
    diagram. *)
Definition explored (st : State) : Prop :=
  forall k e, lookup_element st k = Some e -> e_children e <> [] ->
    shown_first st k.

(** Every element with a parent is listed by the parent, which is stored,
    and no element is listed twice. *)
Definition listed_by_parent (st : State) : Prop :=
  forall k e, lookup_element st k = Some e ->
    NoDup (e_children e) /\
    forall parent_id, e_parent_id e = Some parent_id ->
      exists parent, lookup_element st parent_id = Some parent /\
                     k ∈ e_children parent.

(** The three kinds of element the generator constructs; none is its own
    parent. *)
Definition well_kinded (e : C4Element) : Prop :=
  e_relationships e = [] /\ e_parent_id e <> Some (e_id e) /\
  (e_type e = "System" /\ e_level e = CONTEXT /\ e_parent_id e = None
   \/ e_type e = "Container" /\ e_level e = CONTAINER /\ is_Some (e_parent_id e)
   \/ e_type e = "Component" /\ e_level e = COMPONENT /\ is_Some (e_parent_id e)).

(** The identifiers of the relationships of every diagram are identifiers
    drawn so far, and differ from one another. *)
Definition relationship_ids_ok (st : State) : Prop :=
  forall diagram d, diagram_objs st !! diagram = Some d ->
    NoDup (map r_id (d_relationships d)) /\
    Forall (fun rel => exists n, n < uuid_drawn st /\ r_id rel = uuid_str n)
      (d_relationships d).

(** What holds of every state the generator reaches. *)
Record generator_ok (st : State) : Prop := {
  g_store : store_ok st;
  g_children : children_are child_of st;
  g_diagrams : diagrams_ok st;
  g_registered : registered st;
  g_shown : diagrams_shown st;
  g_listed : listed_by_parent st;
  g_kinds : Forall well_kinded (element_objs st);
  g_relationship_ids : relationship_ids_ok st
}.

(** The state after a call of [uuid.uuid4()] and nothing else. *)
Definition bump (st : State) : State :=
  mkState (diagrams st) (elements st) (element_objs st) (diagram_objs st)
    (S (uuid_drawn st)) (clock st).

(** The shapes of the steps of the generator from a consistent state, when
    no builder raises inside its loop: nothing, a draw of an identifier by a
    builder that raises for an element that is not stored, a context
    diagram, a diagram of children of a stored element, one more
    relationship in a stored diagram. *)
Inductive transition (st : State) : State -> Prop :=
  | tr_same : transition st st
  | tr_bump : transition st (bump st)
  | tr_context system_name description :
      transition st (create_context_diagram system_name description st).1
  | tr_children what type level description suffix pid infos p ep :
      elements st !! pid = Some p ->
      element_objs st !! p = Some ep ->
      (type = "Container" /\ level = CONTAINER
       \/ type = "Component" /\ level = COMPONENT) ->
      transition st
        (create_child_diagram what type level description suffix pid infos st).1
  | tr_relationship diagram d from_element to_element description technology :
      diagram_objs st !! diagram = Some d ->
      transition st
        (mkState (diagrams st) (elements st) (element_objs st)
           (<[diagram :=
                set_updated_at (clock st)
                  (append_relationship
                     (mkRelationship (uuid_str (uuid_drawn st)) from_element
                        to_element description technology) d)]>
              (diagram_objs st))
           (S (uuid_drawn st)) (S (clock st))).

(** The state a builder leaves when it raises inside its loop: [st'] is the
    state it would have left without the dictionary that makes it raise and
    those after it; the diagram is not constructed, and the identifier of
    one more child has been drawn. *)
Definition interrupted (st st' : State) : State :=
  mkState (diagrams st) (elements st') (element_objs st') (diagram_objs st)
    (S (uuid_drawn st')) (clock st).

(** The state [drill_down] leaves when it constructs a diagram for the
    element behind [element]. *)
Definition detailed (st : State) (element : eref) : State :=
  mkState
    (odict.set (uuid_str (uuid_drawn st)) (length (diagram_objs st)) (diagrams st))
    (elements st) (element_objs st)
    (diagram_objs st ++
       [mkDiagram (uuid_str (uuid_drawn st))
          (e_name (element_at st element) +:+ " - Details")
          (_get_next_level (e_level (element_at st element)))
          (element ::
             omap (fun c => elements st !! c) (e_children (element_at st element)))
          [] (clock st) (S (clock st))])
    (S (uuid_drawn st)) (S (S (clock st))).

(** The other steps of the generator: a builder that raises inside its
    loop, after it has created the children [infos]; a drill-down that
    constructs a diagram. *)
Inductive irregular (st : State) : State -> Prop :=
  | tr_interrupted what type level description suffix pid infos p ep :
      elements st !! pid = Some p ->
      element_objs st !! p = Some ep ->
      (type = "Container" /\ level = CONTAINER
       \/ type = "Component" /\ level = COMPONENT) ->
      irregular st
        (interrupted st
           (create_child_diagram what type level description suffix pid infos st).1)
  | tr_details element_id element :
      elements st !! element_id = Some element ->
      irregular st (detailed st element).

(** A call runs through when it is not a call of a builder that raises
    although the element it is given is stored. *)
Definition runs_through (c : Call) (st : State) : Prop :=
  match c with
  | CreateContainerDiagram system_id containers =>
      is_Some (elements st !! system_id) ->
      exists diagram,
        (create_container_diagram system_id containers st).2 = Return diagram
  | CreateComponentDiagram container_id components =>
      is_Some (elements st !! container_id) ->
      exists diagram,
        (create_component_diagram container_id components st).2 = Return diagram
  | _ => True
  end.

Fixpoint all_run_through (calls : list Call) (st : State) : Prop :=
  match calls with
  | [] => True
  | c :: calls' => runs_through c st /\ all_run_through calls' (exec c st)
  end.

(** The states the generator reaches when every call runs through. *)
Definition regular (st : State) : Prop :=
  exists calls, all_run_through calls init /\ st = run calls init.

(** The first stored diagram that shows the element with identifier [k]
    first is a diagram of the Context level that shows this element only. *)
Definition first_is_context (st : State) (k : string) : Prop :=
  exists diagram d r,
    find (shows_first st k) (odict.values (diagrams st)) = Some diagram /\
    diagram_objs st !! diagram = Some d /\
    d_level d = CONTEXT /\ d_elements d = [r] /\ elements st !! k = Some r.

(** This holds of every stored element without parent. *)
Definition systems_first (st : State) : Prop :=
  forall k e, lookup_element st k = Some e -> e_parent_id e = None ->
    first_is_context st k.



(** No diagram has an element twice. *)
Definition shown_once (st : State) : Prop :=
  forall diagram d, diagram_objs st !! diagram = Some d -> NoDup (d_elements d).

(** ** The diagram tools of the agent ([src/agent_manager.py])

    What the tools read and write of an [ArchitectureAgent]: its generator
    and the entry [current_diagram] of its [context]. *)
Record ArchitectureAgent : Type := mkAgent {
  c4_generator : State;
  current_diagram : option string
}.

(** [ArchitectureAgent.__init__] *)
Definition new_agent : ArchitectureAgent := mkAgent init None.

Section Tools.
(** The text Pydantic gives to a [ValidationError], which is not modelled. *)
Variable validation_error_str : list (string * PyArg) -> string.

(** [str(e)] *)
Definition exn_str (e : exn) : string :=
  match e with
  | ValueError msg => msg
  | KeyError key => "'" +:+ key +:+ "'"
  | ValidationError errors => validation_error_str errors
  end.

(** The methods [_arun] of the three tools: the agent after the call and
    the message returned. *)
Definition C4CreateDiagramTool_arun (system_name description : string)
    (agent : ArchitectureAgent) : ArchitectureAgent * string :=
  match create_context_diagram system_name description (c4_generator agent) with
  | (st, Return diagram) =>
      (mkAgent st (Some (d_id (diagram_at st diagram))),
       "Created C4 context diagram for " +:+ system_name)
  | (st, Raise e) =>
      (mkAgent st (current_diagram agent),
       "Error creating diagram: " +:+ exn_str e)
  end.

Definition C4DrillDownTool_arun (element_id : string)
    (agent : ArchitectureAgent) : ArchitectureAgent * string :=
  match drill_down element_id (c4_generator agent) with
  | (st, Return (Some diagram)) =>
      (mkAgent st (Some (d_id (diagram_at st diagram))),
       "Drilled down to " +:+ d_name (diagram_at st diagram))
  | (st, Return None) =>
      (mkAgent st (current_diagram agent),
       "No lower level available for this element")
  | (st, Raise e) =>
      (mkAgent st (current_diagram agent),
       "Error drilling down: " +:+ exn_str e)
  end.

Definition C4HighlightElementsTool_arun (diagram_id element_ids : string)
    (agent : ArchitectureAgent) : ArchitectureAgent * string :=
  let element_list := split ","%char element_ids in
  let result := highlight_elements (c4_generator agent) diagram_id element_list in
  (agent,
   "Highlighted "
   +:+ pretty (length (match result with
                       | Some r => hr_highlighted_elements r
                       | None => []
                       end))
   +:+ " elements").

(** The uses the agent makes of its diagram tools. *)
Inductive ToolCall : Type :=
  | C4CreateDiagram (system_name description : string)
  | C4DrillDown (element_id : string)
  | C4HighlightElements (diagram_id element_ids : string).

Definition use_tool (c : ToolCall) (agent : ArchitectureAgent)
  : ArchitectureAgent * string :=
  match c with
  | C4CreateDiagram n d => C4CreateDiagramTool_arun n d agent
  | C4DrillDown i => C4DrillDownTool_arun i agent
  | C4HighlightElements d ids => C4HighlightElementsTool_arun d ids agent
  end.

Definition use_tools (calls : list ToolCall) (agent : ArchitectureAgent)
  : ArchitectureAgent :=
  fold_left (fun a c => (use_tool c a).1) calls agent.
End Tools.

(** What holds of an agent that only uses its tools: its elements are
    systems without children, its diagrams are context diagrams of one
    element, and its current diagram is stored. *)
Record agent_ok (agent : ArchitectureAgent) : Prop := {
  a_elements :
    Forall (fun e => e_children e = [] /\ e_type e = "System")
      (element_objs (c4_generator agent));
  a_diagrams :
    Forall (fun d => d_level d = CONTEXT /\ d_relationships d = [] /\
                     exists r, d_elements d = [r] /\
                               r < length (element_objs (c4_generator agent)))
      (diagram_objs (c4_generator agent));
  a_stored : forall k r, odict.get k (diagrams (c4_generator agent)) = Some r ->
    r < length (diagram_objs (c4_generator agent));
  a_current : forall k, current_diagram agent = Some k ->
    is_Some (odict.get k (diagrams (c4_generator agent)))
}.

(** * Properties *)

(** ** Identifiers *)

Section Identifiers.

Lemma all_digits_app s t :
  all_digits (s +:+ t) = all_digits s && all_digits t.
Proof.
  induction s as [|c s IH]; simpl; [done|].
  rewrite IH. by rewrite andb_assoc.
Qed.

Lemma pretty_N_char_digit x : is_digit (pretty_N_char x) = true.
Proof. unfold pretty_N_char. by repeat case_match. Qed.

Lemma pretty_N_go_digits x s :
  all_digits s = true -> all_digits (pretty_N_go x s) = true.
Proof.
  revert s. induction (N.lt_wf_0 x) as [x _ IH]; intros s Hs.
  destruct (decide (0 < x)%N) as [Hx|Hx].
  - rewrite pretty_N_go_step by done. apply IH.
    + apply N.div_lt; lia.
    + simpl. by rewrite pretty_N_char_digit, Hs.
  - assert (x = 0%N) as -> by lia. by rewrite pretty_N_go_0.
Qed.

Lemma pretty_nat_digits (n : nat) : all_digits (pretty n) = true.
Proof.
  unfold pretty, pretty_nat, pretty, pretty_N. case_decide; [done|].
  by apply pretty_N_go_digits.
Qed.

Lemma uuid_str_inj n m : uuid_str n = uuid_str m -> n = m.
Proof.
  unfold uuid_str. intros H. apply (inj (String.append "uuid-")) in H.
  by apply (inj pretty) in H.
Qed.

Lemma uuid_str_not_system n m : uuid_str n <> uuid_str m +:+ "_system".
Proof.
  unfold uuid_str. intros H. injection H as H.
  change (pretty n = pretty m +:+ "_system") in H.
  pose proof (pretty_nat_digits n) as Hn.
  rewrite H, all_digits_app in Hn. simpl in Hn.
  by rewrite andb_false_r in Hn.
Qed.

Lemma length_append (s t : string) :
  String.length (s +:+ t) = String.length s + String.length t.
Proof. induction s as [|c s IH]; simpl; [done|]. by rewrite IH. Qed.

Lemma append_inj_r (s1 s2 t : string) : s1 +:+ t = s2 +:+ t -> s1 = s2.
Proof.
  revert s2. induction s1 as [|c s1 IH]; intros [|c' s2] H.
  - done.
  - apply (f_equal String.length) in H.
    rewrite !length_append in H. simpl in H. lia.
  - apply (f_equal String.length) in H.
    rewrite !length_append in H. simpl in H. lia.
  - injection H as -> H. f_equal. by apply IH.
Qed.

Lemma system_id_inj n m :
  uuid_str n +:+ "_system" = uuid_str m +:+ "_system" -> n = m.
Proof. intros H. by apply uuid_str_inj, append_inj_r with "_system". Qed.

End Identifiers.

(** ** Insertion-ordered dictionaries *)

Section Odict.
Context {V : Type}.
Implicit Types (d : odict.t V) (k : string) (v : V).

Lemma odict_get_set_eq k v d : odict.get k (odict.set k v d) = Some v.
Proof.
  induction d as [|[k' v'] d IH]; simpl.
  - by rewrite String.eqb_refl.
  - destruct (String.eqb k k') eqn:E; simpl; rewrite E; done.
Qed.

Lemma odict_get_set_ne k k' v d :
  k <> k' -> odict.get k' (odict.set k v d) = odict.get k' d.
Proof.
  intros Hne. induction d as [|[k0 v0] d IH]; simpl.
  - destruct (String.eqb k' k) eqn:E; [|done].
    apply String.eqb_eq in E. congruence.
  - destruct (String.eqb k k0) eqn:E; simpl.
    + apply String.eqb_eq in E as ->.
      destruct (String.eqb k' k0) eqn:E'; [|done].
      apply String.eqb_eq in E'. congruence.
    + by rewrite IH.
Qed.

(** A value of the dictionary after an assignment is the assigned value
    or was a value before. *)
Lemma odict_values_set k v d x :
  x ∈ odict.values (odict.set k v d) -> x = v \/ x ∈ odict.values d.
Proof.
  unfold odict.values. induction d as [|[k' v'] d IH]; simpl.
  - intros ?%list_elem_of_singleton. by left.
  - destruct (String.eqb k k'); simpl; intros [->|H]%elem_of_cons.
    + by left.
    + right. by apply elem_of_cons; right.
    + right. apply elem_of_cons. by left.
    + destruct (IH H) as [->|?]; [by left|]. right. apply elem_of_cons. by right.
Qed.

Lemma odict_get_values k v d : odict.get k d = Some v -> v ∈ odict.values d.
Proof.
  unfold odict.values. induction d as [|[k' v'] d IH]; simpl; [done|].
  destruct (String.eqb k k'); intros H.
  - simplify_eq. apply elem_of_cons. by left.
  - apply elem_of_cons. right. by apply IH.
Qed.

(** The search of the first value passing a test [p'], after an assignment
    of a value that passes it to a dictionary none of whose values passed
    the test [p], which agrees with [p'] on them. *)
Lemma find_set_first (p p' : V -> bool) k v d :
  find p (odict.values d) = None ->
  (forall x, x ∈ odict.values d -> p' x = p x) ->
  p' v = true ->
  find p' (odict.values (odict.set k v d)) = Some v.
Proof.
  unfold odict.values. induction d as [|[k' v'] d IH]; simpl; intros Hnone Hagree Hv.
  - by rewrite Hv.
  - destruct (p v') eqn:Hp; [done|].
    destruct (String.eqb k k'); simpl.
    + by rewrite Hv.
    + rewrite (Hagree v'), Hp by (apply elem_of_cons; by left).
      apply IH; [done| |done].
      intros x Hx. apply Hagree, elem_of_cons. by right.
Qed.
End Odict.

(** ** Running computations *)

(** Unfolds the primitive computations and the binds between them. *)
Ltac run_state :=
  cbv [mbind M_bind mret M_ret raise uuid4 now new_element new_diagram
       get_element get_diagram elements_get elements_set diagrams_get
       diagrams_set diagrams_values children_append relationships_append
       updated_at_set find_existing known_children];
  cbn [diagrams elements element_objs diagram_objs uuid_drawn clock fst snd].

Lemma bind_run {A B} (m : M A) (f : A -> M B) st :
  (m ≫= f) st =
  match m st with
  | (st', Return a) => f a st'
  | (st', Raise e) => (st', Raise e)
  end.
Proof. reflexivity. Qed.

(** The two builders are the common text with their loop bodies. *)
Lemma create_container_diagram_is_build_diagram :
  create_container_diagram =
  build_diagram "System" CONTAINER " - Containers" add_container.
Proof. reflexivity. Qed.

Lemma create_component_diagram_is_build_diagram :
  create_component_diagram =
  build_diagram "Container" COMPONENT " - Components" add_component.
Proof. reflexivity. Qed.

Lemma create_child_diagram_is_build_diagram what type level description suffix :
  create_child_diagram what type level description suffix =
  build_diagram what level suffix (add_child type level description).
Proof. reflexivity. Qed.

(** The values Pydantic accepts, and those [read_info] reads. *)
Lemma validated_read type level parent_id child_id name description technology
    properties st :
  C4Element_new child_id name type level description technology properties
    parent_id st =
  match not_str "name" name ++ not_str "description" description
        ++ not_optional_str "technology" technology
        ++ not_dict "properties" properties with
  | [] =>
      new_element
        (element_of type level parent_id child_id
           (mkFields (str_of name) (str_of description)
              (optional_str_of technology) (dict_of properties))) st
  | errors => (st, Raise (ValidationError errors))
  end.
Proof.
  destruct name as [[]|], description as [[]|], technology as [[]|],
           properties as [[]|]; reflexivity.
Qed.

(** One turn of the loop of a builder: for a dictionary that [read_info]
    rejects it raises, after it has drawn an identifier; for another one it
    is the turn of [add_child] for the fields read. *)
Lemma add_container_run system_id system_element info acc st :
  add_container system_id system_element info acc st =
  match read_info info with
  | inl e => (bump st, Raise e)
  | inr f =>
      add_child "Container" CONTAINER "deployed on" system_id system_element
        f acc st
  end.
Proof.
  unfold add_container, add_child, read_info, item, info_get.
  rewrite bind_run. cbv [uuid4]. rewrite bind_run.
  destruct (odict.get "name" info) as [name|]; [|reflexivity].
  rewrite bind_run, validated_read. cbv zeta.
  by destruct (not_str "name" name ++ _).
Qed.

Lemma add_component_run container_id container_element info acc st :
  add_component container_id container_element info acc st =
  match read_info info with
  | inl e => (bump st, Raise e)
  | inr f =>
      add_child "Component" COMPONENT "part of" container_id container_element
        f acc st
  end.
Proof.
  unfold add_component, add_child, read_info, item, info_get.
  rewrite bind_run. cbv [uuid4]. rewrite bind_run.
  destruct (odict.get "name" info) as [name|]; [|reflexivity].
  rewrite bind_run, validated_read. cbv zeta.
  by destruct (not_str "name" name ++ _).
Qed.

(** A specification is read as it was written. *)
Lemma read_spec_dict s : read_info (spec_dict s) = inr (fields_of s).
Proof. by destruct s as [n [d|] [t|] [p|]]. Qed.

Lemma read_spec_dicts specs :
  read_infos (map spec_dict specs) = (map fields_of specs, None).
Proof.
  induction specs as [|s specs IH]; [done|].
  cbn [map read_infos]. by rewrite read_spec_dict, IH.
Qed.

Lemma child_element_fields type level parent_id ids specs :
  zip_with (element_of type level parent_id) ids (map fields_of specs)
  = zip_with (child_element type level parent_id) ids specs.
Proof.
  revert ids. induction specs as [|s specs IH]; intros [|k ids]; try done.
  simpl. by rewrite IH.
Qed.

(** A loop whose body always returns and keeps [P] returns and keeps [P]. *)
Lemma for_each_returns {A B} (body : A -> B -> M B) (P : State -> B -> Prop) :
  (forall x acc st, P st acc ->
     exists st' acc', body x acc st = (st', Return acc') /\ P st' acc') ->
  forall xs acc st, P st acc ->
    exists st' acc', for_each xs body acc st = (st', Return acc') /\ P st' acc'.
Proof.
  intros Hbody xs. induction xs as [|x xs IH]; intros acc st HP.
  - by exists st, acc.
  - destruct (Hbody x acc st HP) as (st1 & acc1 & Heq & HP1).
    destruct (IH acc1 st1 HP1) as (st2 & acc2 & Heq2 & HP2).
    exists st2, acc2. split; [|done].
    simpl. by rewrite bind_run, Heq.
Qed.

(** One turn of the loop, written out. *)
Lemma add_child_run type level description parent_id parent info acc st :
  add_child type level description parent_id parent info acc st =
  (mkState (diagrams st)
     (<[uuid_str (uuid_drawn st) := length (element_objs st)]> (elements st))
     (alter (with_children [uuid_str (uuid_drawn st)]) parent
        (element_objs st ++
           [element_of type level parent_id (uuid_str (uuid_drawn st)) info]))
     (diagram_objs st) (S (S (uuid_drawn st))) (clock st),
   Return (acc.1 ++ [length (element_objs st)],
           acc.2 ++ [implicit_relationship description parent_id
                       (uuid_str (S (uuid_drawn st)))
                       (uuid_str (uuid_drawn st))])).
Proof. reflexivity. Qed.

Lemma element_at_new st objs e :
  element_objs st = objs ++ [e] -> element_at st (length objs) = e.
Proof.
  intros H. unfold element_at. rewrite H.
  by rewrite lookup_app_r, Nat.sub_diag by lia.
Qed.

Lemma diagram_at_new st objs d :
  diagram_objs st = objs ++ [d] -> diagram_at st (length objs) = d.
Proof.
  intros H. unfold diagram_at. rewrite H.
  by rewrite lookup_app_r, Nat.sub_diag by lia.
Qed.

Lemma create_context_diagram_run system_name description st :
  create_context_diagram system_name description st =
  (mkState
     (odict.set (uuid_str (uuid_drawn st)) (length (diagram_objs st)) (diagrams st))
     (<[uuid_str (uuid_drawn st) +:+ "_system" := length (element_objs st)]>
        (elements st))
     (element_objs st ++
        [mkElement (uuid_str (uuid_drawn st) +:+ "_system") system_name "System"
           CONTEXT description (Some "") [] [] None []])
     (diagram_objs st ++
        [mkDiagram (uuid_str (uuid_drawn st)) (system_name +:+ " - Context")
           CONTEXT [length (element_objs st)] [] (clock st) (S (clock st))])
     (S (uuid_drawn st)) (S (S (clock st))),
   Return (length (diagram_objs st))).
Proof.
  unfold create_context_diagram. run_state.
  erewrite element_at_new by reflexivity. reflexivity.
Qed.

(** The loops of the two builders always run to their end. *)
Lemma add_children_returns type level description parent_id parent infos acc st :
  exists st' acc',
    for_each infos (add_child type level description parent_id parent) acc st
    = (st', Return acc').
Proof.
  destruct (for_each_returns
              (add_child type level description parent_id parent)
              (fun _ _ => True)) with (xs := infos) (acc := acc) (st := st)
    as (st' & acc' & Heq & _); [|done|by exists st', acc'].
  intros x a s _. rewrite add_child_run. by eexists _, _.
Qed.

Lemma create_child_diagram_not_found what type level description suffix
    parent_id infos st :
  elements st !! parent_id = None ->
  create_child_diagram what type level description suffix parent_id infos st =
  (mkState (diagrams st) (elements st) (element_objs st) (diagram_objs st)
     (S (uuid_drawn st)) (clock st),
   Raise (ValueError (what +:+ " element " +:+ parent_id +:+ " not found"))).
Proof.
  intros Hnone. unfold create_child_diagram. run_state. by rewrite Hnone.
Qed.

Lemma create_child_diagram_found what type level description suffix
    parent_id infos st parent :
  elements st !! parent_id = Some parent ->
  exists st' diagram,
    create_child_diagram what type level description suffix parent_id infos st =
    (st', Return diagram).
Proof.
  intros Hsome. unfold create_child_diagram. run_state. rewrite Hsome.
  edestruct add_children_returns as (st1 & acc1 & ->).
  by eexists _, _.
Qed.

(** ** The loops of the builders *)

(** The loop of a builder leaves the diagrams and the clock as they are. *)
Lemma add_children_diagrams type level description pid p infos :
  forall acc st,
    let st' := (for_each infos (add_child type level description pid p) acc st).1 in
    diagrams st' = diagrams st /\ diagram_objs st' = diagram_objs st /\
    clock st' = clock st.
Proof.
  induction infos as [|info infos IH]; intros acc st; [done|].
  simpl for_each. rewrite bind_run, add_child_run.
  match goal with |- context [for_each _ _ ?a ?s] => specialize (IH a s) end.
  exact IH.
Qed.

(** A loop whose body raises for the dictionaries that [read_info] rejects,
    after a draw of an identifier, and is otherwise the body [body'] for the
    fields read: it runs [body'] for the dictionaries before the first one
    that is rejected. *)
Lemma builder_loop {B} (body : Info -> B -> M B) (body' : Fields -> B -> M B) :
  (forall info acc st,
     body info acc st =
     match read_info info with
     | inl e => (bump st, Raise e)
     | inr f => body' f acc st
     end) ->
  (forall f acc st, exists st' acc', body' f acc st = (st', Return acc')) ->
  forall infos acc st,
    for_each infos body acc st =
    match for_each (read_infos infos).1 body' acc st, (read_infos infos).2 with
    | (st', Return acc'), None => (st', Return acc')
    | (st', Return _), Some e => (bump st', Raise e)
    | (st', Raise e), _ => (st', Raise e)
    end.
Proof.
  intros Hbody Htotal. induction infos as [|info infos IH]; intros acc st.
  - reflexivity.
  - simpl for_each. rewrite bind_run, Hbody. cbn [read_infos].
    destruct (read_info info) as [e|f]; [reflexivity|].
    cbn [fst snd for_each]. rewrite bind_run.
    destruct (Htotal f acc st) as (st1 & acc1 & ->). apply IH.
Qed.

Lemma build_diagram_run what type level description suffix body pid infos st :
  (forall p info acc st,
     body pid p info acc st =
     match read_info info with
     | inl e => (bump st, Raise e)
     | inr f => add_child type level description pid p f acc st
     end) ->
  build_diagram what level suffix body pid infos st =
  match elements st !! pid, (read_infos infos).2 with
  | Some _, Some e =>
      (interrupted st
         (create_child_diagram what type level description suffix pid
            (read_infos infos).1 st).1,
       Raise e)
  | _, _ =>
      create_child_diagram what type level description suffix pid
        (read_infos infos).1 st
  end.
Proof.
  intros Hbody. unfold build_diagram, create_child_diagram. run_state.
  destruct (elements st !! pid) as [p|]; [|by destruct (read_infos infos).2].
  set (st0 := mkState (diagrams st) (elements st) (element_objs st)
                (diagram_objs st) (S (uuid_drawn st)) (clock st)).
  rewrite (builder_loop (body pid p) (add_child type level description pid p))
    by (by intros; rewrite ?add_child_run; eauto).
  pose proof (add_children_diagrams type level description pid p
                (read_infos infos).1 ([p], []) st0) as Hframe.
  destruct (add_children_returns type level description pid p
              (read_infos infos).1 ([p], []) st0) as (st1 & acc1 & Hloop).
  rewrite Hloop in *. cbn [fst st0 diagrams diagram_objs clock] in Hframe.
  destruct Hframe as (Hd & Hdo & Hc).
  destruct (read_infos infos).2 as [e|]; [|reflexivity].
  f_equal. unfold interrupted, bump.
  cbn [fst elements element_objs uuid_drawn]. by rewrite Hd, Hdo, Hc.
Qed.

(** The two builders, by the common text for the dictionaries that are
    read. *)
Lemma create_container_diagram_run system_id containers st :
  create_container_diagram system_id containers st =
  match elements st !! system_id, (read_infos containers).2 with
  | Some _, Some e =>
      (interrupted st
         (create_child_diagram "System" "Container" CONTAINER "deployed on"
            " - Containers" system_id (read_infos containers).1 st).1,
       Raise e)
  | _, _ =>
      create_child_diagram "System" "Container" CONTAINER "deployed on"
        " - Containers" system_id (read_infos containers).1 st
  end.
Proof.
  rewrite create_container_diagram_is_build_diagram.
  apply build_diagram_run. intros. apply add_container_run.
Qed.

Lemma create_component_diagram_run container_id components st :
  create_component_diagram container_id components st =
  match elements st !! container_id, (read_infos components).2 with
  | Some _, Some e =>
      (interrupted st
         (create_child_diagram "Container" "Component" COMPONENT "part of"
            " - Components" container_id (read_infos components).1 st).1,
       Raise e)
  | _, _ =>
      create_child_diagram "Container" "Component" COMPONENT "part of"
        " - Components" container_id (read_infos components).1 st
  end.
Proof.
  rewrite create_component_diagram_is_build_diagram.
  apply build_diagram_run. intros. apply add_component_run.
Qed.

(** ** Failure of the builders *)

Lemma not_str_nil field v : not_str field v = [] <-> exists s, v = Atom (PyStr s).
Proof.
  destruct v as [[]|]; simpl; split; try done; try (by intros [? ?]).
  by eexists.
Qed.

Lemma not_optional_str_nil field v :
  not_optional_str field v = [] <->
  v = Atom PyNone \/ exists s, v = Atom (PyStr s).
Proof.
  destruct v as [[]|]; simpl; split; try done;
    try (by intros [?|[? ?]]); [by left|right; by eexists].
Qed.

Lemma not_dict_nil field v : not_dict field v = [] <-> exists d, v = Dict d.
Proof.
  destruct v as [[]|]; simpl; split; try done; try (by intros [? ?]).
  by eexists.
Qed.

(** The dictionaries that are read are those that are well formed; the
    others make the loop raise a [KeyError] when they have no [name], and a
    [ValidationError] otherwise. *)
Lemma read_info_well_formed info :
  (well_formed info <-> exists f, read_info info = inr f) /\
  (odict.get "name" info = None <-> read_info info = inl (KeyError "name")).
Proof.
  unfold well_formed, read_info.
  destruct (odict.get "name" info) as [name|].
  2: { split; [|done]. split; [by intros [[? ?] _]|by intros [? ?]]. }
  cbv zeta.
  pose proof (not_str_nil "name" name) as Hn.
  pose proof (not_str_nil "description"
                (default (Atom (PyStr "")) (odict.get "description" info))) as Hd.
  pose proof (not_optional_str_nil "technology"
                (default (Atom (PyStr "")) (odict.get "technology" info))) as Ht.
  pose proof (not_dict_nil "properties"
                (default (Dict []) (odict.get "properties" info))) as Hp.
  destruct (not_str "name" name) as [|? ?].
  2: { split; [|done]. split; [|by intros [? ?]].
       intros [[n [= ->]] _]. destruct Hn as [_ Hn]. by specialize (Hn (ex_intro _ n eq_refl)). }
  destruct (not_str "description" _) as [|? ?].
  2: { split; [|done]. split; [|by intros [? ?]].
       intros (_ & Hdesc & _). destruct Hd as [_ Hd].
       destruct Hdesc as [Hdesc|[d Hdesc]]; rewrite Hdesc in Hd;
         by specialize (Hd (ex_intro _ _ eq_refl)). }
  destruct (not_optional_str "technology" _) as [|? ?].
  2: { split; [|done]. split; [|by intros [? ?]].
       intros (_ & _ & Htech & _). destruct Ht as [_ Ht].
       destruct Htech as [Htech|[Htech|[t Htech]]]; rewrite Htech in Ht;
         by (specialize (Ht (or_introl eq_refl))
             || specialize (Ht (or_intror (ex_intro _ _ eq_refl)))). }
  destruct (not_dict "properties" _) as [|? ?].
  2: { split; [|done]. split; [|by intros [? ?]].
       intros (_ & _ & _ & Hprop). destruct Hp as [_ Hp].
       destruct Hprop as [Hprop|[d Hprop]]; rewrite Hprop in Hp;
         by specialize (Hp (ex_intro _ _ eq_refl)). }
  split; [|done]. split; [by eexists|]. intros _.
  destruct Hn as [Hn _], Hd as [Hd _], Ht as [Ht _], Hp as [Hp _].
  destruct (Hn eq_refl) as [n ->]. split; [by eexists|].
  split; [|split].
  - destruct (odict.get "description" info) as [v|]; [|by left].
    right. destruct (Hd eq_refl) as [d Hv]. simpl in Hv. subst v. by eexists.
  - destruct (odict.get "technology" info) as [v|]; [|by left].
    right. destruct (Ht eq_refl) as [Hv|[t Hv]]; simpl in Hv; subst v;
      [by left|right; by eexists].
  - destruct (odict.get "properties" info) as [v|]; [|by left].
    right. destruct (Hp eq_refl) as [d Hv]. simpl in Hv. subst v. by eexists.
Qed.

(** The first dictionary that is not well formed, when the loop raises. *)
Lemma read_infos_raise infos e :
  (read_infos infos).2 = Some e ->
  exists before info after,
    infos = before ++ info :: after /\
    Forall well_formed before /\ ~ well_formed info /\
    read_info info = inl e /\
    read_infos before = ((read_infos infos).1, None).
Proof.
  induction infos as [|info infos IH]; [done|]. cbn [read_infos].
  destruct (read_info info) as [e'|f] eqn:Hread; cbn [fst snd].
  - intros [= ->]. exists [], info, infos. split; [done|]. split; [done|].
    split; [|done]. intros [f Hf]%read_info_well_formed. congruence.
  - intros (before & bad & after & -> & Hall & Hbad & Hr & Hprefix)%IH.
    exists (info :: before), bad, after. split; [done|]. split.
    + constructor; [|done]. apply read_info_well_formed. by eexists.
    + split; [done|]. split; [done|]. cbn [read_infos].
      by rewrite Hread, Hprefix.
Qed.

Lemma read_infos_return infos :
  (read_infos infos).2 = None <-> Forall well_formed infos.
Proof.
  induction infos as [|info infos IH]; [done|]. cbn [read_infos].
  destruct (read_info info) as [e'|f] eqn:Hread; cbn [fst snd].
  - split; [done|]. intros [[f Hf]%read_info_well_formed _]%Forall_cons_1.
    congruence.
  - rewrite IH. split.
    + intros H. constructor; [|done]. apply read_info_well_formed. by eexists.
    + by intros [_ H]%Forall_cons_1.
Qed.

(** What a builder does when it raises, for the common text. *)
Lemma build_diagram_raises what type level description suffix body pid infos st :
  (forall p info acc st,
     body pid p info acc st =
     match read_info info with
     | inl e => (bump st, Raise e)
     | inr f => add_child type level description pid p f acc st
     end) ->
  let (st', result) := build_diagram what level suffix body pid infos st in
  ((exists msg, result = Raise (ValueError msg)) <-> elements st !! pid = None) /\
  (forall msg, result = Raise (ValueError msg) ->
     msg = what +:+ " element " +:+ pid +:+ " not found" /\
     elements st' = elements st /\ diagrams st' = diagrams st /\
     element_objs st' = element_objs st /\ diagram_objs st' = diagram_objs st) /\
  ((exists e, result = Raise e) <->
   elements st !! pid = None \/ Exists (fun info => ~ well_formed info) infos) /\
  (forall e, result = Raise e -> is_Some (elements st !! pid) ->
     exists before info after,
       infos = before ++ info :: after /\
       Forall well_formed before /\ ~ well_formed info /\
       (e = KeyError "name" <-> odict.get "name" info = None) /\
       (odict.get "name" info = None \/ exists errors, e = ValidationError errors) /\
       diagrams st' = diagrams st /\ diagram_objs st' = diagram_objs st /\
       exists st1 diagram,
         build_diagram what level suffix body pid before st = (st1, Return diagram) /\
         elements st' = elements st1 /\ element_objs st' = element_objs st1).
Proof.
  intros Hbody. rewrite (build_diagram_run what type level description suffix)
    by exact Hbody.
  destruct (elements st !! pid) as [p|] eqn:Hget.
  2: { rewrite create_child_diagram_not_found by done.
       replace (match (read_infos infos).2 with Some _ | _ => _ end)
         with (bump st, @Raise dref
                 (ValueError (what +:+ " element " +:+ pid +:+ " not found")))
         by (by destruct (read_infos infos).2).
       split; [split; [done|by eexists]|]. split; [by intros msg [= <-]|].
       split; [split; [by left|by eexists]|]. by intros e _ [? ?]. }
  destruct (create_child_diagram_found what type level description suffix pid
              (read_infos infos).1 st p Hget) as (st' & diagram & Hrun).
  destruct (read_infos infos).2 as [e|] eqn:Herr.
  - split; [split; [|done]|].
    { intros [msg [= ->]].
      apply read_infos_raise in Herr as (? & info & ? & _ & _ & _ & Hr & _).
      unfold read_info in Hr. destruct (odict.get "name" info); [|done].
      cbv zeta in Hr. by destruct (not_str _ _ ++ _). }
    split.
    { intros msg [= ->].
      apply read_infos_raise in Herr as (? & info & ? & _ & _ & _ & Hr & _).
      unfold read_info in Hr. destruct (odict.get "name" info); [|done].
      cbv zeta in Hr. by destruct (not_str _ _ ++ _). }
    split.
    { split; [|by eexists]. intros _. right.
      apply read_infos_raise in Herr as (before & info & after & -> & _ & Hbad & _).
      apply Exists_app. right. by constructor. }
    intros e' [= <-] _.
    destruct (read_infos_raise infos e Herr)
      as (before & info & after & Hinfos & Hall & Hbad & Hr & Hprefix).
    exists before, info, after. do 3 (split; [done|]).
    split.
    { split; [intros ->; by apply read_info_well_formed|].
      intros Hname%read_info_well_formed. congruence. }
    split.
    { unfold read_info in Hr. destruct (odict.get "name" info); [|by left].
      right. cbv zeta in Hr. destruct (not_str _ _ ++ _); [done|].
      injection Hr as <-. by eexists. }
    rewrite Hrun. cbn [interrupted diagrams diagram_objs fst].
    do 2 (split; [done|]). exists st', diagram. split; [|done].
    rewrite (build_diagram_run what type level description suffix)
      by exact Hbody.
    rewrite Hget, Hprefix. exact Hrun.
  - rewrite Hrun.
    split; [split; [by intros [? ?]|done]|].
    split; [done|]. split; [|done]. split; [by intros [? ?]|].
    intros [?|Hex]; [done|]. apply read_infos_return in Herr.
    apply Exists_exists in Hex as (info & Hin & Hbad).
    destruct Hbad. by apply (proj1 (Forall_forall _ _) Herr).
Qed.

(** C4, as the code has it: [create_container_diagram] raises the
    [ValueError] of a missing element exactly when [system_id] is not a key
    of the Element Store, and the stores and their objects are then what
    they were before the call.  It raises at all exactly when [system_id]
    is not a key or one of the dictionaries is not well formed.  When it
    raises for a dictionary, a [KeyError] for one without [name] and a
    [ValidationError] for another, no diagram is constructed or stored, and
    the Element Store and its objects are those the call leaves for the
    dictionaries before that one: their elements stay stored, and listed in
    the [children] of the system. *)
Theorem create_container_diagram_raises st system_id containers :
  let (st', result) := create_container_diagram system_id containers st in
  ((exists msg, result = Raise (ValueError msg)) <->
   elements st !! system_id = None) /\
  (forall msg, result = Raise (ValueError msg) ->
     msg = "System element " +:+ system_id +:+ " not found" /\
     elements st' = elements st /\ diagrams st' = diagrams st /\
     element_objs st' = element_objs st /\ diagram_objs st' = diagram_objs st) /\
  ((exists e, result = Raise e) <->
   elements st !! system_id = None \/
   Exists (fun info => ~ well_formed info) containers) /\
  (forall e, result = Raise e -> is_Some (elements st !! system_id) ->
     exists before info after,
       containers = before ++ info :: after /\
       Forall well_formed before /\ ~ well_formed info /\
       (e = KeyError "name" <-> odict.get "name" info = None) /\
       (odict.get "name" info = None \/ exists errors, e = ValidationError errors) /\
       diagrams st' = diagrams st /\ diagram_objs st' = diagram_objs st /\
       exists st1 diagram,
         create_container_diagram system_id before st = (st1, Return diagram) /\
         elements st' = elements st1 /\ element_objs st' = element_objs st1).
Proof.
  rewrite create_container_diagram_is_build_diagram.
  apply (build_diagram_raises "System" "Container" CONTAINER "deployed on").
  intros. apply add_container_run.
Qed.

(** C4, as stated, fails for a dictionary without [name] that follows a
    well-formed one: the system is stored, the builder raises a [KeyError],
    and it has by then stored the container of the first dictionary and
    listed it in the [children] of the system; no diagram is stored. *)
Lemma create_container_diagram_raises_after_writes :
  exists st',
    create_container_diagram "uuid-0_system"
      [spec_dict (mkSpec "API" None None None);
       [("description", Atom (PyStr "has no name"))]]
      payments_context
    = (st', Raise (KeyError "name")) /\
    is_Some (elements payments_context !! "uuid-0_system") /\
    lookup_element payments_context "uuid-2" = None /\
    e_name <$> lookup_element st' "uuid-2" = Some "API" /\
    e_children <$> lookup_element payments_context "uuid-0_system" = Some [] /\
    e_children <$> lookup_element st' "uuid-0_system" = Some ["uuid-2"] /\
    diagrams st' = diagrams payments_context.
Proof.
  eexists. split; [vm_compute; reflexivity|].
  split; [by eexists|]. by vm_compute.
Qed.

(** ** Relationships *)

Lemma alter_alter_insert {A} (f g : A -> A) (l : list A) i x :
  l !! i = Some x -> alter g i (alter f i l) = <[i := g (f x)]> l.
Proof.
  intros Hi. apply list_eq. intros j.
  destruct (decide (i = j)) as [<-|Hne].
  - rewrite !list_lookup_alter_eq, Hi. simpl.
    rewrite list_lookup_insert_eq; [done|]. by eapply lookup_lt_Some.
  - by rewrite !list_lookup_alter_ne, list_lookup_insert_ne.
Qed.

(** C7: [add_relationship] returns [False] and leaves the state as it is
    when [diagram_id] is not a key of the Diagram Store; otherwise it returns
    [True], the diagram has one more relationship, the last one, with the
    given ends, description and technology, its [updated_at] is the time
    read during the call, and nothing else changes.  The ends are not
    looked up anywhere. *)
Theorem add_relationship_spec st diagram_id from_element to_element
    description technology :
  (odict.get diagram_id (diagrams st) = None ->
   add_relationship diagram_id from_element to_element description technology st
   = (st, Return false)) /\
  (forall diagram d,
     odict.get diagram_id (diagrams st) = Some diagram ->
     diagram_objs st !! diagram = Some d ->
     exists st',
       add_relationship diagram_id from_element to_element description technology st
       = (st', Return true) /\
       diagram_objs st' =
         <[diagram :=
             mkDiagram (d_id d) (d_name d) (d_level d) (d_elements d)
               (d_relationships d ++
                  [mkRelationship (uuid_str (uuid_drawn st)) from_element
                     to_element description technology])
               (d_created_at d) (clock st)]> (diagram_objs st) /\
       diagrams st' = diagrams st /\ elements st' = elements st /\
       element_objs st' = element_objs st).
Proof.
  split.
  - intros Hnone. unfold add_relationship. run_state. rewrite Hnone.
    by destruct st.
  - intros diagram d Hsome Hd. unfold add_relationship. run_state.
    rewrite Hsome. eexists. split; [reflexivity|].
    cbn [diagrams elements element_objs diagram_objs].
    split; [|done]. by erewrite alter_alter_insert.
Qed.

Lemma add_relationship_spec_witness :
  add_relationship "nowhere" "uuid-2" "uuid-4" "calls" "HTTP" payments_containers
    = (payments_containers, Return false) /\
  exists st',
    add_relationship "uuid-1" "uuid-2" "elsewhere" "calls" "HTTP"
      payments_containers = (st', Return true) /\
    map r_description (d_relationships (diagram_at st' 1))
      = ["deployed on"; "deployed on"; "calls"] /\
    d_updated_at (diagram_at st' 1) = clock payments_containers.
Proof.
  destruct (add_relationship_spec payments_containers "nowhere" "uuid-2"
              "uuid-4" "calls" "HTTP") as [Hmiss _].
  destruct (add_relationship_spec payments_containers "uuid-1" "uuid-2"
              "elsewhere" "calls" "HTTP") as [_ Hhit].
  split; [apply Hmiss; vm_compute; reflexivity|].
  destruct (Hhit 1 (diagram_at payments_containers 1))
    as (st' & Hrun & Hobjs & _); [vm_compute; reflexivity..|].
  exists st'. split; [exact Hrun|].
  unfold diagram_at. rewrite Hobjs. vm_compute. by split.
Defined.

(** ** Export *)

Lemma fold_left_snoc {A B} (f : A -> B) (l : list A) (init : list B) :
  fold_left (fun acc x => acc ++ [f x]) l init = init ++ map f l.
Proof.
  revert init. induction l as [|x l IH]; intros init; simpl.
  - by rewrite app_nil_r.
  - by rewrite IH, <- app_assoc.
Qed.

Lemma dot_lines_eq st diagram :
  dot_lines st diagram =
  dot_header
  ++ map (fun r => node_line (element_at st r)) (d_elements (diagram_at st diagram))
  ++ map edge_line (d_relationships (diagram_at st diagram))
  ++ ["}"].
Proof.
  unfold dot_lines. cbv zeta. rewrite !fold_left_snoc.
  by rewrite <- !app_assoc.
Qed.

Lemma edge_loop_eq st d rels init :
  fold_left
    (fun texts rel =>
       match first_with_id st (r_from rel) (d_elements d),
             first_with_id st (r_to rel) (d_elements d) with
       | Some _, Some _ => texts ++ [r_description rel]
       | _, _ => texts
       end) rels init
  = init ++ map r_description (List.filter (ends_shown st d) rels).
Proof.
  revert init. induction rels as [|rel rels IH]; intros init; simpl.
  - by rewrite app_nil_r.
  - rewrite IH. unfold ends_shown.
    destruct (first_with_id st (r_from rel) (d_elements d)),
             (first_with_id st (r_to rel) (d_elements d)); simpl; try done.
    by rewrite <- app_assoc.
Qed.

Lemma one_line_app s t : one_line (s +:+ t) = one_line s && one_line t.
Proof.
  induction s as [|c s IH]; [done|].
  change (String c s +:+ t) with (String c (s +:+ t)). simpl.
  by rewrite IH, andb_assoc.
Qed.

Lemma split_one_line s : one_line s = true -> split "010"%char s = [s].
Proof.
  induction s as [|c s IH]; [done|]. simpl.
  intros [Hc Hs]%andb_prop. apply negb_true_iff in Hc. rewrite Hc.
  by rewrite IH.
Qed.

Lemma split_first_line s t :
  one_line s = true ->
  split "010"%char (s +:+ newline +:+ t) = s :: split "010"%char t.
Proof.
  induction s as [|c s IH]; [done|].
  change (String c s +:+ newline +:+ t) with (String c (s +:+ newline +:+ t)).
  simpl. intros [Hc Hs]%andb_prop. apply negb_true_iff in Hc. rewrite Hc.
  by rewrite IH.
Qed.

(** The lines of a text joined by newlines are the strings joined, when
    none of them holds a newline. *)
Lemma split_concat_lines l :
  l <> [] -> Forall (fun s => one_line s = true) l ->
  split "010"%char (String.concat newline l) = l.
Proof.
  induction l as [|s l IH]; [done|]. intros _ Hall.
  apply Forall_cons_1 in Hall as [Hs Hall].
  destruct l as [|s' l]; [by apply split_one_line|].
  change (String.concat newline (s :: s' :: l))
    with (s +:+ newline +:+ String.concat newline (s' :: l)).
  rewrite split_first_line by done. by rewrite IH.
Qed.

Lemma first_with_id_shown st wanted els :
  existsb (fun e => String.eqb (e_id e) wanted) (map (element_at st) els) =
  match first_with_id st wanted els with
  | Some _ => true
  | None => false
  end.
Proof.
  unfold first_with_id. induction els as [|r els IH]; simpl; [done|].
  by destruct (String.eqb (e_id (element_at st r)) wanted).
Qed.

Lemma ends_shown_eq st d rel :
  ends_shown st d rel =
  existsb (fun e => String.eqb (e_id e) (r_from rel))
    (map (element_at st) (d_elements d))
  && existsb (fun e => String.eqb (e_id e) (r_to rel))
       (map (element_at st) (d_elements d)).
Proof.
  unfold ends_shown. rewrite !first_with_id_shown.
  by destruct (first_with_id st (r_from rel) (d_elements d)),
              (first_with_id st (r_to rel) (d_elements d)).
Qed.

(** C10, as the code has it: when no identifier, name or type of an element
    of a stored diagram and no end or description of one of its
    relationships holds a newline, the lines of its export in the [dot]
    format are the three header lines, then one line per element of the
    diagram, in order, then one line per relationship of the diagram, in
    order, whatever its ends are, then the closing line; the renderer
    instead keeps only the relationships both ends of which are identifiers
    of elements of the diagram. *)
Theorem export_dot_one_line_each model_dump_json st diagram_id diagram :
  odict.get diagram_id (diagrams st) = Some diagram ->
  let els := observed st diagram in
  let rels := d_relationships (diagram_at st diagram) in
  let q := String "034"%char EmptyString in
  let shown id := existsb (fun e => String.eqb (e_id e) id) els in
  Forall (fun e => one_line (e_id e) && one_line (e_name e)
                   && one_line (e_type e) = true) els ->
  Forall (fun rel => one_line (r_from rel) && one_line (r_to rel)
                     && one_line (r_description rel) = true) rels ->
  split "010"%char (export_diagram model_dump_json st diagram_id "dot") =
    ["digraph G {"; "  rankdir=TB;";
     "  node [shape=box, style=filled, fillcolor=lightblue];"]
    ++ map (fun e => "  " +:+ q +:+ e_id e +:+ q +:+ " [label=" +:+ q
                     +:+ e_name e +:+ "\n" +:+ e_type e +:+ q +:+ "];") els
    ++ map (fun rel => "  " +:+ q +:+ r_from rel +:+ q +:+ " -> " +:+ q
                       +:+ r_to rel +:+ q +:+ " [label=" +:+ q
                       +:+ r_description rel +:+ q +:+ "];") rels
    ++ ["}"] /\
  length (split "010"%char (export_diagram model_dump_json st diagram_id "dot"))
    = 3 + length els + length rels + 1 /\
  edge_text st diagram =
    map r_description
      (List.filter (fun rel => shown (r_from rel) && shown (r_to rel)) rels).
Proof.
  intros Hget els rels q shown Hels Hrels.
  assert (split "010"%char (export_diagram model_dump_json st diagram_id "dot") =
          ["digraph G {"; "  rankdir=TB;";
           "  node [shape=box, style=filled, fillcolor=lightblue];"]
          ++ map (fun e => "  " +:+ q +:+ e_id e +:+ q +:+ " [label=" +:+ q
                           +:+ e_name e +:+ "\n" +:+ e_type e +:+ q +:+ "];") els
          ++ map (fun rel => "  " +:+ q +:+ r_from rel +:+ q +:+ " -> " +:+ q
                             +:+ r_to rel +:+ q +:+ " [label=" +:+ q
                             +:+ r_description rel +:+ q +:+ "];") rels
          ++ ["}"]) as Hlines.
  { unfold export_diagram, _generate_dot_format.
    rewrite Hget. cbn [String.eqb Ascii.eqb Bool.eqb].
    rewrite dot_lines_eq. fold rels.
    rewrite <- (map_map (element_at st) node_line). fold (observed st diagram).
    fold els. apply split_concat_lines; [done|].
    repeat (apply Forall_app; split).
    - by repeat constructor.
    - apply Forall_fmap. eapply Forall_impl; [exact Hels|].
      intros e [[Hi Hn]%andb_prop Ht]%andb_prop. simpl.
      unfold node_line. rewrite !one_line_app, Hi, Hn, Ht. reflexivity.
    - apply Forall_fmap. eapply Forall_impl; [exact Hrels|].
      intros rel [[Hf Ht]%andb_prop Hd]%andb_prop. simpl.
      unfold edge_line. rewrite !one_line_app, Hf, Ht, Hd. reflexivity.
    - by repeat constructor. }
  split; [exact Hlines|]. split.
  - rewrite Hlines, !length_app, !length_map. simpl. lia.
  - unfold edge_text. cbv zeta. rewrite edge_loop_eq. cbn [app]. f_equal.
    apply List.filter_ext. intros rel. apply ends_shown_eq.
Qed.

Lemma export_dot_one_line_each_witness :
  let q := String "034"%char EmptyString in
  odict.get "uuid-1" (diagrams payments_dangling) = Some 1 /\
  split "010"%char (export_diagram (fun _ _ => "none") payments_dangling "uuid-1" "dot") =
    ["digraph G {"; "  rankdir=TB;";
     "  node [shape=box, style=filled, fillcolor=lightblue];";
     "  " +:+ q +:+ "uuid-0_system" +:+ q +:+ " [label=" +:+ q
       +:+ "Payments\nSystem" +:+ q +:+ "];";
     "  " +:+ q +:+ "uuid-2" +:+ q +:+ " [label=" +:+ q
       +:+ "API\nContainer" +:+ q +:+ "];";
     "  " +:+ q +:+ "uuid-4" +:+ q +:+ " [label=" +:+ q
       +:+ "Worker\nContainer" +:+ q +:+ "];";
     "  " +:+ q +:+ "uuid-2" +:+ q +:+ " -> " +:+ q +:+ "uuid-0_system" +:+ q
       +:+ " [label=" +:+ q +:+ "deployed on" +:+ q +:+ "];";
     "  " +:+ q +:+ "uuid-4" +:+ q +:+ " -> " +:+ q +:+ "uuid-0_system" +:+ q
       +:+ " [label=" +:+ q +:+ "deployed on" +:+ q +:+ "];";
     "  " +:+ q +:+ "uuid-2" +:+ q +:+ " -> " +:+ q +:+ "elsewhere" +:+ q
       +:+ " [label=" +:+ q +:+ "calls" +:+ q +:+ "];";
     "}"] /\
  edge_text payments_dangling 1 = ["deployed on"; "deployed on"].
Proof.
  intros q.
  assert (odict.get "uuid-1" (diagrams payments_dangling) = Some 1) as Hget
    by (vm_compute; reflexivity).
  destruct (export_dot_one_line_each (fun _ _ => "none") payments_dangling
              "uuid-1" 1 Hget) as (Hlines & _ & Htext).
  { vm_compute. by repeat constructor. }
  { vm_compute. by repeat constructor. }
  split; [exact Hget|]. split.
  - rewrite Hlines. vm_compute. reflexivity.
  - rewrite Htext. vm_compute. reflexivity.
Defined.

(** C10, as stated, fails for a relationship whose description holds a
    newline: the diagram has three elements and three relationships, and the
    export has eleven lines, two of them for the last relationship. *)
Lemma export_dot_more_lines :
  let q := String "034"%char EmptyString in
  let text := export_diagram (fun _ _ => "none") payments_two_lines "uuid-1" "dot" in
  length (observed payments_two_lines 1) = 3 /\
  length (d_relationships (diagram_at payments_two_lines 1)) = 3 /\
  length (split "010"%char text) = 3 + 3 + 3 + 1 + 1 /\
  skipn 8 (split "010"%char text) =
    ["  " +:+ q +:+ "uuid-2" +:+ q +:+ " -> " +:+ q +:+ "uuid-4" +:+ q
       +:+ " [label=" +:+ q +:+ "calls";
     "twice" +:+ q +:+ "];";
     "}"].
Proof. vm_compute. by repeat split. Qed.

(** ** Navigation *)

Lemma omap_nil_iff {A B} (f : A -> option B) (l : list A) :
  omap f l = [] <-> forall x, x ∈ l -> f x = None.
Proof.
  induction l as [|a l IH]; simpl.
  - split; [|done]. intros _ x Hx. by apply elem_of_nil in Hx.
  - destruct (f a) eqn:Hfa.
    + split; [done|]. intros H. specialize (H a). rewrite Hfa in H.
      discriminate H. apply elem_of_cons. by left.
    + rewrite IH. split.
      * intros H x [->|Hx]%elem_of_cons; [done|by apply H].
      * intros H x Hx. apply H, elem_of_cons. by right.
Qed.

(** The level of a diagram built by [drill_down]: the next one, and
    [CODE] again from [CODE]. *)
Lemma _get_next_level_eq l :
  _get_next_level l =
  match l with
  | CONTEXT => CONTAINER
  | CONTAINER => COMPONENT
  | COMPONENT => CODE
  | CODE => CODE
  end.
Proof. by destruct l. Qed.

(** The ways [drill_down] ends. *)
Lemma drill_down_missing st element_id :
  elements st !! element_id = None ->
  drill_down element_id st = (st, Return None).
Proof. intros H. unfold drill_down. run_state. by rewrite H. Qed.

Lemma drill_down_leaf st element_id element :
  elements st !! element_id = Some element ->
  e_children (element_at st element) = [] ->
  drill_down element_id st = (st, Return None).
Proof. intros H Hc. unfold drill_down. run_state. by rewrite H, Hc. Qed.

Lemma drill_down_reuse st element_id element diagram :
  elements st !! element_id = Some element ->
  e_children (element_at st element) <> [] ->
  find (shows_first st element_id) (odict.values (diagrams st)) = Some diagram ->
  drill_down element_id st = (st, Return (Some diagram)).
Proof.
  intros H Hc Hfind. unfold drill_down. run_state. rewrite H.
  destruct (e_children (element_at st element)); [done|].
  by rewrite Hfind.
Qed.

Lemma drill_down_unknown_children st element_id element :
  elements st !! element_id = Some element ->
  find (shows_first st element_id) (odict.values (diagrams st)) = None ->
  omap (fun c => elements st !! c) (e_children (element_at st element)) = [] ->
  drill_down element_id st = (st, Return None).
Proof.
  intros H Hfind Hknown. unfold drill_down. run_state. rewrite H.
  destruct (e_children (element_at st element)); [done|].
  by rewrite Hfind, Hknown.
Qed.

Lemma drill_down_build st element_id element :
  elements st !! element_id = Some element ->
  e_children (element_at st element) <> [] ->
  find (shows_first st element_id) (odict.values (diagrams st)) = None ->
  omap (fun c => elements st !! c) (e_children (element_at st element)) <> [] ->
  drill_down element_id st =
  (mkState
     (odict.set (uuid_str (uuid_drawn st)) (length (diagram_objs st)) (diagrams st))
     (elements st) (element_objs st)
     (diagram_objs st ++
        [mkDiagram (uuid_str (uuid_drawn st))
           (e_name (element_at st element) +:+ " - Details")
           (_get_next_level (e_level (element_at st element)))
           (element ::
              omap (fun c => elements st !! c) (e_children (element_at st element)))
           [] (clock st) (S (clock st))])
     (S (uuid_drawn st)) (S (S (clock st))),
   Return (Some (length (diagram_objs st)))).
Proof.
  intros H Hc Hfind Hknown. unfold drill_down. run_state. rewrite H.
  destruct (e_children (element_at st element)) eqn:Ec; [done|].
  rewrite Hfind.
  destruct (omap _ (_ :: _)) eqn:Ek; [done|].
  erewrite diagram_at_new by reflexivity. reflexivity.
Qed.

(** C5, as the code has it: [drill_down] never raises; it returns [None]
    exactly when the element is not stored, or lists no child, or is shown
    first by no stored diagram while none of the children it lists is
    stored.  In every other case it returns a diagram: the first stored
    diagram that shows the element first when there is one, and otherwise a
    new diagram of the element followed by those of its listed children that
    are stored, the others being skipped. *)
Theorem drill_down_none_iff st element_id :
  exists result,
    (drill_down element_id st).2 = Return result /\
    (result = None <->
       match elements st !! element_id with
       | None => True
       | Some element =>
           e_children (element_at st element) = [] \/
           (find (shows_first st element_id) (odict.values (diagrams st)) = None /\
            forall c, c ∈ e_children (element_at st element) ->
                      elements st !! c = None)
       end) /\
    (forall diagram, result = Some diagram ->
       exists element, elements st !! element_id = Some element /\
         (find (shows_first st element_id) (odict.values (diagrams st))
            = Some diagram /\ (drill_down element_id st).1 = st
          \/
          find (shows_first st element_id) (odict.values (diagrams st)) = None /\
          diagram = length (diagram_objs st) /\
          d_elements (diagram_at (drill_down element_id st).1 diagram) =
            element :: omap (fun c => elements st !! c)
                         (e_children (element_at st element)))).
Proof.
  destruct (elements st !! element_id) as [element|] eqn:Hget.
  2: { rewrite drill_down_missing by done. exists None. by repeat split. }
  destruct (decide (e_children (element_at st element) = [])) as [Hc|Hc].
  { erewrite drill_down_leaf by done. exists None.
    split; [done|]. split; [|done]. split; [intros _; by left|done]. }
  destruct (find (shows_first st element_id) (odict.values (diagrams st)))
    as [diagram|] eqn:Hfind.
  { erewrite drill_down_reuse by done. exists (Some diagram).
    split; [done|]. split; [split; [done|intros [?|[? _]]; congruence]|].
    intros ? [= <-]. exists element. split; [done|]. by left. }
  destruct (decide (omap (fun c => elements st !! c)
                      (e_children (element_at st element)) = [])) as [Hk|Hk].
  { erewrite drill_down_unknown_children by done. exists None.
    split; [done|]. split; [|done]. split; [intros _|done].
    right. split; [done|]. by apply omap_nil_iff. }
  erewrite drill_down_build by done. eexists. split; [reflexivity|].
  split.
  - split; [done|]. intros [?|[_ Hnone]]; [done|].
    by apply omap_nil_iff in Hnone.
  - intros ? [= <-]. exists element. split; [done|]. right.
    split; [done|]. split; [done|]. cbn [fst].
    by erewrite diagram_at_new by reflexivity.
Qed.

(** C5, as stated, fails on a store whose element lists only children that
    are not stored: the element exists, its [children] is not empty, and
    [drill_down] returns [None]. *)
Lemma drill_down_none_despite_children :
  ~ ((drill_down "S" orphaned).2 = Return None <->
     (lookup_element orphaned "S" = None \/
      exists e, lookup_element orphaned "S" = Some e /\ e_children e = [])).
Proof.
  intros [Hnone _].
  destruct Hnone as [H|(e & H & Hc)]; [by vm_compute| |].
  - vm_compute in H. discriminate.
  - vm_compute in H. injection H as <-. discriminate.
Qed.

(** C1, on the code: in the Payments scenario the drill-down into the system
    returns the context diagram, which is the first stored diagram that
    shows the system first, and not the container diagram built after it. *)
Theorem drill_down_payments_returns_context_diagram description :
  exists st context containers,
    payments description init = (st, Return (context, containers, Some context)) /\
    context <> containers /\
    d_name (diagram_at st context) = "Payments - Context" /\
    d_level (diagram_at st context) = CONTEXT /\
    d_name (diagram_at st containers) = "Payments - Containers" /\
    length (d_elements (diagram_at st containers)) = 3.
Proof.
  eexists _, 0, 1. split; [vm_compute; reflexivity|].
  split; [done|]. by vm_compute.
Qed.

(** ** Building a diagram of children *)

Lemma length_ids_from u n : length (ids_from u n) = n.
Proof. revert u. induction n as [|n IH]; intros u; simpl; [done|]. by rewrite IH. Qed.

Lemma with_children_cons c cs e :
  with_children cs (with_children [c] e) = with_children (c :: cs) e.
Proof. unfold with_children. simpl. by rewrite <- app_assoc. Qed.

(** The whole loop, written out, when the parent is an object that exists:
    the parent gets the identifiers of the children, in order, and the
    children are the next objects constructed, in order. *)
Lemma add_children_run type level description parent_id parent infos :
  forall acc st, parent < length (element_objs st) ->
  exists st',
    for_each infos (add_child type level description parent_id parent) acc st =
    (st',
     Return (acc.1 ++ seq (length (element_objs st)) (length infos),
             acc.2 ++ zip_with (implicit_relationship description parent_id)
                        (ids_from (S (uuid_drawn st)) (length infos))
                        (ids_from (uuid_drawn st) (length infos)))) /\
    element_objs st' =
      alter (with_children (ids_from (uuid_drawn st) (length infos))) parent
        (element_objs st)
      ++ zip_with (element_of type level parent_id)
           (ids_from (uuid_drawn st) (length infos)) infos /\
    diagrams st' = diagrams st /\
    diagram_objs st' = diagram_objs st /\
    clock st' = clock st /\
    uuid_drawn st' = uuid_drawn st + 2 * length infos.
Proof.
  induction infos as [|info infos IH]; intros acc st Hparent.
  - exists st. simpl. rewrite !app_nil_r. split; [by destruct acc|].
    split; [|by auto with lia].
    symmetry. apply list_alter_id. intros e. unfold with_children.
    rewrite app_nil_r. by destruct e.
  - simpl for_each. rewrite bind_run, add_child_run.
    edestruct IH as (st' & -> & Hobjs & Hd & Hdo & Hc & Hu).
    { cbn [element_objs]. rewrite length_alter, length_app. lia. }
    exists st'. cbn [element_objs uuid_drawn diagrams diagram_objs clock fst snd]
      in *.
    rewrite length_alter, length_app, Nat.add_1_r.
    split; [|split; [|simpl; repeat split; solve [done | lia]]].
    + simpl. by rewrite <- !app_assoc.
    + rewrite Hobjs. simpl.
      rewrite (alter_app_l _ _ _ _ Hparent).
      rewrite alter_app_l by (by rewrite length_alter).
      rewrite list_alter_alter_eq, <- app_assoc. simpl. f_equal.
      apply list_alter_ext; [|done]. intros e _. apply with_children_cons.
Qed.

Lemma create_child_diagram_run what type level description suffix
    parent_id infos st parent e :
  elements st !! parent_id = Some parent ->
  element_objs st !! parent = Some e ->
  let ids := ids_from (S (uuid_drawn st)) (length infos) in
  let relationship_ids := ids_from (S (S (uuid_drawn st))) (length infos) in
  exists st',
    create_child_diagram what type level description suffix parent_id infos st =
      (st', Return (length (diagram_objs st))) /\
    diagram_objs st' =
      diagram_objs st ++
      [mkDiagram (uuid_str (uuid_drawn st)) (e_name e +:+ suffix) level
         (parent :: seq (length (element_objs st)) (length infos))
         (zip_with (implicit_relationship description parent_id)
            relationship_ids ids)
         (clock st) (S (clock st))] /\
    element_objs st' =
      <[parent := with_children ids e]> (element_objs st)
      ++ zip_with (element_of type level parent_id) ids infos /\
    diagrams st' =
      odict.set (uuid_str (uuid_drawn st)) (length (diagram_objs st)) (diagrams st).
Proof.
  intros Hget He ids relationship_ids.
  pose proof (lookup_lt_Some _ _ _ He) as Hlt.
  unfold create_child_diagram. run_state. rewrite Hget.
  edestruct (add_children_run type level description parent_id parent infos)
    as (st1 & -> & Hobjs & Hd & Hdo & Hc & Hu); [exact Hlt|].
  cbn [element_objs uuid_drawn diagrams diagram_objs clock fst snd] in *.
  assert (element_objs st1 =
          <[parent:=with_children ids e]> (element_objs st)
          ++ zip_with (element_of type level parent_id) ids infos) as Hobjs'.
  { rewrite Hobjs. f_equal. apply list_eq. intros j.
    destruct (decide (parent = j)) as [<-|Hne].
    - rewrite list_lookup_alter_eq, He. simpl.
      by rewrite list_lookup_insert_eq.
    - by rewrite list_lookup_alter_ne, list_lookup_insert_ne. }
  assert (e_name (element_at st1 parent) = e_name e) as Hname.
  { unfold element_at. rewrite Hobjs'.
    rewrite lookup_app_l by (by rewrite length_insert).
    by rewrite list_lookup_insert_eq. }
  rewrite Hname, Hd, Hdo, Hc. eexists. split; [reflexivity|].
  cbn [element_objs uuid_drawn diagrams diagram_objs clock fst snd].
  by repeat split.
Qed.

Lemma read_new_objects {A} (dflt : A) (l news : list A) :
  map (fun r => default dflt ((l ++ news) !! r)) (seq (length l) (length news))
  = news.
Proof.
  revert l. induction news as [|x news IH]; intros l; [done|].
  simpl. rewrite list_lookup_middle by done. simpl. f_equal.
  specialize (IH (l ++ [x])).
  rewrite <- app_assoc, length_app, Nat.add_1_r in IH. exact IH.
Qed.

(** C3: for a system stored under [system_id],
    [create_container_diagram] returns a new diagram of the Container level
    whose elements are the system followed by one new element of type
    Container and level Container per specification, in the order of the
    specifications, and whose relationships are one [deployed on]
    relationship per new container, from the container to [system_id], in
    the same order; the [children] of the system are those it had followed
    by the identifiers of the new containers, in the same order. *)
Theorem create_container_diagram_spec st system_id containers system parent :
  elements st !! system_id = Some system ->
  element_objs st !! system = Some parent ->
  let ids := ids_from (S (uuid_drawn st)) (length containers) in
  let relationship_ids := ids_from (S (S (uuid_drawn st))) (length containers) in
  exists st' diagram d,
    create_container_diagram system_id (map spec_dict containers) st
      = (st', Return diagram) /\
    diagram_objs st !! diagram = None /\
    diagram_objs st' !! diagram = Some d /\
    d_level d = CONTAINER /\
    d_elements d = system :: seq (length (element_objs st)) (length containers) /\
    map (element_at st') (d_elements d) =
      with_children ids parent
      :: zip_with (child_element "Container" CONTAINER system_id) ids containers /\
    d_relationships d =
      zip_with (fun relationship_id container_id =>
                  mkRelationship relationship_id container_id system_id
                    "deployed on" "")
        relationship_ids ids /\
    e_children (element_at st' system) = e_children parent ++ ids /\
    length ids = length containers /\
    length relationship_ids = length containers.
Proof.
  intros Hget Hparent ids relationship_ids.
  pose proof (lookup_lt_Some _ _ _ Hparent) as Hlt.
  rewrite create_container_diagram_run, read_spec_dicts, Hget. cbn [fst snd].
  destruct (create_child_diagram_run "System" "Container" CONTAINER
              "deployed on" " - Containers" system_id (map fields_of containers)
              st system parent Hget Hparent) as (st' & Hrun & Hdiagrams & Hobjs & _).
  rewrite length_map in Hdiagrams, Hobjs. rewrite child_element_fields in Hobjs.
  fold ids relationship_ids in Hdiagrams, Hobjs.
  assert (element_at st' system = with_children ids parent) as Hsystem.
  { unfold element_at. rewrite Hobjs.
    rewrite lookup_app_l by (by rewrite length_insert).
    by rewrite list_lookup_insert_eq. }
  eexists st', _, _. split; [exact Hrun|].
  split; [by apply lookup_ge_None_2|].
  split; [by rewrite Hdiagrams, list_lookup_middle|].
  cbn [d_level d_elements d_relationships].
  split; [done|]. split; [done|]. split.
  - cbn [map]. rewrite Hsystem. f_equal.
    unfold element_at. rewrite Hobjs.
    rewrite <- (length_insert (element_objs st) system (with_children ids parent)).
    replace (length containers) with
      (length (zip_with (child_element "Container" CONTAINER system_id)
                 ids containers)).
    + apply read_new_objects.
    + rewrite length_zip_with. unfold ids. rewrite length_ids_from. lia.
  - split; [done|]. rewrite Hsystem.
    unfold ids, relationship_ids. by rewrite !length_ids_from.
Qed.

Lemma create_container_diagram_spec_witness :
  exists st' diagram d,
    create_container_diagram "uuid-0_system" (map spec_dict api_and_worker)
      payments_context = (st', Return diagram) /\
    diagram_objs st' !! diagram = Some d /\
    map e_name (map (element_at st') (d_elements d)) = ["Payments"; "API"; "Worker"] /\
    map r_description (d_relationships d) = ["deployed on"; "deployed on"] /\
    map r_to (d_relationships d) = ["uuid-0_system"; "uuid-0_system"] /\
    e_children (element_at st' 0) = ["uuid-2"; "uuid-4"].
Proof.
  destruct (create_container_diagram_spec payments_context "uuid-0_system"
              api_and_worker 0
              (mkElement "uuid-0_system" "Payments" "System" CONTEXT
                 "handles billing" (Some "") [] [] None []))
    as (st' & diagram & d & Hrun & _ & Hd & _ & _ & Hels & Hrels & Hch & _).
  - reflexivity.
  - reflexivity.
  - exists st', diagram, d.
    rewrite Hels, Hrels, Hch. repeat split; assumption || reflexivity.
Defined.

(** ** What later calls keep of the objects *)

Lemma element_grown_refl e : element_grown e e.
Proof. by split. Qed.

Lemma element_grown_trans e1 e2 e3 :
  element_grown e1 e2 -> element_grown e2 e3 -> element_grown e1 e3.
Proof. intros [H1 P1] [H2 P2]. split; [congruence|by etrans]. Qed.

Lemma element_grown_with_children cs e : element_grown e (with_children cs e).
Proof. split; [done|]. by apply prefix_app_r. Qed.

#[global] Instance objects_grown_preorder : PreOrder objects_grown.
Proof.
  split.
  - intros st. split.
    + intros r e He. exists e. auto using element_grown_refl.
    + intros r d Hd. exists d. by repeat split.
  - intros st1 st2 st3 [E12 D12] [E23 D23]. split.
    + intros r e He. destruct (E12 r e He) as (e2 & He2 & G12).
      destruct (E23 r e2 He2) as (e3 & He3 & G23).
      exists e3. eauto using element_grown_trans.
    + intros r d Hd.
      destruct (D12 r d Hd) as (d2 & Hd2 & ? & ? & ? & ? & ? & ?).
      destruct (D23 r d2 Hd2) as (d3 & Hd3 & ? & ? & ? & ? & ? & ?).
      exists d3. repeat split; try congruence. by etrans.
Qed.

Section Steps.
Context (R : relation State) `{!PreOrder R}.

Lemma steps_ret {A} (a : A) : steps_to R (mret a).
Proof. intros st. reflexivity. Qed.

Lemma steps_raise {A} e : steps_to R (@raise A e).
Proof. intros st. reflexivity. Qed.

Lemma steps_bind {A B} (m : M A) (f : A -> M B) :
  steps_to R m -> (forall a, steps_to R (f a)) -> steps_to R (m ≫= f).
Proof.
  intros Hm Hf st. rewrite bind_run. specialize (Hm st).
  destruct (m st) as [st' [a|e]]; [|done].
  etrans; [exact Hm|]. apply Hf.
Qed.

Lemma steps_for_each {A B} (body : A -> B -> M B) xs acc :
  (forall x a, steps_to R (body x a)) -> steps_to R (for_each xs body acc).
Proof.
  intros Hbody. revert acc. induction xs as [|x xs IH]; intros acc.
  - apply steps_ret.
  - simpl. apply steps_bind; [apply Hbody|apply IH].
Qed.
End Steps.

(** A step that leaves the two heaps as they are. *)
Lemma same_objects_grown st st' :
  element_objs st' = element_objs st -> diagram_objs st' = diagram_objs st ->
  objects_grown st st'.
Proof.
  intros He Hd. split.
  - intros r e Hr. exists e. rewrite He. auto using element_grown_refl.
  - intros r d Hr. exists d. rewrite Hd. by repeat split.
Qed.

Lemma new_element_grown e : steps_to objects_grown (new_element e).
Proof.
  intros st. split; cbn.
  - intros r x Hr. exists x. split; [by apply lookup_app_l_Some|].
    apply element_grown_refl.
  - intros r d Hr. exists d. by repeat split.
Qed.

Lemma new_diagram_grown d : steps_to objects_grown (new_diagram d).
Proof.
  intros st. split; cbn.
  - intros r x Hr. exists x. auto using element_grown_refl.
  - intros r x Hr. exists x. split; [by apply lookup_app_l_Some|].
    by repeat split.
Qed.

Lemma children_append_grown r c : steps_to objects_grown (children_append r c).
Proof.
  intros st. split; cbn.
  - intros j e Hj. rewrite list_lookup_alter. case_decide as Hrj.
    + subst j. rewrite Hj. eexists. split; [reflexivity|].
      apply (element_grown_with_children [c]).
    + exists e. auto using element_grown_refl.
  - intros j d Hj. exists d. by repeat split.
Qed.

Lemma relationships_append_grown r rel :
  steps_to objects_grown (relationships_append r rel).
Proof.
  intros st. split; cbn.
  - intros j e Hj. exists e. auto using element_grown_refl.
  - intros j d Hj. rewrite list_lookup_alter. case_decide as Hrj.
    + subst j. rewrite Hj. eexists. split; [reflexivity|].
      repeat split. by apply prefix_app_r.
    + exists d. by repeat split.
Qed.

Lemma updated_at_set_grown r t : steps_to objects_grown (updated_at_set r t).
Proof.
  intros st. split; cbn.
  - intros j e Hj. exists e. auto using element_grown_refl.
  - intros j d Hj. rewrite list_lookup_alter. case_decide as Hrj.
    + subst j. rewrite Hj. eexists. split; [reflexivity|]. by repeat split.
    + exists d. by repeat split.
Qed.

Lemma reads_grown {A} (f : State -> A) :
  steps_to objects_grown (fun st => (st, Return (f st))).
Proof. intros st. reflexivity. Qed.

Lemma uuid4_grown : steps_to objects_grown uuid4.
Proof. intros st. by apply same_objects_grown. Qed.

Lemma now_grown : steps_to objects_grown now.
Proof. intros st. by apply same_objects_grown. Qed.

Lemma elements_set_grown k r : steps_to objects_grown (elements_set k r).
Proof. intros st. by apply same_objects_grown. Qed.

Lemma diagrams_set_grown k r : steps_to objects_grown (diagrams_set k r).
Proof. intros st. by apply same_objects_grown. Qed.

Lemma item_grown key info : steps_to objects_grown (item key info).
Proof. intros st. unfold item. by destruct (odict.get key info). Qed.

Lemma C4Element_new_grown id name type level description technology properties
    parent_id :
  steps_to objects_grown
    (C4Element_new id name type level description technology properties
       parent_id).
Proof.
  intros st. rewrite (validated_read type level parent_id id).
  destruct (not_str "name" name ++ _); [apply new_element_grown|reflexivity].
Qed.

Create HintDb grown discriminated.
#[global] Hint Resolve new_element_grown new_diagram_grown children_append_grown
  relationships_append_grown updated_at_set_grown uuid4_grown now_grown
  elements_set_grown diagrams_set_grown item_grown C4Element_new_grown : grown.

(** Goes through a computation, bind by bind. *)
Ltac steps :=
  repeat match goal with
    | |- PreOrder _ => apply _
    | |- steps_to _ (mbind _ _) => apply steps_bind; [| |intros ?]
    | |- steps_to _ (mret _) => apply steps_ret
    | |- steps_to _ (raise _) => apply steps_raise
    | |- steps_to _ (for_each _ _ _) => apply steps_for_each; [|intros ? ?]
    | |- steps_to _ (match ?x with _ => _ end) => destruct x
    | |- steps_to _ (get_element _) => apply reads_grown
    | |- steps_to _ (get_diagram _) => apply reads_grown
    | |- steps_to _ (elements_get _) => apply reads_grown
    | |- steps_to _ (diagrams_get _) => apply reads_grown
    | |- steps_to _ (find_existing _) => apply reads_grown
    | |- steps_to _ (known_children _) => apply reads_grown
    | |- steps_to _ _ => solve [auto with grown]
    end.

Lemma create_context_diagram_grown n d :
  steps_to objects_grown (create_context_diagram n d).
Proof. unfold create_context_diagram. steps. Qed.

Lemma create_container_diagram_grown i cs :
  steps_to objects_grown (create_container_diagram i cs).
Proof. unfold create_container_diagram, add_container. steps. Qed.

Lemma create_component_diagram_grown i cs :
  steps_to objects_grown (create_component_diagram i cs).
Proof. unfold create_component_diagram, add_component. steps. Qed.

Lemma add_relationship_grown d f t ds te :
  steps_to objects_grown (add_relationship d f t ds te).
Proof. unfold add_relationship. steps. Qed.

Lemma drill_down_grown i : steps_to objects_grown (drill_down i).
Proof. unfold drill_down. steps. Qed.

Lemma exec_grown c st : objects_grown st (exec c st).
Proof.
  destruct c; simpl.
  - apply create_context_diagram_grown.
  - apply create_container_diagram_grown.
  - apply create_component_diagram_grown.
  - apply add_relationship_grown.
  - apply drill_down_grown.
Qed.

Lemma run_grown calls st : objects_grown st (run calls st).
Proof.
  revert st. induction calls as [|c calls IH]; intros st; [reflexivity|].
  simpl. etrans; [apply exec_grown|apply IH].
Qed.




(** ** Consistency of the stores *)

Lemma store_ok_init : store_ok init.
Proof.
  split; cbn.
  - intros k r H. by rewrite lookup_empty in H.
  - intros n _. by rewrite !lookup_empty.
  - intros r H. by apply elem_of_nil in H.
Qed.

(** A step that leaves the Element Store and its objects as they are. *)
Lemma store_ok_frame st st' :
  store_ok st ->
  elements st' = elements st -> element_objs st' = element_objs st ->
  uuid_drawn st <= uuid_drawn st' ->
  (forall r, r ∈ odict.values (diagrams st') -> r < length (diagram_objs st')) ->
  store_ok st'.
Proof.
  intros [K F D] He Ho Hu Hd. split; [| |done].
  - rewrite He, Ho. exact K.
  - intros n Hn. rewrite He. apply F. lia.
Qed.

Lemma uuid_str_ne n m : n <> m -> uuid_str n <> uuid_str m.
Proof. intros Hne H. by apply uuid_str_inj in H. Qed.

Lemma system_id_ne n m :
  n <> m -> uuid_str n +:+ "_system" <> uuid_str m +:+ "_system".
Proof. intros Hne H. by apply system_id_inj in H. Qed.

Lemma system_id_not_uuid n m : uuid_str n +:+ "_system" <> uuid_str m.
Proof. intros H. symmetry in H. by apply uuid_str_not_system in H. Qed.

Lemma store_ok_create_context_diagram n d st :
  store_ok st -> store_ok (create_context_diagram n d st).1.
Proof.
  intros [K F D]. rewrite create_context_diagram_run.
  split; cbn [fst elements element_objs diagrams diagram_objs uuid_drawn].
  - intros k r. rewrite lookup_insert. case_decide as Hk.
    + intros [= <-]. subst k. eexists. split; [by apply list_lookup_middle|done].
    + intros Hr. destruct (K k r Hr) as (e & He & Hid).
      exists e. split; [by apply lookup_app_l_Some|done].
  - intros m Hm.
    rewrite lookup_insert_ne by apply system_id_not_uuid.
    rewrite lookup_insert_ne by (apply system_id_ne; lia).
    apply F. lia.
  - intros r [->|Hr]%odict_values_set; rewrite length_app; simpl; [lia|].
    specialize (D r Hr). lia.
Qed.

Lemma store_ok_add_child type level description pid p info acc st :
  store_ok st -> elements st !! pid = Some p ->
  store_ok (add_child type level description pid p info acc st).1 /\
  elements (add_child type level description pid p info acc st).1 !! pid = Some p.
Proof.
  intros [K F D] Hp. rewrite add_child_run.
  destruct (K pid p Hp) as (ep & Hep & Hid).
  pose proof (lookup_lt_Some _ _ _ Hep) as Hlt.
  assert (uuid_str (uuid_drawn st) <> pid) as Hne.
  { intros <-. destruct (F (uuid_drawn st)) as [HF _]; [lia|]. congruence. }
  split; [split|];
    cbn [fst elements element_objs diagrams diagram_objs uuid_drawn].
  - intros k r. rewrite lookup_insert. case_decide as Hk.
    + intros [= <-]. subst k. eexists. split.
      * rewrite list_lookup_alter_ne by lia. by apply list_lookup_middle.
      * reflexivity.
    + intros Hr. destruct (K k r Hr) as (e & He & Hide).
      rewrite list_lookup_alter. case_decide as Hpr.
      * subst r. rewrite (lookup_app_l_Some _ _ _ _ He).
        eexists. split; [reflexivity|exact Hide].
      * exists e. split; [by apply lookup_app_l_Some|done].
  - intros m Hm.
    rewrite lookup_insert_ne by (apply uuid_str_ne; lia).
    rewrite lookup_insert_ne by apply uuid_str_not_system.
    apply F. lia.
  - exact D.
  - by rewrite lookup_insert_ne.
Qed.

(** ** Parents and children *)

Lemma lookup_element_Some st k e :
  lookup_element st k = Some e <->
  exists r, elements st !! k = Some r /\ element_objs st !! r = Some e.
Proof.
  unfold lookup_element. destruct (elements st !! k) as [r|]; simpl.
  - split; [by exists r|]. by intros (? & [= <-] & ?).
  - split; [done|]. by intros (? & ? & ?).
Qed.

Lemma children_are_frame Q st st' :
  elements st' = elements st -> element_objs st' = element_objs st ->
  children_are Q st -> children_are Q st'.
Proof. unfold children_are, lookup_element. by intros -> ->. Qed.

Section AddChild.
Context (type : string) (level : C4Level) (description pid : string)
        (p : eref) (info : Fields) (acc : list eref * list Relationship)
        (st : State).
Context (Hok : store_ok st) (Hp : elements st !! pid = Some p).

Let st' := (add_child type level description pid p info acc st).1.
Let cid := uuid_str (uuid_drawn st).
Let child := element_of type level pid cid info.

Lemma add_child_new : lookup_element st' cid = Some child.
Proof.
  destruct Hok as [K F D]. destruct (K pid p Hp) as (ep & Hep & _).
  pose proof (lookup_lt_Some _ _ _ Hep) as Hlt.
  apply lookup_element_Some. exists (length (element_objs st)).
  subst st'. rewrite add_child_run. cbn [fst elements element_objs].
  split; [apply lookup_insert_eq|].
  rewrite list_lookup_alter_ne by lia. by apply list_lookup_middle.
Qed.

Lemma add_child_old k e :
  lookup_element st k = Some e ->
  exists e', lookup_element st' k = Some e' /\
    fixed_fields e' = fixed_fields e /\
    (e_children e' = e_children e \/
     k = pid /\ e_children e' = e_children e ++ [cid]).
Proof.
  destruct Hok as [K F D].
  intros (r & Hk & Hr)%lookup_element_Some.
  assert (cid <> k) as Hne.
  { intros <-. destruct (F (uuid_drawn st)) as [HF _]; [lia|].
    subst cid. congruence. }
  subst st'. rewrite add_child_run.
  destruct (decide (p = r)) as [<-|Hpr].
  - exists (with_children [cid] e). split; [|split; [done|]].
    + apply lookup_element_Some. exists p. cbn [fst elements element_objs].
      split; [by rewrite lookup_insert_ne|].
      by rewrite list_lookup_alter_eq, (lookup_app_l_Some _ _ _ _ Hr).
    + right. split; [|done].
      destruct (K k p Hk) as (e1 & He1 & <-).
      destruct (K pid p Hp) as (e2 & He2 & <-). congruence.
  - exists e. split; [|by auto].
    apply lookup_element_Some. exists r. cbn [fst elements element_objs].
    split; [by rewrite lookup_insert_ne|].
    rewrite list_lookup_alter_ne by done. by apply lookup_app_l_Some.
Qed.

Lemma add_child_inv k e' :
  lookup_element st' k = Some e' ->
  k = cid /\ e' = child \/
  exists e, lookup_element st k = Some e /\
    fixed_fields e' = fixed_fields e /\
    (e_children e' = e_children e \/
     k = pid /\ e_children e' = e_children e ++ [cid]).
Proof.
  intros Hk'. destruct (decide (k = cid)) as [->|Hne].
  - left. split; [done|]. rewrite add_child_new in Hk'. congruence.
  - right. destruct (lookup_element st k) as [e|] eqn:Hk.
    + destruct (add_child_old k e Hk) as (e1 & He1 & Hf & Hc).
      exists e. split; [done|]. rewrite He1 in Hk'.
      injection Hk' as <-. auto.
    + exfalso. apply lookup_element_Some in Hk' as (r & Hr & Hobj).
      subst st'. rewrite add_child_run in Hr, Hobj.
      cbn [fst elements element_objs] in Hr, Hobj.
      rewrite lookup_insert_ne in Hr by done.
      destruct Hok as [K F D]. destruct (K k r Hr) as (e & He & _).
      unfold lookup_element in Hk. rewrite Hr in Hk. simpl in Hk. congruence.
Qed.

Lemma children_are_add_child Q :
  stable Q -> children_are Q st ->
  (forall ep, lookup_element st pid = Some ep -> Q ep child) ->
  children_are Q st'.
Proof.
  intros HQ Hst Hnew k e' c Hk' Hc.
  assert (forall e, lookup_element st k = Some e ->
            fixed_fields e' = fixed_fields e -> c ∈ e_children e ->
            exists ce, lookup_element st' c = Some ce /\ Q e' ce) as Hold.
  { intros e Hk Hf Hce. destruct (Hst k e c Hk Hce) as (ce & Hcq & Hq).
    destruct (add_child_old c ce Hcq) as (ce' & Hce' & Hfc & _).
    exists ce'. split; [done|]. by apply (HQ e e' ce ce'). }
  destruct (add_child_inv k e' Hk') as [[-> ->]|(e & Hk & Hf & Hch)].
  { by apply elem_of_nil in Hc. }
  destruct Hch as [Hch|[-> Hch]]; rewrite Hch in Hc.
  { by apply (Hold e). }
  apply elem_of_app in Hc as [Hc|Hc%list_elem_of_singleton].
  { by apply (Hold e). }
  subst c. exists child. split; [apply add_child_new|].
  apply (HQ e e' child child); [done|done|]. by apply Hnew.
Qed.
End AddChild.

Lemma children_are_create_context_diagram Q n d st :
  store_ok st -> children_are Q st ->
  children_are Q (create_context_diagram n d st).1.
Proof.
  intros [K F D] HQ k e c Hk Hc. rewrite create_context_diagram_run in *.
  apply lookup_element_Some in Hk as (r & Hr & Hobj).
  cbn [fst elements element_objs] in *.
  rewrite lookup_insert in Hr. case_decide as Hk.
  - injection Hr as <-. rewrite list_lookup_middle in Hobj by done.
    injection Hobj as <-. by apply elem_of_nil in Hc.
  - destruct (K k r Hr) as (e0 & He0 & _).
    rewrite (lookup_app_l_Some _ _ _ _ He0) in Hobj. injection Hobj as <-.
    destruct (HQ k e0 c) as (ce & Hce & Hq); [|done|].
    { apply lookup_element_Some. eauto. }
    exists ce. split; [|done].
    apply lookup_element_Some in Hce as (rc & Hrc & Hoc).
    apply lookup_element_Some. exists rc.
    cbn [fst elements element_objs]. split.
    + rewrite lookup_insert_ne; [done|]. intros <-.
      destruct (F (uuid_drawn st)) as [_ HF]; [lia|]. congruence.
    + by apply lookup_app_l_Some.
Qed.

(** A step that may add a diagram and leaves the rest as it is. *)
Lemma store_ok_diagram_step st st' :
  store_ok st ->
  elements st' = elements st -> element_objs st' = element_objs st ->
  uuid_drawn st <= uuid_drawn st' ->
  (diagrams st' = diagrams st /\
   length (diagram_objs st') = length (diagram_objs st)
   \/ exists k d,
        diagrams st' = odict.set k (length (diagram_objs st)) (diagrams st) /\
        diagram_objs st' = diagram_objs st ++ [d]) ->
  store_ok st'.
Proof.
  intros Hok He Ho Hu Hd. apply (store_ok_frame st); try done.
  destruct Hok as [_ _ D].
  destruct Hd as [[-> ->]|(k & d & -> & ->)]; [done|].
  intros r [->|Hr]%odict_values_set; rewrite length_app; simpl; [lia|].
  specialize (D r Hr). lia.
Qed.

(** The loop of a builder keeps the stores consistent and the children
    related to their parents by [Q], when [Q] relates the parent to the
    children created under it. *)
Lemma add_children_inv Q type level description pid p ep0 infos :
  stable Q ->
  (forall ep cid info, fixed_fields ep = fixed_fields ep0 ->
     Q ep (element_of type level pid cid info)) ->
  forall acc st,
    store_ok st -> children_are Q st -> elements st !! pid = Some p ->
    (exists ep, lookup_element st pid = Some ep /\
                fixed_fields ep = fixed_fields ep0) ->
    let st' :=
      (for_each infos (add_child type level description pid p) acc st).1 in
    store_ok st' /\ children_are Q st' /\
    diagrams st' = diagrams st /\ diagram_objs st' = diagram_objs st /\
    uuid_drawn st <= uuid_drawn st'.
Proof.
  intros HQ Hnew. induction infos as [|info infos IH];
    intros acc st Hok Hch Hp (ep & Hep & Hfix) st'.
  { subst st'. simpl. auto. }
  subst st'. simpl for_each. rewrite bind_run.
  destruct (store_ok_add_child type level description pid p info acc st Hok Hp)
    as [Hok1 Hp1].
  pose proof (children_are_add_child type level description pid p info acc st
                Hok Hp Q HQ Hch) as Hch1.
  destruct (add_child_old type level description pid p info acc st Hok Hp
              pid ep Hep) as (ep1 & Hep1 & Hfix1 & _).
  pose proof (add_child_run type level description pid p info acc st) as Hrun.
  destruct (add_child type level description pid p info acc st)
    as [st1 [acc1|e]]; [|discriminate Hrun].
  cbn [fst] in *.
  destruct (IH acc1 st1 Hok1) as (Hok2 & Hch2 & Hd2 & Hdo2 & Hu2); try done.
  { apply Hch1. intros ep' Hep'. apply Hnew. congruence. }
  { exists ep1. split; [done|]. congruence. }
  injection Hrun as -> _.
  cbn [diagrams diagram_objs uuid_drawn] in *.
  do 4 (split; [done|]). lia.
Qed.

Lemma create_child_diagram_inv Q what type level description suffix pid infos st :
  stable Q -> store_ok st -> children_are Q st ->
  (forall ep0, lookup_element st pid = Some ep0 ->
     forall ep cid info, fixed_fields ep = fixed_fields ep0 ->
       Q ep (element_of type level pid cid info)) ->
  store_ok (create_child_diagram what type level description suffix pid infos st).1
  /\ children_are Q
       (create_child_diagram what type level description suffix pid infos st).1.
Proof.
  intros HQ Hok Hch Hnew. unfold create_child_diagram. run_state.
  set (st0 := mkState (diagrams st) (elements st) (element_objs st)
                (diagram_objs st) (S (uuid_drawn st)) (clock st)).
  assert (store_ok st0) as Hok0.
  { apply (store_ok_diagram_step st); cbn; auto. }
  assert (children_are Q st0) as Hch0 by (by apply (children_are_frame Q st)).
  destruct (elements st !! pid) as [p|] eqn:Hp; [|done].
  destruct (ok_keys st Hok pid p Hp) as (ep0 & Hep0 & _).
  assert (lookup_element st pid = Some ep0) as Hl
    by (apply lookup_element_Some; eauto).
  destruct (add_children_inv Q type level description pid p ep0 infos HQ
              (Hnew ep0 Hl) ([p], []) st0 Hok0 Hch0 Hp)
    as (Hok1 & Hch1 & Hd1 & Hdo1 & Hu1).
  { by exists ep0. }
  destruct (for_each infos _ _ st0) as [st1 [built|e]]; cbn [fst] in *; [|done].
  split.
  - apply (store_ok_diagram_step st1); cbn; eauto.
  - by apply (children_are_frame Q st1).
Qed.

(** [add_relationship] and [drill_down] leave the Element Store and its
    objects as they are, and add at most one diagram. *)
Lemma add_relationship_frame d f t ds te st :
  let st' := (add_relationship d f t ds te st).1 in
  elements st' = elements st /\ element_objs st' = element_objs st /\
  uuid_drawn st <= uuid_drawn st' /\
  diagrams st' = diagrams st /\
  length (diagram_objs st') = length (diagram_objs st).
Proof.
  unfold add_relationship. run_state.
  destruct (odict.get d (diagrams st)); cbn; [|by auto].
  rewrite !length_alter. auto.
Qed.

Lemma drill_down_frame i st :
  let st' := (drill_down i st).1 in
  elements st' = elements st /\ element_objs st' = element_objs st /\
  uuid_drawn st <= uuid_drawn st' /\
  (diagrams st' = diagrams st /\
   length (diagram_objs st') = length (diagram_objs st)
   \/ exists k d,
        diagrams st' = odict.set k (length (diagram_objs st)) (diagrams st) /\
        diagram_objs st' = diagram_objs st ++ [d]).
Proof.
  unfold drill_down. run_state.
  destruct (elements st !! i) as [element|]; [|by auto 10].
  destruct (e_children (element_at st element)); [by auto 10|].
  destruct (find _ _); [by auto 10|].
  destruct (omap _ _); [by auto 10|].
  cbn. do 3 (split; [auto|]). right. eauto.
Qed.

(** A builder that raises inside its loop leaves the stores consistent. *)
Lemma interrupted_inv Q st st' :
  store_ok st -> store_ok st' -> children_are Q st' ->
  store_ok (interrupted st st') /\ children_are Q (interrupted st st').
Proof.
  intros Hok Hok' Hch'. split.
  - apply (store_ok_frame st'); [done|done|done|cbn; lia|].
    apply (ok_diagrams st Hok).
  - by apply (children_are_frame Q st').
Qed.

Lemma exec_inv Q c st :
  stable Q -> store_ok st -> children_are Q st -> admits Q c st ->
  store_ok (exec c st) /\ children_are Q (exec c st).
Proof.
  intros HQ Hok Hch Hadm. destruct c as [n d|pid infos|pid infos|d f t ds te|i];
    simpl in *.
  - split; [by apply store_ok_create_context_diagram|].
    by apply children_are_create_context_diagram.
  - rewrite create_container_diagram_run.
    destruct (create_child_diagram_inv Q "System" "Container" CONTAINER
                "deployed on" " - Containers" pid (read_infos infos).1 st
                HQ Hok Hch Hadm) as [Hok' Hch'].
    destruct (elements st !! pid), (read_infos infos).2; try done.
    by apply interrupted_inv.
  - rewrite create_component_diagram_run.
    destruct (create_child_diagram_inv Q "Container" "Component" COMPONENT
                "part of" " - Components" pid (read_infos infos).1 st
                HQ Hok Hch Hadm) as [Hok' Hch'].
    destruct (elements st !! pid), (read_infos infos).2; try done.
    by apply interrupted_inv.
  - destruct (add_relationship_frame d f t ds te st) as (He & Ho & Hu & Hd & Hl).
    split; [apply (store_ok_diagram_step st); auto|].
    by apply (children_are_frame Q st).
  - destruct (drill_down_frame i st) as (He & Ho & Hu & Hd).
    split; [by apply (store_ok_diagram_step st)|].
    by apply (children_are_frame Q st).
Qed.

Lemma child_of_stable : stable child_of.
Proof.
  unfold stable, child_of. intros e e' ce ce' He Hce H.
  apply (f_equal e_id) in He. apply (f_equal e_parent_id) in Hce.
  simpl in *. congruence.
Qed.

Lemma one_level_deeper_stable : stable one_level_deeper.
Proof.
  unfold stable, one_level_deeper. intros e e' ce ce' He Hce H.
  apply (f_equal e_level) in He. apply (f_equal e_level) in Hce.
  simpl in *. congruence.
Qed.

Lemma child_of_admitted c st : store_ok st -> admits child_of c st.
Proof.
  intros Hok.
  destruct c; simpl; try done;
    intros ep0 (r & Hr & Hobj)%lookup_element_Some ep cid info Hfix;
    destruct (ok_keys st Hok _ _ Hr) as (e & He & Hid);
    apply (f_equal e_id) in Hfix; unfold child_of; simpl in *; congruence.
Qed.

Lemma one_level_deeper_admitted c st :
  respects_levels c st -> admits one_level_deeper c st.
Proof.
  destruct c; simpl; try done;
    intros Hlevel ep0 Hep0 ep cid info Hfix;
    apply (f_equal e_level) in Hfix; unfold one_level_deeper; simpl in *;
    rewrite Hfix, (Hlevel ep0 Hep0); reflexivity.
Qed.

Lemma children_are_init Q : children_are Q init.
Proof. intros k e c Hk. by apply lookup_element_Some in Hk as (r & Hr & _). Qed.

Lemma run_child_of calls st :
  store_ok st -> children_are child_of st ->
  store_ok (run calls st) /\ children_are child_of (run calls st).
Proof.
  revert st. induction calls as [|c calls IH]; intros st Hok Hch; [done|].
  assert (store_ok (exec c st) /\ children_are child_of (exec c st))
    as [Hok' Hch']
    by (apply exec_inv; auto using child_of_stable, child_of_admitted).
  simpl. by apply IH.
Qed.

Lemma run_one_level_deeper calls st :
  store_ok st -> children_are one_level_deeper st ->
  all_respect_levels calls st ->
  children_are one_level_deeper (run calls st).
Proof.
  revert st. induction calls as [|c calls IH]; intros st Hok Hch Hall; [done|].
  destruct Hall as [Hc Hall].
  assert (store_ok (exec c st) /\ children_are one_level_deeper (exec c st))
    as [Hok' Hch']
    by (apply exec_inv;
        auto using one_level_deeper_stable, one_level_deeper_admitted).
  simpl. by apply IH.
Qed.

Lemma reachable_store_ok st : reachable st -> store_ok st.
Proof.
  intros [calls ->]. apply run_child_of;
    auto using store_ok_init, children_are_init.
Qed.

(** C2, as the code has it: after any sequence of calls from the empty
    generator, every identifier in the [children] of a stored element is
    that of a stored element whose [parent_id] is the identifier of the
    parent, which is the key it is stored under; the child is exactly one
    level deeper than the parent when every call of the sequence respected
    the levels, that is created containers under elements of the Context
    level and components under elements of the Container level. *)
Theorem children_invariant calls k e c :
  lookup_element (run calls init) k = Some e ->
  c ∈ e_children e ->
  exists ce,
    lookup_element (run calls init) c = Some ce /\
    e_id e = k /\
    e_parent_id ce = Some (e_id e) /\
    (all_respect_levels calls init ->
     level_index (e_level ce) = S (level_index (e_level e))).
Proof.
  intros Hk Hc.
  destruct (run_child_of calls init store_ok_init (children_are_init _))
    as [Hok Hch].
  destruct (Hch k e c Hk Hc) as (ce & Hce & Hparent).
  exists ce. split; [done|]. split.
  { apply lookup_element_Some in Hk as (r & Hr & Hobj).
    destruct (ok_keys _ Hok k r Hr) as (e' & He' & Hid). congruence. }
  split; [done|]. intros Hall.
  destruct (run_one_level_deeper calls init store_ok_init
              (children_are_init _) Hall k e c Hk Hc) as (ce' & Hce' & Hl).
  congruence.
Qed.

Lemma children_invariant_witness :
  exists ce,
    lookup_element (run payments_calls init) "uuid-2" = Some ce /\
    e_parent_id ce = Some "uuid-0_system" /\
    level_index (e_level ce) = 1.
Proof.
  destruct (children_invariant payments_calls "uuid-0_system"
              (mkElement "uuid-0_system" "Payments" "System" CONTEXT
                 "handles billing" (Some "") [] [] None ["uuid-2"; "uuid-4"])
              "uuid-2") as (ce & Hce & _ & Hparent & Hlevel).
  - reflexivity.
  - apply elem_of_cons. by left.
  - exists ce. split; [exact Hce|]. split; [exact Hparent|].
    apply Hlevel. simpl. split; [exact I|]. split; [|exact I].
    intros e He. vm_compute in He. by injection He as <-.
Defined.

(** C2, as stated, fails: a component created directly under a system is
    stored, is listed in the [children] of the system and has the system as
    its parent, and is two levels deeper than the system. *)
Lemma component_under_system_skips_a_level :
  exists e ce,
    lookup_element (run ledger_under_system init) "uuid-0_system" = Some e /\
    "uuid-2" ∈ e_children e /\
    lookup_element (run ledger_under_system init) "uuid-2" = Some ce /\
    e_level e = CONTEXT /\ e_level ce = COMPONENT /\
    level_index (e_level ce) <> S (level_index (e_level e)).
Proof.
  eexists _, _. split; [by vm_compute|]. split; [apply elem_of_cons; by left|].
  split; [by vm_compute|]. by repeat split.
Qed.

(** ** Repeated navigation *)

(** In a consistent store, a second [drill_down] into the same element
    returns what the first returned and writes nothing. *)
Lemma drill_down_twice_consistent st element_id :
  store_ok st ->
  let (st1, first) := drill_down element_id st in
  drill_down element_id st1 = (st1, first).
Proof.
  intros Hok.
  destruct (elements st !! element_id) as [element|] eqn:Hget.
  2: { rewrite drill_down_missing by done. by apply drill_down_missing. }
  destruct (decide (e_children (element_at st element) = [])) as [Hc|Hc].
  { erewrite drill_down_leaf by done. by eapply drill_down_leaf. }
  destruct (find (shows_first st element_id) (odict.values (diagrams st)))
    as [diagram|] eqn:Hfind.
  { erewrite drill_down_reuse by done. by eapply drill_down_reuse. }
  destruct (decide (omap (fun c => elements st !! c)
                      (e_children (element_at st element)) = [])) as [Hk|Hk].
  { erewrite drill_down_unknown_children by done.
    by eapply drill_down_unknown_children. }
  erewrite drill_down_build by done.
  eapply drill_down_reuse; cbn [elements]; [exact Hget|exact Hc|].
  cbn [diagrams].
  apply (find_set_first (shows_first st element_id)); [exact Hfind| |].
  - intros r Hr. pose proof (ok_diagrams st Hok r Hr) as Hlt.
    unfold shows_first, diagram_at, element_at. cbn [diagram_objs element_objs].
    by rewrite lookup_app_l.
  - unfold shows_first.
    erewrite diagram_at_new by reflexivity. cbn [d_elements].
    destruct (ok_keys st Hok element_id element Hget) as (e & He & Hid).
    unfold element_at. cbn [element_objs]. rewrite He. simpl.
    by apply String.eqb_eq.
Qed.

(** C6: in every state of the generator, a second [drill_down] into the same
    element, straight after the first, returns what the first returned, the
    same diagram or [None] again, and leaves the state as the first left
    it. *)
Theorem drill_down_twice st element_id :
  reachable st ->
  let (st1, first) := drill_down element_id st in
  drill_down element_id st1 = (st1, first).
Proof. intros H. by apply drill_down_twice_consistent, reachable_store_ok. Qed.

Lemma drill_down_twice_witness :
  let (st1, first) := drill_down "uuid-0_system" payments_containers in
  first = Return (Some 0) /\ drill_down "uuid-0_system" st1 = (st1, first).
Proof.
  assert (reachable payments_containers) as Hreach
    by (exists payments_calls; vm_compute; reflexivity).
  pose proof (drill_down_twice payments_containers "uuid-0_system" Hreach) as H.
  destruct (drill_down "uuid-0_system" payments_containers) as [st1 first] eqn:E.
  split; [|exact H].
  apply (f_equal snd) in E. vm_compute in E. symmetry. exact E.
Defined.

(** * More of the generator *)

(** ** Component diagrams *)

(** X1: for a container stored under [container_id],
    [create_component_diagram] returns a new diagram of the Component level
    whose elements are the container followed by one new element of type
    Component and level Component per specification, in order, and whose
    relationships are one [part of] relationship per new component, from
    the component to [container_id], in the same order; the [children] of
    the container are those it had followed by the identifiers of the new
    components. *)
Theorem create_component_diagram_spec st container_id components container parent :
  elements st !! container_id = Some container ->
  element_objs st !! container = Some parent ->
  let ids := ids_from (S (uuid_drawn st)) (length components) in
  let relationship_ids := ids_from (S (S (uuid_drawn st))) (length components) in
  exists st' diagram d,
    create_component_diagram container_id (map spec_dict components) st
      = (st', Return diagram) /\
    diagram_objs st !! diagram = None /\
    diagram_objs st' !! diagram = Some d /\
    d_level d = COMPONENT /\
    d_name d = e_name parent +:+ " - Components" /\
    d_elements d = container :: seq (length (element_objs st)) (length components) /\
    map (element_at st') (d_elements d) =
      with_children ids parent
      :: zip_with (child_element "Component" COMPONENT container_id) ids components /\
    d_relationships d =
      zip_with (fun relationship_id component_id =>
                  mkRelationship relationship_id component_id container_id
                    "part of" "")
        relationship_ids ids /\
    e_children (element_at st' container) = e_children parent ++ ids /\
    length ids = length components.
Proof.
  intros Hget Hparent ids relationship_ids.
  pose proof (lookup_lt_Some _ _ _ Hparent) as Hlt.
  rewrite create_component_diagram_run, read_spec_dicts, Hget. cbn [fst snd].
  destruct (create_child_diagram_run "Container" "Component" COMPONENT
              "part of" " - Components" container_id (map fields_of components)
              st container parent Hget Hparent)
    as (st' & Hrun & Hdiagrams & Hobjs & _).
  rewrite length_map in Hdiagrams, Hobjs. rewrite child_element_fields in Hobjs.
  fold ids relationship_ids in Hdiagrams, Hobjs.
  assert (element_at st' container = with_children ids parent) as Hcontainer.
  { unfold element_at. rewrite Hobjs.
    rewrite lookup_app_l by (by rewrite length_insert).
    by rewrite list_lookup_insert_eq. }
  eexists st', _, _. split; [exact Hrun|].
  split; [by apply lookup_ge_None_2|].
  split; [by rewrite Hdiagrams, list_lookup_middle|].
  cbn [d_level d_name d_elements d_relationships].
  do 3 (split; [done|]). split.
  - cbn [map]. rewrite Hcontainer. f_equal.
    unfold element_at. rewrite Hobjs.
    rewrite <- (length_insert (element_objs st) container
                  (with_children ids parent)).
    replace (length components) with
      (length (zip_with (child_element "Component" COMPONENT container_id)
                 ids components)).
    + apply read_new_objects.
    + rewrite length_zip_with. unfold ids. rewrite length_ids_from. lia.
  - split; [done|]. rewrite Hcontainer.
    unfold ids. by rewrite !length_ids_from.
Qed.

Lemma create_component_diagram_spec_witness :
  exists st' diagram d,
    create_component_diagram "uuid-2"
      (map spec_dict
         [mkSpec "Router" (Some "routes requests") (Some "Python") None])
      payments_containers = (st', Return diagram) /\
    diagram_objs st' !! diagram = Some d /\
    d_name d = "API - Components" /\
    map e_name (map (element_at st') (d_elements d)) = ["API"; "Router"] /\
    map e_technology (map (element_at st') (d_elements d))
      = [Some ""; Some "Python"] /\
    map r_description (d_relationships d) = ["part of"] /\
    e_children (element_at st' 1) = ["uuid-7"].
Proof.
  destruct (create_component_diagram_spec payments_containers "uuid-2"
              [mkSpec "Router" (Some "routes requests") (Some "Python") None] 1
              (mkElement "uuid-2" "API" "Container" CONTAINER "" (Some "")
                 [] [] (Some "uuid-0_system") []))
    as (st' & diagram & d & Hrun & _ & Hd & _ & Hname & _ & Hels & Hrels & Hch & _).
  - vm_compute. reflexivity.
  - vm_compute. reflexivity.
  - exists st', diagram, d.
    rewrite Hels, Hrels, Hch, Hname. repeat split; assumption || reflexivity.
Defined.

(** X2: [create_component_diagram] raises the [ValueError] of a missing
    element exactly when [container_id] is not a key of the Element Store,
    and the stores and their objects are then what they were before the
    call.  It raises at all exactly when [container_id] is not a key or one
    of the dictionaries is not well formed.  When it raises for a
    dictionary, a [KeyError] for one without [name] and a [ValidationError]
    for another, no diagram is constructed or stored, and the Element Store
    and its objects are those the call leaves for the dictionaries before
    that one: their elements stay stored, and listed in the [children] of
    the container. *)
Theorem create_component_diagram_raises st container_id components :
  let (st', result) := create_component_diagram container_id components st in
  ((exists msg, result = Raise (ValueError msg)) <->
   elements st !! container_id = None) /\
  (forall msg, result = Raise (ValueError msg) ->
     msg = "Container element " +:+ container_id +:+ " not found" /\
     elements st' = elements st /\ diagrams st' = diagrams st /\
     element_objs st' = element_objs st /\ diagram_objs st' = diagram_objs st) /\
  ((exists e, result = Raise e) <->
   elements st !! container_id = None \/
   Exists (fun info => ~ well_formed info) components) /\
  (forall e, result = Raise e -> is_Some (elements st !! container_id) ->
     exists before info after,
       components = before ++ info :: after /\
       Forall well_formed before /\ ~ well_formed info /\
       (e = KeyError "name" <-> odict.get "name" info = None) /\
       (odict.get "name" info = None \/ exists errors, e = ValidationError errors) /\
       diagrams st' = diagrams st /\ diagram_objs st' = diagram_objs st /\
       exists st1 diagram,
         create_component_diagram container_id before st = (st1, Return diagram) /\
         elements st' = elements st1 /\ element_objs st' = element_objs st1).
Proof.
  rewrite create_component_diagram_is_build_diagram.
  apply (build_diagram_raises "Container" "Component" COMPONENT "part of").
  intros. apply add_component_run.
Qed.

(** ** Diagrams only accumulate *)

(** X3: whatever calls follow, a diagram that exists keeps its identifier,
    name, level and creation time, and the relationships it has remain, in
    order, the first relationships it has: relationships are only ever
    appended, never removed, reordered or rewritten. *)
Theorem relationships_accumulate calls st diagram d :
  diagram_objs st !! diagram = Some d ->
  exists d',
    diagram_objs (run calls st) !! diagram = Some d' /\
    d_id d' = d_id d /\ d_name d' = d_name d /\ d_level d' = d_level d /\
    d_created_at d' = d_created_at d /\
    d_relationships d `prefix_of` d_relationships d'.
Proof.
  intros Hd. destruct (run_grown calls st) as [_ HD].
  destruct (HD diagram d Hd) as (d' & Hd' & ? & ? & ? & ? & ? & ?).
  exists d'. by repeat split.
Qed.

Lemma relationships_accumulate_witness :
  exists d',
    diagram_objs payments_dangling !! 1 = Some d' /\
    map r_description (d_relationships d')
      = ["deployed on"; "deployed on"; "calls"].
Proof.
  destruct (relationships_accumulate
              [AddRelationship "uuid-1" "uuid-2" "elsewhere" "calls" "HTTP"]
              payments_containers 1 (diagram_at payments_containers 1))
    as (d' & Hd' & _).
  - vm_compute. reflexivity.
  - exists d'. split; [exact Hd'|].
    change (run _ payments_containers) with payments_dangling in Hd'.
    vm_compute in Hd'. injection Hd' as <-. reflexivity.
Defined.

(** ** Highlighting *)

Lemma highlight_loop_eq st element_ids els init :
  fold_left
    (fun highlighted_elements element =>
       if py_in (e_id (element_at st element)) element_ids
       then highlighted_elements ++ [highlighted_of (element_at st element)]
       else highlighted_elements) els init
  = init ++ map highlighted_of
              (List.filter (fun e => py_in (e_id e) element_ids)
                 (map (element_at st) els)).
Proof.
  revert init. induction els as [|r els IH]; intros init; simpl.
  - by rewrite app_nil_r.
  - rewrite IH. destruct (py_in _ _); simpl; [|done]. by rewrite <- app_assoc.
Qed.

Lemma py_in_app x xs ys : py_in x (xs ++ ys) = py_in x xs || py_in x ys.
Proof. unfold py_in. apply existsb_app. Qed.

Lemma length_filter_le {A} (p : A -> bool) (l : list A) :
  length (List.filter p l) <= length l.
Proof. induction l as [|x l IH]; simpl; [done|]. destruct (p x); simpl; lia. Qed.

(** X4: [highlight_elements] returns the empty dictionary for an unknown
    diagram.  For a stored diagram it returns the diagram identifier with
    one entry per element of the diagram whose identifier is among
    [element_ids], in the order of the diagram, each marked highlighted:
    identifiers that are not in the diagram are ignored, repeating an
    identifier repeats no entry, and with no identifier the list is empty
    but the result is not the empty dictionary. *)
Theorem highlight_elements_spec st diagram_id element_ids :
  match odict.get diagram_id (diagrams st) with
  | None => highlight_elements st diagram_id element_ids = None
  | Some diagram =>
      let hs :=
        map highlighted_of
          (List.filter (fun e => py_in (e_id e) element_ids)
             (observed st diagram)) in
      highlight_elements st diagram_id element_ids
        = Some (mkHighlightResult diagram_id hs) /\
      highlight_elements st diagram_id []
        = Some (mkHighlightResult diagram_id []) /\
      highlight_elements st diagram_id (element_ids ++ element_ids)
        = highlight_elements st diagram_id element_ids /\
      length hs <= length (d_elements (diagram_at st diagram)) /\
      Forall (fun h => hl_highlighted h = true /\ py_in (hl_id h) element_ids = true)
        hs
  end.
Proof.
  unfold highlight_elements.
  destruct (odict.get diagram_id (diagrams st)) as [diagram|]; [|done].
  cbv zeta. rewrite !highlight_loop_eq. unfold observed. simpl app.
  split; [done|]. split.
  { do 2 f_equal.
    by induction (map (element_at st) (d_elements (diagram_at st diagram))). }
  split.
  { do 3 f_equal. apply filter_ext. intros e.
    rewrite py_in_app. by destruct (py_in _ _). }
  split.
  { rewrite length_map. etrans; [apply length_filter_le|].
    by rewrite length_map. }
  apply Forall_forall. intros h (e & -> & He)%list_elem_of_fmap.
  apply list_elem_of_In, filter_In in He as [_ He]. by split.
Qed.

(** ** The figure *)

Lemma plot_nodes_eq st els hl :
  plot_nodes st els hl =
  (map (fun r => e_name (element_at st r) +:+ "<br>" +:+ e_type (element_at st r)) els,
   map (fun r => if is_highlighted hl (e_id (element_at st r))
                 then "red" else "lightblue") els,
   map (fun r => if is_highlighted hl (e_id (element_at st r))
                 then 30 else 20) els).
Proof.
  unfold plot_nodes.
  enough (forall a b c,
    fold_left
      (fun '(node_text, node_colors, node_sizes) element =>
         let e := element_at st element in
         let node_text := node_text ++ [e_name e +:+ "<br>" +:+ e_type e] in
         if is_highlighted hl (e_id e)
         then (node_text, node_colors ++ ["red"], node_sizes ++ [30])
         else (node_text, node_colors ++ ["lightblue"], node_sizes ++ [20]))
      els (a, b, c) =
    (a ++ map (fun r => e_name (element_at st r) +:+ "<br>"
                        +:+ e_type (element_at st r)) els,
     b ++ map (fun r => if is_highlighted hl (e_id (element_at st r))
                        then "red" else "lightblue") els,
     c ++ map (fun r => if is_highlighted hl (e_id (element_at st r))
                        then 30 else 20) els)) as H by apply (H [] [] []).
  induction els as [|r els IH]; intros a b c; simpl.
  - by rewrite !app_nil_r.
  - destruct (is_highlighted hl _); rewrite IH, <- !app_assoc; reflexivity.
Qed.

Lemma index_lookup {A} `{EqDecision A} (x : A) (l : list A) i :
  index x l = Some i -> l !! i = Some x.
Proof.
  revert i. induction l as [|y l IH]; intros i; simpl; [done|].
  case_decide as Hy; [by intros [= <-]; subst|].
  destruct (index x l) as [j|]; simpl; [|done].
  intros [= <-]. by apply IH.
Qed.

Lemma index_elem_of {A} `{EqDecision A} (x : A) (l : list A) :
  x ∈ l -> is_Some (index x l).
Proof.
  induction l as [|y l IH]; simpl; [by intros ?%elem_of_nil|].
  intros Hx. case_decide as Hy; [by eexists|].
  apply elem_of_cons in Hx as [->|Hx]; [done|].
  destruct (IH Hx) as [j ->]. by eexists.
Qed.

Lemma first_with_id_Some st wanted els r :
  first_with_id st wanted els = Some r ->
  r ∈ els /\ e_id (element_at st r) = wanted.
Proof.
  unfold first_with_id. intros [Hin Heq]%find_some.
  split; [by apply list_elem_of_In|]. by apply String.eqb_eq.
Qed.

Lemma index_of_first st els wanted r :
  first_with_id st wanted els = Some r ->
  exists i, index (element_at st r) (map (element_at st) els) = Some i /\
            i < length els /\ drawn_at st els wanted i.
Proof.
  intros [Hin Hid]%first_with_id_Some.
  destruct (index_elem_of (element_at st r) (map (element_at st) els)) as [i Hi].
  { apply list_elem_of_fmap. eauto. }
  exists i. split; [done|]. apply index_lookup in Hi.
  rewrite list_lookup_fmap in Hi.
  destruct (els !! i) as [r'|] eqn:Hr'; [|done]. simpl in Hi.
  split; [by eapply lookup_lt_Some|]. exists r'. split; [done|]. congruence.
Qed.

Lemma plot_edges_ok st d rels acc :
  exists ends,
    plot_edges st (d_elements d) (length (d_elements d)) rels acc
    = inr (acc.1 ++ ends,
           acc.2 ++ map r_description (List.filter (ends_shown st d) rels)) /\
    Forall2 (fun rel '(i, j) =>
               i < length (d_elements d) /\ j < length (d_elements d) /\
               drawn_at st (d_elements d) (r_from rel) i /\
               drawn_at st (d_elements d) (r_to rel) j)
      (List.filter (ends_shown st d) rels) ends.
Proof.
  revert acc. induction rels as [|rel rels IH]; intros acc.
  - exists []. simpl. rewrite !app_nil_r. split; [by destruct acc|constructor].
  - simpl. unfold plot_edge, ends_shown.
    destruct (first_with_id st (r_from rel) (d_elements d)) as [f|] eqn:Hf;
      [|apply IH].
    destruct (first_with_id st (r_to rel) (d_elements d)) as [t|] eqn:Ht;
      [|apply IH].
    destruct (index_of_first _ _ _ _ Hf) as (i & -> & Hi & Hdi).
    destruct (index_of_first _ _ _ _ Ht) as (j & -> & Hj & Hdj).
    apply Nat.ltb_lt in Hi as Hi', Hj as Hj'. rewrite Hi', Hj'. simpl.
    destruct (IH (acc.1 ++ [(i, j)], acc.2 ++ [r_description rel]))
      as (ends & -> & Hends).
    exists ((i, j) :: ends). cbn [fst snd]. rewrite <- !app_assoc.
    split; [done|]. by constructor.
Qed.

(** X5: for a stored diagram, [generate_plotly_diagram] never fails on a
    list lookup.  The figure has one node per element, in order, labelled
    with the name and the type, red and of size 30 when the element is
    highlighted, light blue and of size 20 otherwise; passing no list of
    highlighted elements or an empty one highlights nothing.  It has one
    edge per relationship both ends of which are identifiers of elements of
    the diagram, in order, drawn between positions of the figure that hold
    elements with these identifiers; the other relationships are left
    out. *)
Theorem generate_plotly_diagram_spec st diagram_id diagram highlighted_elements :
  odict.get diagram_id (diagrams st) = Some diagram ->
  let d := diagram_at st diagram in
  let els := observed st diagram in
  exists f,
    generate_plotly_diagram st diagram_id highlighted_elements = Plotted f /\
    f_title f = d_name d /\
    f_node_text f = map (fun e => e_name e +:+ "<br>" +:+ e_type e) els /\
    f_node_colors f =
      map (fun e => if is_highlighted highlighted_elements (e_id e)
                    then "red" else "lightblue") els /\
    f_node_sizes f =
      map (fun e => if is_highlighted highlighted_elements (e_id e)
                    then 30 else 20) els /\
    (highlighted_elements = None \/ highlighted_elements = Some [] ->
     f_node_colors f = map (fun _ => "lightblue") els) /\
    f_edge_text f =
      map r_description (List.filter (ends_shown st d) (d_relationships d)) /\
    Forall2 (fun rel '(i, j) =>
               i < length els /\ j < length els /\
               drawn_at st (d_elements d) (r_from rel) i /\
               drawn_at st (d_elements d) (r_to rel) j)
      (List.filter (ends_shown st d) (d_relationships d)) (f_edge_ends f).
Proof.
  intros Hget d els. unfold generate_plotly_diagram. rewrite Hget.
  fold d. rewrite plot_nodes_eq. rewrite length_map.
  destruct (plot_edges_ok st d (d_relationships d) ([], []))
    as (ends & -> & Hends).
  cbn [fst snd app]. eexists. split; [reflexivity|].
  cbn [f_title f_node_text f_node_colors f_node_sizes f_edge_ends f_edge_text].
  subst els. unfold observed. fold d. rewrite !map_map, length_map.
  do 4 (split; [done|]). split; [|by split].
  by intros [->| ->].
Qed.

Lemma generate_plotly_diagram_spec_witness :
  exists f,
    generate_plotly_diagram payments_dangling "uuid-1" (Some ["uuid-4"])
      = Plotted f /\
    f_node_colors f = ["lightblue"; "lightblue"; "red"] /\
    f_node_sizes f = [20; 20; 30] /\
    f_edge_text f = ["deployed on"; "deployed on"] /\
    f_edge_ends f = [(1, 0); (2, 0)].
Proof.
  destruct (generate_plotly_diagram_spec payments_dangling "uuid-1" 1
              (Some ["uuid-4"])) as (f & Hf & _).
  - vm_compute. reflexivity.
  - exists f. split; [exact Hf|].
    vm_compute in Hf. injection Hf as <-. by repeat split.
Defined.

Lemma is_highlighted_Some ids x : is_highlighted (Some ids) x = py_in x ids.
Proof. by destruct ids. Qed.

Lemma red_count st ids els :
  length (List.filter (String.eqb "red")
            (map (fun r => if py_in (e_id (element_at st r)) ids
                           then "red" else "lightblue") els))
  = length (map highlighted_of
              (List.filter (fun e => py_in (e_id e) ids)
                 (map (element_at st) els))).
Proof.
  induction els as [|r els IH]; [done|]. cbn [map List.filter].
  destruct (py_in (e_id (element_at st r)) ids).
  - replace (String.eqb "red" "red") with true by reflexivity.
    cbn [map length]. by rewrite IH.
  - replace (String.eqb "red" "lightblue") with false by reflexivity.
    exact IH.
Qed.

(** X6: the figure and [highlight_elements] agree: for a stored diagram and
    a list of identifiers, the nodes drawn in red are, position by
    position, the elements that [highlight_elements] reports, so there are
    as many red nodes as reported elements. *)
Theorem red_nodes_are_highlighted st diagram_id diagram element_ids :
  odict.get diagram_id (diagrams st) = Some diagram ->
  exists f r,
    generate_plotly_diagram st diagram_id (Some element_ids) = Plotted f /\
    highlight_elements st diagram_id element_ids = Some r /\
    Forall2 (fun e colour =>
               colour = "red" <-> highlighted_of e ∈ hr_highlighted_elements r)
      (observed st diagram) (f_node_colors f) /\
    length (List.filter (String.eqb "red") (f_node_colors f))
      = length (hr_highlighted_elements r).
Proof.
  intros Hget. unfold generate_plotly_diagram, highlight_elements.
  rewrite Hget. cbv zeta. rewrite plot_nodes_eq, length_map.
  destruct (plot_edges_ok st (diagram_at st diagram)
              (d_relationships (diagram_at st diagram)) ([], []))
    as (ends & -> & _).
  rewrite highlight_loop_eq. cbn [fst snd app].
  eexists _, _. split; [reflexivity|]. split; [reflexivity|].
  cbn [f_node_colors hr_highlighted_elements]. unfold observed.
  generalize (d_elements (diagram_at st diagram)). intros els. split.
  - apply Forall2_fmap, Forall_Forall2_diag, Forall_forall. intros r Hr.
    rewrite is_highlighted_Some.
    destruct (py_in (e_id (element_at st r)) element_ids) eqn:Hin.
    + split; [intros _|done]. apply list_elem_of_fmap.
      exists (element_at st r). split; [done|].
      apply list_elem_of_In, filter_In. split; [|done].
      apply list_elem_of_In, list_elem_of_fmap. eauto.
    + split; [done|]. intros (e & He & Hf)%list_elem_of_fmap.
      apply list_elem_of_In, filter_In in Hf as [_ Hf].
      apply (f_equal hl_id) in He. simpl in He. congruence.
  - erewrite map_ext by (intros; by rewrite is_highlighted_Some).
    apply red_count.
Qed.

Lemma red_nodes_are_highlighted_witness :
  exists f r,
    generate_plotly_diagram payments_containers "uuid-1"
      (Some ["uuid-4"; "nowhere"]) = Plotted f /\
    highlight_elements payments_containers "uuid-1" ["uuid-4"; "nowhere"]
      = Some r /\
    f_node_colors f = ["lightblue"; "lightblue"; "red"] /\
    map hl_name (hr_highlighted_elements r) = ["Worker"].
Proof.
  destruct (red_nodes_are_highlighted payments_containers "uuid-1" 1
              ["uuid-4"; "nowhere"]) as (f & r & Hf & Hr & _).
  - vm_compute. reflexivity.
  - exists f, r. split; [exact Hf|]. split; [exact Hr|].
    vm_compute in Hf, Hr. injection Hf as <-. injection Hr as <-. by split.
Defined.

(** ** The builders, written out *)

Lemma elem_of_ids_from k u n :
  k ∈ ids_from u n <-> exists j, j < n /\ k = uuid_str (u + 2 * j).
Proof.
  revert u. induction n as [|n IH]; intros u; simpl.
  - split; [by intros ?%elem_of_nil|]. intros (j & ? & _). lia.
  - rewrite elem_of_cons, IH. split.
    + intros [->|(j & Hj & ->)].
      * exists 0. split; [lia|]. f_equal. lia.
      * exists (S j). split; [lia|]. f_equal. lia.
    + intros ([|j] & Hj & ->).
      * left. f_equal. lia.
      * right. exists j. split; [lia|]. f_equal. lia.
Qed.

Lemma NoDup_ids_from u n : NoDup (ids_from u n).
Proof.
  revert u. induction n as [|n IH]; intros u; simpl; constructor; [|apply IH].
  intros (j & _ & Heq)%elem_of_ids_from. apply uuid_str_inj in Heq. lia.
Qed.

Lemma lookup_ids_from u n j :
  j < n -> ids_from u n !! j = Some (uuid_str (u + 2 * j)).
Proof.
  revert u j. induction n as [|n IH]; intros u [|j] Hj; simpl; try lia.
  - do 2 f_equal. lia.
  - rewrite IH by lia. do 2 f_equal. lia.
Qed.

Lemma store_children_notin ids first m k :
  k ∉ ids -> store_children ids first m !! k = m !! k.
Proof.
  revert first m. induction ids as [|id ids IH]; intros first m Hk; [done|].
  apply not_elem_of_cons in Hk as [Hne Hk]. simpl.
  rewrite IH by done. by rewrite lookup_insert_ne.
Qed.

Lemma store_children_in ids first m j k :
  NoDup ids -> ids !! j = Some k ->
  store_children ids first m !! k = Some (first + j).
Proof.
  revert first m j. induction ids as [|id ids IH]; intros first m j Hnd Hj;
    [done|].
  apply NoDup_cons in Hnd as [Hid Hnd]. destruct j as [|j]; simpl in *.
  - injection Hj as ->. rewrite store_children_notin by done.
    rewrite lookup_insert_eq. f_equal. lia.
  - rewrite (IH _ _ j) by done. f_equal. lia.
Qed.

(** The loop of a builder, for the Element Store and the counters. *)
Lemma add_children_elements type level description pid p infos :
  forall acc st,
    let st' := (for_each infos (add_child type level description pid p) acc st).1 in
    elements st' =
      store_children (ids_from (uuid_drawn st) (length infos))
        (length (element_objs st)) (elements st) /\
    uuid_drawn st' = uuid_drawn st + 2 * length infos /\
    clock st' = clock st.
Proof.
  induction infos as [|info infos IH]; intros acc st; [simpl; auto|].
  simpl for_each. rewrite bind_run, add_child_run.
  specialize (IH (acc.1 ++ [length (element_objs st)],
                  acc.2 ++ [implicit_relationship description pid
                              (uuid_str (S (uuid_drawn st)))
                              (uuid_str (uuid_drawn st))])).
  match goal with |- context [for_each _ _ _ ?s] => specialize (IH s) end.
  cbn [elements element_objs uuid_drawn clock] in IH.
  rewrite length_alter, length_app, Nat.add_1_r in IH.
  destruct IH as (He & Hu & Hc). simpl. rewrite He, Hu, Hc.
  repeat split. lia.
Qed.

(** A builder called on a stored element, in a consistent store, written
    out in full. *)
Lemma create_child_diagram_full what type level description suffix
    pid infos st p ep :
  elements st !! pid = Some p ->
  element_objs st !! p = Some ep ->
  let ids := ids_from (S (uuid_drawn st)) (length infos) in
  let relationship_ids := ids_from (S (S (uuid_drawn st))) (length infos) in
  (create_child_diagram what type level description suffix pid infos st).1 =
  mkState
    (odict.set (uuid_str (uuid_drawn st)) (length (diagram_objs st)) (diagrams st))
    (store_children ids (length (element_objs st)) (elements st))
    (<[p := with_children ids ep]> (element_objs st)
     ++ zip_with (element_of type level pid) ids infos)
    (diagram_objs st ++
       [mkDiagram (uuid_str (uuid_drawn st)) (e_name ep +:+ suffix) level
          (p :: seq (length (element_objs st)) (length infos))
          (zip_with (implicit_relationship description pid) relationship_ids ids)
          (clock st) (S (clock st))])
    (S (uuid_drawn st) + 2 * length infos)
    (S (S (clock st))).
Proof.
  intros Hget Hep ids relationship_ids.
  pose proof (lookup_lt_Some _ _ _ Hep) as Hlt.
  unfold create_child_diagram. run_state. rewrite Hget.
  set (st0 := mkState (diagrams st) (elements st) (element_objs st)
                (diagram_objs st) (S (uuid_drawn st)) (clock st)).
  pose proof (add_children_elements type level description pid p infos
                ([p], []) st0) as Hloop. cbv zeta in Hloop.
  destruct (add_children_run type level description pid p infos ([p], []) st0)
    as (st1 & Hrun & Hobjs & Hd & Hdo & _ & _); [exact Hlt|].
  rewrite Hrun in *. destruct Hloop as (Hel & Hu & Hc).
  cbn [fst snd element_objs uuid_drawn diagrams diagram_objs clock elements
       st0] in *.
  assert (element_objs st1 =
          <[p:=with_children ids ep]> (element_objs st)
          ++ zip_with (element_of type level pid) ids infos) as Hobjs'.
  { rewrite Hobjs. f_equal. apply list_eq. intros j.
    destruct (decide (p = j)) as [<-|Hne].
    - rewrite list_lookup_alter_eq, Hep. simpl.
      by rewrite list_lookup_insert_eq.
    - by rewrite list_lookup_alter_ne, list_lookup_insert_ne. }
  assert (e_name (element_at st1 p) = e_name ep) as Hname.
  { unfold element_at. rewrite Hobjs'.
    rewrite lookup_app_l by (by rewrite length_insert).
    by rewrite list_lookup_insert_eq. }
  by rewrite Hname, Hd, Hdo, Hc, Hel, Hu, Hobjs'.
Qed.

(** ** The Diagram Store *)

Lemma odict_values_set_fresh {V} k (v : V) d :
  odict.get k d = None -> odict.values (odict.set k v d) = odict.values d ++ [v].
Proof.
  unfold odict.values. induction d as [|[k' v'] d IH]; simpl; [done|].
  destruct (String.eqb k k'); [done|]. intros H. simpl. by rewrite IH.
Qed.

(** A new diagram stored under the identifier drawn for it. *)
Lemma diagrams_ok_add st st' D :
  diagrams_ok st ->
  diagrams st' =
    odict.set (uuid_str (uuid_drawn st)) (length (diagram_objs st)) (diagrams st) ->
  diagram_objs st' = diagram_objs st ++ [D] ->
  d_id D = uuid_str (uuid_drawn st) ->
  uuid_drawn st < uuid_drawn st' ->
  diagrams_ok st'.
Proof.
  intros [K F] Hd Hdo Hid Hu. split.
  - intros k r. rewrite Hd, Hdo.
    destruct (decide (uuid_str (uuid_drawn st) = k)) as [<-|Hne].
    + rewrite odict_get_set_eq. intros [= <-]. exists D.
      split; [by apply list_lookup_middle|done].
    + rewrite odict_get_set_ne by done. intros Hr.
      destruct (K k r Hr) as (d & Hdr & Hdid). exists d.
      split; [by apply lookup_app_l_Some|done].
  - intros n Hn. rewrite Hd.
    rewrite odict_get_set_ne by (apply uuid_str_ne; lia). apply F. lia.
Qed.

Lemma diagrams_ok_step st st' :
  store_ok st -> diagrams_ok st -> transition st st' -> diagrams_ok st'.
Proof.
  intros Hok [K F] Htr. pose proof (conj K F) as HKF.
  destruct Htr as [| |n d|what type level description suffix pid infos p ep
                      Hget Hep _|diagram d f t ds te Hd].
  - by split.
  - split; [exact K|]. intros n Hn. apply F. cbn in Hn. lia.
  - rewrite create_context_diagram_run. cbn [fst].
    eapply (diagrams_ok_add st); [by split|..];
      cbn [diagrams diagram_objs uuid_drawn d_id]; [reflexivity..|lia].
  - rewrite (create_child_diagram_full _ _ _ _ _ _ _ _ _ _ Hget Hep).
    eapply (diagrams_ok_add st); [by split|..];
      cbn [diagrams diagram_objs uuid_drawn d_id]; [reflexivity..|lia].
  - split; cbn.
    + intros k r Hr. destruct (K k r Hr) as (d0 & Hd0 & Hid).
      destruct (decide (diagram = r)) as [->|Hne].
      * rewrite list_lookup_insert_eq by (by eapply lookup_lt_Some).
        eexists. split; [done|]. simpl. congruence.
      * rewrite list_lookup_insert_ne by done. eauto.
    + intros n Hn. apply F. lia.
Qed.

(** ** Elements and the diagrams that show them *)

Lemma create_context_lookup_old n d st k e :
  store_ok st -> lookup_element st k = Some e ->
  lookup_element (create_context_diagram n d st).1 k = Some e.
Proof.
  intros Hok (r & Hr & Hobj)%lookup_element_Some.
  rewrite create_context_diagram_run. apply lookup_element_Some. exists r.
  cbn [fst elements element_objs]. split; [|by apply lookup_app_l_Some].
  rewrite lookup_insert_ne; [done|]. intros <-.
  destruct (ok_fresh st Hok (uuid_drawn st)) as [_ HF]; [lia|]. congruence.
Qed.

Lemma create_context_lookup_inv n d st k e :
  store_ok st -> lookup_element (create_context_diagram n d st).1 k = Some e ->
  k = uuid_str (uuid_drawn st) +:+ "_system" /\ e_children e = [] /\
  e_parent_id e = None
  \/ lookup_element st k = Some e.
Proof.
  intros Hok (r & Hr & Hobj)%lookup_element_Some.
  rewrite create_context_diagram_run in Hr, Hobj.
  cbn [fst elements element_objs] in Hr, Hobj.
  rewrite lookup_insert in Hr. case_decide as Hk.
  - left. injection Hr as <-. rewrite list_lookup_middle in Hobj by done.
    injection Hobj as <-. auto.
  - right. destruct (ok_keys st Hok k r Hr) as (e0 & He0 & _).
    rewrite (lookup_app_l_Some _ _ _ _ He0) in Hobj. injection Hobj as <-.
    apply lookup_element_Some. eauto.
Qed.

Section Children.
  Context (what type : string) (level : C4Level) (description suffix pid : string)
          (infos : list Fields) (st : State) (p : eref) (ep : C4Element).
  Context (Hok : store_ok st) (Hget : elements st !! pid = Some p)
          (Hep : element_objs st !! p = Some ep).

Let st' := (create_child_diagram what type level description suffix pid infos st).1.
Let ids := ids_from (S (uuid_drawn st)) (length infos).

Lemma children_ids_fresh k : k ∈ ids -> elements st !! k = None.
Proof.
  intros (j & _ & ->)%elem_of_ids_from.
  destruct (ok_fresh st Hok (S (uuid_drawn st) + 2 * j)) as [H _]; [lia|].
  exact H.
Qed.

Lemma children_stored_not_new k r : elements st !! k = Some r -> k ∉ ids.
Proof. intros Hr Hin. apply children_ids_fresh in Hin. congruence. Qed.

Lemma children_lookup_new j k info :
  ids !! j = Some k -> infos !! j = Some info ->
  lookup_element st' k = Some (element_of type level pid k info).
Proof.
  intros Hj Hinfo. apply lookup_element_Some.
  exists (length (element_objs st) + j). subst st'.
  rewrite (create_child_diagram_full _ _ _ _ _ _ _ _ _ _ Hget Hep).
  cbn [elements element_objs]. fold ids. split.
  - apply store_children_in; [apply NoDup_ids_from|done].
  - rewrite lookup_app_r by (rewrite length_insert; lia).
    rewrite length_insert.
    replace (length (element_objs st) + j - length (element_objs st)) with j
      by lia.
    rewrite lookup_zip_with, Hj, Hinfo. done.
Qed.

Lemma children_lookup_parent :
  lookup_element st' pid = Some (with_children ids ep).
Proof.
  apply lookup_element_Some. exists p. subst st'.
  rewrite (create_child_diagram_full _ _ _ _ _ _ _ _ _ _ Hget Hep).
  cbn [elements element_objs]. fold ids.
  pose proof (lookup_lt_Some _ _ _ Hep) as Hlt. split.
  - rewrite store_children_notin; [done|]. by eapply children_stored_not_new.
  - rewrite lookup_app_l by (by rewrite length_insert).
    by rewrite list_lookup_insert_eq.
Qed.

Lemma children_lookup_other k e :
  k <> pid -> lookup_element st k = Some e -> lookup_element st' k = Some e.
Proof.
  intros Hne (r & Hr & Hobj)%lookup_element_Some.
  apply lookup_element_Some. exists r. subst st'.
  rewrite (create_child_diagram_full _ _ _ _ _ _ _ _ _ _ Hget Hep).
  cbn [elements element_objs]. fold ids.
  pose proof (lookup_lt_Some _ _ _ Hobj) as Hlt. split.
  - rewrite store_children_notin; [done|]. by eapply children_stored_not_new.
  - rewrite lookup_app_l by (by rewrite length_insert).
    rewrite list_lookup_insert_ne; [done|]. intros <-.
    destruct (ok_keys st Hok k p Hr) as (e1 & He1 & <-).
    destruct (ok_keys st Hok pid p Hget) as (e2 & He2 & <-). congruence.
Qed.

(** An element stored before is stored after, with the children it had. *)
Lemma children_lookup_old k e :
  lookup_element st k = Some e ->
  exists e', lookup_element st' k = Some e' /\
    fixed_fields e' = fixed_fields e /\
    forall c, c ∈ e_children e -> c ∈ e_children e'.
Proof.
  intros Hk. destruct (decide (k = pid)) as [->|Hne].
  - exists (with_children ids ep). split; [apply children_lookup_parent|].
    assert (e = ep) as ->.
    { apply lookup_element_Some in Hk as (r & Hr & Hobj). congruence. }
    split; [done|]. intros c Hc. simpl. apply elem_of_app. by left.
  - exists e. split; [by apply children_lookup_other|]. by split.
Qed.

(** The elements stored after the call. *)
Lemma children_lookup_inv k e' :
  lookup_element st' k = Some e' ->
  (exists j info, ids !! j = Some k /\ infos !! j = Some info /\
                  e' = element_of type level pid k info)
  \/ k = pid /\ e' = with_children ids ep
  \/ k <> pid /\ (k ∉ ids) /\ lookup_element st k = Some e'.
Proof.
  intros Hk'. destruct (decide (k ∈ ids)) as [Hin|Hnotin].
  - left. apply list_elem_of_lookup in Hin as [j Hj].
    assert (j < length infos) as Hlt.
    { apply lookup_lt_Some in Hj. subst ids. by rewrite length_ids_from in Hj. }
    destruct (lookup_lt_is_Some_2 infos j Hlt) as [info Hinfo].
    exists j, info. split; [done|]. split; [done|].
    rewrite (children_lookup_new j k info Hj Hinfo) in Hk'. congruence.
  - right. destruct (decide (k = pid)) as [->|Hne].
    + left. split; [done|]. rewrite children_lookup_parent in Hk'. congruence.
    + right. split; [done|]. split; [done|].
      destruct (lookup_element st k) as [e|] eqn:Hk.
      * rewrite (children_lookup_other k e Hne Hk) in Hk'. congruence.
      * exfalso. apply lookup_element_Some in Hk' as (r & Hr & Hobj).
        subst st'.
        rewrite (create_child_diagram_full _ _ _ _ _ _ _ _ _ _ Hget Hep) in Hr.
        cbn [elements] in Hr. fold ids in Hr.
        rewrite store_children_notin in Hr by done.
        destruct (ok_keys st Hok k r Hr) as (e & He & _).
        unfold lookup_element in Hk. rewrite Hr in Hk. simpl in Hk. congruence.
Qed.
End Children.

Lemma registered_step st st' :
  store_ok st -> registered st -> transition st st' -> registered st'.
Proof.
  intros Hok Hreg Htr.
  destruct Htr as [| |n d|what type level description suffix pid infos p ep
                      Hget Hep _|diagram d f t ds te Hd]; try exact Hreg.
  - rewrite create_context_diagram_run. intros r e.
    cbn [fst elements element_objs]. intros Hr.
    apply lookup_app_Some in Hr as [Hr|[Hlen Hr]].
    + rewrite lookup_insert_ne; [by apply Hreg|]. intros Heq.
      destruct (ok_fresh st Hok (uuid_drawn st)) as [_ HF]; [lia|].
      rewrite Heq, (Hreg r e Hr) in HF. discriminate.
    + destruct (r - length (element_objs st)) as [|?] eqn:Hsub; [|done].
      injection Hr as <-. cbn [e_id]. rewrite lookup_insert_eq. f_equal. lia.
  - rewrite (create_child_diagram_full _ _ _ _ _ _ _ _ _ _ Hget Hep).
    intros r e. cbn [elements element_objs]. intros Hr.
    pose proof (lookup_lt_Some _ _ _ Hep) as Hlt.
    apply lookup_app_Some in Hr as [Hr|[Hlen Hr]].
    + assert (exists e0, element_objs st !! r = Some e0 /\ e_id e = e_id e0)
        as (e0 & He0 & ->).
      { destruct (decide (p = r)) as [<-|Hne].
        - rewrite list_lookup_insert_eq in Hr by done. injection Hr as <-.
          by exists ep.
        - rewrite list_lookup_insert_ne in Hr by done. by exists e. }
      rewrite store_children_notin; [by apply Hreg|].
      eapply children_stored_not_new; [done|]. by apply Hreg.
    + rewrite length_insert in Hlen, Hr.
      apply lookup_zip_with_Some in Hr as (id & info & -> & Hid & Hinfo).
      cbn [e_id].
      rewrite (store_children_in _ _ _ _ _ (NoDup_ids_from _ _) Hid).
      f_equal. lia.
Qed.

Lemma diagrams_shown_add st st' D :
  diagrams_shown st ->
  diagram_objs st' = diagram_objs st ++ [D] ->
  length (element_objs st) <= length (element_objs st') ->
  d_elements D <> [] ->
  Forall (fun r => r < length (element_objs st')) (d_elements D) ->
  diagrams_shown st'.
Proof.
  intros Hsh Hdo Hlen Hne HD diagram d. rewrite Hdo.
  intros [Hd|[_ Hd]]%lookup_app_Some.
  - destruct (Hsh diagram d Hd) as [Hn Hall]. split; [done|].
    eapply Forall_impl; [exact Hall|]. intros r Hr. simpl in Hr. lia.
  - destruct (diagram - length (diagram_objs st)) as [|?]; [|done].
    by injection Hd as <-.
Qed.

Lemma diagrams_shown_step st st' :
  diagrams_shown st -> transition st st' -> diagrams_shown st'.
Proof.
  intros Hsh Htr.
  destruct Htr as [| |n d|what type level description suffix pid infos p ep
                      Hget Hep _|diagram d f t ds te Hd]; try exact Hsh.
  - rewrite create_context_diagram_run.
    eapply (diagrams_shown_add st); [done|reflexivity|..];
      cbn [fst element_objs d_elements]; rewrite ?length_app; simpl;
      [lia|done|].
    constructor; [lia|constructor].
  - rewrite (create_child_diagram_full _ _ _ _ _ _ _ _ _ _ Hget Hep).
    pose proof (lookup_lt_Some _ _ _ Hep) as Hlt.
    eapply (diagrams_shown_add st); [done|reflexivity|..];
      cbn [element_objs d_elements];
      rewrite ?length_app, ?length_insert, ?length_zip_with, ?length_ids_from,
        ?Nat.min_id; [lia|done|].
    constructor; [lia|]. apply Forall_forall.
    intros r Hr%elem_of_seq. lia.
  - intros diagram' d'. cbn [diagram_objs element_objs].
    destruct (decide (diagram = diagram')) as [<-|Hne].
    + rewrite list_lookup_insert_eq by (by eapply lookup_lt_Some).
      intros [= <-]. cbn [d_elements set_updated_at append_relationship].
      by apply (Hsh diagram d).
    + rewrite list_lookup_insert_ne by done. apply Hsh.
Qed.

Lemma transition_values st st' :
  diagrams_ok st -> transition st st' ->
  forall v, v ∈ odict.values (diagrams st) -> v ∈ odict.values (diagrams st').
Proof.
  intros [_ F] Htr v Hv.
  destruct Htr as [| |n d|what type level description suffix pid infos p ep
                      Hget Hep _|diagram d f t ds te Hd]; try exact Hv.
  - rewrite create_context_diagram_run. cbn [fst diagrams].
    rewrite odict_values_set_fresh by (apply F; lia).
    apply elem_of_app. by left.
  - rewrite (create_child_diagram_full _ _ _ _ _ _ _ _ _ _ Hget Hep).
    cbn [diagrams].
    rewrite odict_values_set_fresh by (apply F; lia).
    apply elem_of_app. by left.
Qed.

Lemma shown_first_mono st st' k :
  objects_grown st st' ->
  (forall v, v ∈ odict.values (diagrams st) -> v ∈ odict.values (diagrams st')) ->
  shown_first st k -> shown_first st' k.
Proof.
  intros [HE HD] Hv (diagram & d & r & rest & e & Hin & Hd & Hels & He & Hid).
  destruct (HD diagram d Hd) as (d' & Hd' & _ & _ & _ & Hels' & _).
  destruct (HE r e He) as (e' & He' & Hfix & _).
  exists diagram, d', r, rest, e'.
  split; [by apply Hv|]. split; [done|]. split; [congruence|].
  split; [done|].
  apply (f_equal e_id) in Hfix. simpl in Hfix. congruence.
Qed.

(** A step after which the elements that have children are elements that
    were stored before. *)
Lemma explored_frame st st' :
  objects_grown st st' ->
  (forall v, v ∈ odict.values (diagrams st) -> v ∈ odict.values (diagrams st')) ->
  (forall k e, lookup_element st' k = Some e -> e_children e <> [] ->
               lookup_element st k = Some e) ->
  explored st -> explored st'.
Proof.
  intros Hg Hv Hold Hex k e Hk Hc.
  apply (shown_first_mono st st' k Hg Hv).
  apply (Hex k e); [by apply Hold|done].
Qed.

Lemma explored_step st st' :
  store_ok st -> diagrams_ok st -> objects_grown st st' ->
  explored st -> transition st st' -> explored st'.
Proof.
  intros Hok Hdk Hg Hex Htr.
  pose proof (transition_values st st' Hdk Htr) as Hv.
  destruct Htr as [| |n d|what type level description suffix pid infos p ep
                      Hget Hep _|diagram d f t ds te Hd]; try exact Hex.
  - apply (explored_frame st _ Hg Hv); [|done]. intros k e Hk Hc.
    by destruct (create_context_lookup_inv n d st k e Hok Hk) as [(_ & ? & _)|?].
  - intros k e' Hk Hc.
    destruct (children_lookup_inv what type level description suffix pid infos
                st p ep Hok Hget Hep k e' Hk)
      as [(j & info & _ & _ & ->)|[[-> ->]|(Hne & _ & Hold)]]; [done| |].
    + rewrite (create_child_diagram_full _ _ _ _ _ _ _ _ _ _ Hget Hep).
      pose proof (lookup_lt_Some _ _ _ Hep) as Hlt.
      destruct (ok_keys st Hok pid p Hget) as (ep' & Hep' & Hid).
      eexists (length (diagram_objs st)), _, p, _, _.
      cbn [diagrams diagram_objs element_objs].
      split; [eapply odict_get_values, odict_get_set_eq|].
      split; [by apply list_lookup_middle|].
      split; [reflexivity|]. split.
      * rewrite lookup_app_l by (by rewrite length_insert).
        by apply list_lookup_insert_eq.
      * simpl. congruence.
    + apply (shown_first_mono st _ k Hg Hv). by apply (Hex k e').
  - apply (explored_frame st _ Hg Hv); [|done]. intros k e Hk _. exact Hk.
Qed.

(** ** Parents, kinds and relationship identifiers *)

Lemma listed_by_parent_step st st' :
  store_ok st -> children_are child_of st -> listed_by_parent st ->
  transition st st' -> listed_by_parent st'.
Proof.
  intros Hok Hch Hl Htr.
  destruct Htr as [| |n d|what type level description suffix pid infos p ep
                      Hget Hep _|diagram d f t ds te Hd]; try exact Hl.
  - intros k e Hk.
    destruct (create_context_lookup_inv n d st k e Hok Hk)
      as [(_ & Hc & Hp)|Hold].
    { rewrite Hc, Hp. split; [constructor|done]. }
    destruct (Hl k e Hold) as [Hnd Hparent]. split; [done|].
    intros pp Hpp. destruct (Hparent pp Hpp) as (parent & Hlp & Hin).
    exists parent. split; [by apply create_context_lookup_old|done].
  - assert (lookup_element st pid = Some ep) as Hlp
      by (apply lookup_element_Some; eauto).
    intros k e' Hk.
    destruct (children_lookup_inv what type level description suffix pid infos
                st p ep Hok Hget Hep k e' Hk)
      as [(j & info & Hj & _ & ->)|[[-> ->]|(Hne & _ & Hold)]].
    + split; [constructor|]. intros pp [= <-].
      exists (with_children (ids_from (S (uuid_drawn st)) (length infos)) ep).
      split; [by apply (children_lookup_parent what type level description
                          suffix pid infos st p ep Hok Hget Hep)|].
      simpl. apply elem_of_app. right. by eapply list_elem_of_lookup_2.
    + destruct (Hl pid ep Hlp) as [Hnd Hparent]. split.
      * simpl. apply NoDup_app. split; [done|]. split; [|apply NoDup_ids_from].
        intros c Hc. destruct (Hch pid ep c Hlp Hc) as (ce & Hce & _).
        apply lookup_element_Some in Hce as (r & Hr & _).
        by eapply children_stored_not_new.
      * intros pp Hpp. destruct (Hparent pp Hpp) as (parent & Hlpp & Hin).
        destruct (children_lookup_old what type level description suffix pid
                    infos st p ep Hok Hget Hep pp parent Hlpp)
          as (parent' & Hparent' & _ & Hsub).
        exists parent'. split; [done|]. by apply Hsub.
    + destruct (Hl k e' Hold) as [Hnd Hparent]. split; [done|].
      intros pp Hpp. destruct (Hparent pp Hpp) as (parent & Hlpp & Hin).
      destruct (children_lookup_old what type level description suffix pid
                  infos st p ep Hok Hget Hep pp parent Hlpp)
        as (parent' & Hparent' & _ & Hsub).
      exists parent'. split; [done|]. by apply Hsub.
Qed.

Lemma well_kinded_with_children cs e :
  well_kinded e -> well_kinded (with_children cs e).
Proof. by intros H. Qed.

Lemma kinds_step st st' :
  store_ok st -> Forall well_kinded (element_objs st) -> transition st st' ->
  Forall well_kinded (element_objs st').
Proof.
  intros Hok Hk Htr.
  destruct Htr as [| |n d|what type level description suffix pid infos p ep
                      Hget Hep Hkind|diagram d f t ds te Hd]; try exact Hk.
  - rewrite create_context_diagram_run. cbn [fst element_objs].
    apply Forall_app. split; [done|]. constructor; [|constructor].
    split; [done|]. split; [done|]. by left.
  - rewrite (create_child_diagram_full _ _ _ _ _ _ _ _ _ _ Hget Hep).
    cbn [element_objs]. apply Forall_app. split.
    + apply Forall_insert; [done|]. apply well_kinded_with_children.
      by eapply (Forall_lookup_1 _ _ _ _ Hk).
    + apply Forall_lookup. intros i e.
      intros (id & info & -> & Hid & _)%lookup_zip_with_Some.
      split; [done|]. split.
      { cbn [e_parent_id e_id element_of]. intros [= ->].
        eapply (children_stored_not_new infos st Hok); [exact Hget|].
        by eapply list_elem_of_lookup_2. }
      right.
      destruct Hkind as [[-> ->]|[-> ->]]; [left|right];
        (split; [done|]; split; [done|]; by eexists).
Qed.

Lemma implicit_relationship_ids description pid a b n :
  map r_id (zip_with (implicit_relationship description pid)
              (ids_from a n) (ids_from b n))
  = ids_from a n.
Proof.
  revert a b. induction n as [|n IH]; intros a b; simpl; [done|].
  by rewrite IH.
Qed.

Lemma relationship_ids_add st st' D :
  relationship_ids_ok st ->
  diagram_objs st' = diagram_objs st ++ [D] ->
  uuid_drawn st <= uuid_drawn st' ->
  NoDup (map r_id (d_relationships D)) ->
  Forall (fun rel => exists n, n < uuid_drawn st' /\ r_id rel = uuid_str n)
    (d_relationships D) ->
  relationship_ids_ok st'.
Proof.
  intros Hrel Hdo Hu Hnd HD diagram d. rewrite Hdo.
  intros [Hd|[_ Hd]]%lookup_app_Some.
  - destruct (Hrel diagram d Hd) as [Hn Hall]. split; [done|].
    eapply Forall_impl; [exact Hall|]. intros rel (n & Hn' & Hid).
    exists n. split; [lia|done].
  - destruct (diagram - length (diagram_objs st)) as [|?]; [|done].
    by injection Hd as <-.
Qed.

Lemma relationship_ids_step st st' :
  relationship_ids_ok st -> transition st st' -> relationship_ids_ok st'.
Proof.
  intros Hrel Htr.
  destruct Htr as [| |n d|what type level description suffix pid infos p ep
                      Hget Hep _|diagram d f t ds te Hd].
  - done.
  - intros diagram d Hd. destruct (Hrel diagram d Hd) as [Hn Hall].
    split; [done|]. eapply Forall_impl; [exact Hall|].
    intros rel (n & Hn' & Hid). exists n. cbn. split; [lia|done].
  - rewrite create_context_diagram_run.
    eapply (relationship_ids_add st); [done|reflexivity|..];
      cbn [fst uuid_drawn d_relationships]; [lia|constructor|constructor].
  - rewrite (create_child_diagram_full _ _ _ _ _ _ _ _ _ _ Hget Hep).
    eapply (relationship_ids_add st); [done|reflexivity|..];
      cbn [uuid_drawn d_relationships]; [lia| |].
    + rewrite implicit_relationship_ids. apply NoDup_ids_from.
    + apply Forall_forall. intros rel Hin.
      assert (r_id rel ∈ ids_from (S (S (uuid_drawn st))) (length infos))
        as (j & Hj & Hid)%elem_of_ids_from.
      { rewrite <- (implicit_relationship_ids description pid _
                      (S (uuid_drawn st))).
        apply list_elem_of_fmap. eauto. }
      eexists. split; [|exact Hid]. lia.
  - intros diagram' d'. cbn [diagram_objs uuid_drawn].
    destruct (decide (diagram = diagram')) as [<-|Hne].
    + rewrite list_lookup_insert_eq by (by eapply lookup_lt_Some).
      intros [= <-]. destruct (Hrel diagram d Hd) as [Hn Hall].
      cbn [d_relationships set_updated_at append_relationship].
      rewrite map_app. cbn [map r_id]. split.
      * apply NoDup_app. split; [done|]. split; [|apply NoDup_singleton].
        intros id (rel & -> & Hin)%list_elem_of_fmap.
        rewrite list_elem_of_singleton.
        destruct (proj1 (Forall_forall _ _) Hall rel Hin) as (n & Hlt & ->).
        apply uuid_str_ne. lia.
      * apply Forall_app. split.
        -- eapply Forall_impl; [exact Hall|].
           intros rel (n & Hn' & Hid). exists n. split; [lia|done].
        -- constructor; [|constructor]. exists (uuid_drawn st). split; [lia|done].
    + rewrite list_lookup_insert_ne by done. intros Hd'.
      destruct (Hrel diagram' d' Hd') as [Hn Hall]. split; [done|].
      eapply Forall_impl; [exact Hall|].
      intros rel (n & Hn' & Hid). exists n. split; [lia|done].
Qed.

(** ** Reachable states *)

Lemma add_relationship_miss diagram_id f t ds te st :
  odict.get diagram_id (diagrams st) = None ->
  add_relationship diagram_id f t ds te st = (st, Return false).
Proof.
  intros Hnone. unfold add_relationship. run_state. by rewrite Hnone.
Qed.

Lemma add_relationship_hit diagram_id f t ds te st diagram d :
  odict.get diagram_id (diagrams st) = Some diagram ->
  diagram_objs st !! diagram = Some d ->
  add_relationship diagram_id f t ds te st =
  (mkState (diagrams st) (elements st) (element_objs st)
     (<[diagram :=
          set_updated_at (clock st)
            (append_relationship
               (mkRelationship (uuid_str (uuid_drawn st)) f t ds te) d)]>
        (diagram_objs st))
     (S (uuid_drawn st)) (S (clock st)),
   Return true).
Proof.
  intros Hsome Hd. unfold add_relationship. run_state. rewrite Hsome.
  by erewrite alter_alter_insert.
Qed.

Lemma find_exists {A} (p : A -> bool) (l : list A) x :
  x ∈ l -> p x = true -> exists y, find p l = Some y.
Proof.
  intros Hin Hp. destruct (find p l) as [y|] eqn:Hfind; [by eexists|].
  apply list_elem_of_In in Hin. pose proof (find_none _ _ Hfind x Hin).
  congruence.
Qed.

Lemma shown_first_shows st k :
  shown_first st k ->
  exists diagram, diagram ∈ odict.values (diagrams st) /\
                  shows_first st k diagram = true.
Proof.
  intros (diagram & d & r & rest & e & Hin & Hd & Hels & He & Hid).
  exists diagram. split; [done|].
  unfold shows_first, diagram_at, element_at. rewrite Hd. simpl.
  rewrite Hels, He. simpl. by apply String.eqb_eq.
Qed.

(** In a consistent state whose elements with children are all shown first
    by a stored diagram, [drill_down] writes nothing: it returns [None] for
    an element that is not stored or has no children, and otherwise the
    first stored diagram that shows the element first. *)
Lemma drill_down_explored st element_id :
  store_ok st -> explored st ->
  exists result,
    drill_down element_id st = (st, Return result) /\
    match lookup_element st element_id with
    | None => result = None
    | Some e =>
        match e_children e with
        | [] => result = None
        | _ :: _ =>
            exists diagram,
              result = Some diagram /\
              find (shows_first st element_id) (odict.values (diagrams st))
                = Some diagram /\
              diagram ∈ odict.values (diagrams st) /\
              shows_first st element_id diagram = true
        end
    end.
Proof.
  intros Hok Hex. unfold lookup_element.
  destruct (elements st !! element_id) as [r|] eqn:Hget; simpl.
  2: { exists None. split; [by apply drill_down_missing|done]. }
  destruct (ok_keys st Hok element_id r Hget) as (e & He & Hid). rewrite He.
  assert (element_at st r = e) as Hat by (unfold element_at; by rewrite He).
  destruct (e_children e) as [|c cs] eqn:Hc.
  { exists None. split; [|done]. eapply drill_down_leaf; [done|congruence]. }
  destruct (shown_first_shows st element_id) as (diagram0 & Hin0 & Hs0).
  { apply (Hex element_id e); [|congruence].
    apply lookup_element_Some. eauto. }
  destruct (find_exists _ _ _ Hin0 Hs0) as [diagram Hfind].
  exists (Some diagram). split.
  - eapply drill_down_reuse; [done| |done]. congruence.
  - exists diagram. split; [done|]. split; [done|].
    apply find_some in Hfind as [Hin Hs]. split; [|done].
    by apply list_elem_of_In.
Qed.

(** Every call of [drill_down] leaves the state as it is or constructs a
    diagram for a stored element. *)
Lemma drill_down_steps st element_id :
  (drill_down element_id st).1 = st \/
  exists element, elements st !! element_id = Some element /\
                  (drill_down element_id st).1 = detailed st element.
Proof.
  destruct (elements st !! element_id) as [element|] eqn:Hget.
  2: { left. by rewrite drill_down_missing. }
  destruct (e_children (element_at st element)) as [|c cs] eqn:Hc.
  { left. by rewrite (drill_down_leaf st element_id element Hget Hc). }
  assert (e_children (element_at st element) <> []) as Hsome by congruence.
  destruct (find (shows_first st element_id) (odict.values (diagrams st)))
    as [diagram|] eqn:Hfind.
  { left.
    by rewrite (drill_down_reuse st element_id element diagram Hget Hsome Hfind). }
  destruct (omap (fun c => elements st !! c) (e_children (element_at st element)))
    as [|r rs] eqn:Hknown.
  { left.
    by rewrite (drill_down_unknown_children st element_id element Hget Hfind
                  Hknown). }
  right. exists element. split; [done|].
  rewrite (drill_down_build st element_id element Hget Hsome Hfind)
    by (rewrite Hknown; discriminate).
  unfold detailed. by rewrite Hknown.
Qed.

(** Every call, from a consistent state, makes one of the steps. *)
Lemma exec_steps c st :
  store_ok st -> diagrams_ok st ->
  transition st (exec c st) \/ irregular st (exec c st).
Proof.
  intros Hok Hdk.
  destruct c as [n d|pid infos|pid infos|diagram_id f t ds te|i]; simpl.
  - left. constructor.
  - rewrite create_container_diagram_run.
    destruct (elements st !! pid) as [p|] eqn:Hget.
    + destruct (ok_keys st Hok pid p Hget) as (ep & Hep & _).
      destruct (read_infos infos).2 as [e|].
      * right. eapply tr_interrupted; [done..|]. by left.
      * left. eapply tr_children; [done..|]. by left.
    + left. rewrite create_child_diagram_not_found by done. apply tr_bump.
  - rewrite create_component_diagram_run.
    destruct (elements st !! pid) as [p|] eqn:Hget.
    + destruct (ok_keys st Hok pid p Hget) as (ep & Hep & _).
      destruct (read_infos infos).2 as [e|].
      * right. eapply tr_interrupted; [done..|]. by right.
      * left. eapply tr_children; [done..|]. by right.
    + left. rewrite create_child_diagram_not_found by done. apply tr_bump.
  - left. destruct (odict.get diagram_id (diagrams st)) as [diagram|] eqn:Hget.
    + destruct (dk_keys st Hdk diagram_id diagram Hget) as (d & Hd & _).
      rewrite (add_relationship_hit _ _ _ _ _ _ _ _ Hget Hd).
      by apply tr_relationship.
    + rewrite add_relationship_miss by done. apply tr_same.
  - destruct (drill_down_steps st i) as [->|(element & Hget & ->)].
    + left. apply tr_same.
    + right. by eapply tr_details.
Qed.

(** A call that runs through, in a state whose elements with children are
    all shown first by a stored diagram, makes a regular step. *)
Lemma exec_transition c st :
  store_ok st -> diagrams_ok st -> explored st -> runs_through c st ->
  transition st (exec c st).
Proof.
  intros Hok Hdk Hex Hrun.
  destruct c as [n d|pid infos|pid infos|diagram_id f t ds te|i]; simpl in *.
  - constructor.
  - rewrite create_container_diagram_run in *.
    destruct (elements st !! pid) as [p|] eqn:Hget.
    + destruct (ok_keys st Hok pid p Hget) as (ep & Hep & _).
      destruct (read_infos infos).2 as [e|].
      * destruct Hrun as [diagram Hrun]; [by eexists|]. discriminate Hrun.
      * eapply tr_children; [done..|]. by left.
    + rewrite create_child_diagram_not_found by done. apply tr_bump.
  - rewrite create_component_diagram_run in *.
    destruct (elements st !! pid) as [p|] eqn:Hget.
    + destruct (ok_keys st Hok pid p Hget) as (ep & Hep & _).
      destruct (read_infos infos).2 as [e|].
      * destruct Hrun as [diagram Hrun]; [by eexists|]. discriminate Hrun.
      * eapply tr_children; [done..|]. by right.
    + rewrite create_child_diagram_not_found by done. apply tr_bump.
  - destruct (odict.get diagram_id (diagrams st)) as [diagram|] eqn:Hget.
    + destruct (dk_keys st Hdk diagram_id diagram Hget) as (d & Hd & _).
      rewrite (add_relationship_hit _ _ _ _ _ _ _ _ Hget Hd).
      by apply tr_relationship.
    + rewrite add_relationship_miss by done. apply tr_same.
  - destruct (drill_down_explored st i Hok Hex) as (result & -> & _).
    apply tr_same.
Qed.

Lemma generator_ok_init : generator_ok init.
Proof.
  split.
  - apply store_ok_init.
  - apply children_are_init.
  - split; [intros k r H; discriminate H|done].
  - intros r e H. cbn in H. by rewrite lookup_nil in H.
  - intros diagram d H. cbn in H. by rewrite lookup_nil in H.
  - intros k e (r & Hr & _)%lookup_element_Some. cbn in Hr.
    by rewrite lookup_empty in Hr.
  - constructor.
  - intros diagram d H. cbn in H. by rewrite lookup_nil in H.
Qed.

Lemma explored_init : explored init.
Proof.
  intros k e (r & Hr & _)%lookup_element_Some. cbn in Hr.
  by rewrite lookup_empty in Hr.
Qed.

(** The state a builder leaves when it raises inside its loop is
    consistent: its elements are those of the builder that ran through for
    the dictionaries read so far, its diagrams those of before. *)
Lemma interrupted_ok st what type level description suffix pid infos p ep :
  generator_ok st ->
  elements st !! pid = Some p ->
  element_objs st !! p = Some ep ->
  (type = "Container" /\ level = CONTAINER
   \/ type = "Component" /\ level = COMPONENT) ->
  let st' :=
    interrupted st
      (create_child_diagram what type level description suffix pid infos st).1 in
  diagrams_ok st' /\ registered st' /\ diagrams_shown st' /\
  listed_by_parent st' /\ Forall well_kinded (element_objs st') /\
  relationship_ids_ok st'.
Proof.
  intros [Hok Hch Hdk Hreg Hsh Hl Hk Hrel] Hget Hep Hkind.
  pose proof (create_child_diagram_full what type level description suffix pid
                infos st p ep Hget Hep) as Hfull. cbv zeta in Hfull.
  assert (transition st
            (create_child_diagram what type level description suffix pid
               infos st).1) as Htr by (by eapply tr_children).
  set (stc := (create_child_diagram what type level description suffix pid
                 infos st).1) in *.
  assert (uuid_drawn stc = S (uuid_drawn st) + 2 * length infos) as Hu
    by (by rewrite Hfull).
  assert (length (element_objs st) <= length (element_objs stc)) as Hlen.
  { rewrite Hfull. cbn [element_objs]. rewrite length_app, length_insert. lia. }
  intros st'. split; [|split; [|split; [|split; [|split]]]].
  - destruct Hdk as [K F]. split; [exact K|].
    intros n Hn. apply F. change (S (uuid_drawn stc) <= n) in Hn. lia.
  - exact (registered_step st stc Hok Hreg Htr).
  - intros diagram d Hd. destruct (Hsh diagram d Hd) as [Hne Hall].
    split; [done|]. eapply Forall_impl; [exact Hall|].
    intros r Hr. change (r < length (element_objs stc)). simpl in Hr. lia.
  - exact (listed_by_parent_step st stc Hok Hch Hl Htr).
  - exact (kinds_step st stc Hok Hk Htr).
  - intros diagram d Hd. destruct (Hrel diagram d Hd) as [Hnd Hall].
    split; [done|]. eapply Forall_impl; [exact Hall|].
    intros rel (n & Hn & Hid). exists n. split; [|done].
    change (n < S (uuid_drawn stc)). lia.
Qed.

(** The state [drill_down] leaves when it constructs a diagram is
    consistent. *)
Lemma detailed_ok st element_id element :
  generator_ok st ->
  elements st !! element_id = Some element ->
  let st' := detailed st element in
  diagrams_ok st' /\ registered st' /\ diagrams_shown st' /\
  listed_by_parent st' /\ Forall well_kinded (element_objs st') /\
  relationship_ids_ok st'.
Proof.
  intros [Hok Hch Hdk Hreg Hsh Hl Hk Hrel] Hget st'.
  split; [|split; [|split; [|split; [|split]]]].
  - eapply (diagrams_ok_add st); [done|reflexivity|reflexivity|reflexivity|].
    simpl. lia.
  - exact Hreg.
  - eapply (diagrams_shown_add st); [done|reflexivity|done|done|].
    cbn [d_elements element_objs st' detailed]. constructor.
    + destruct (ok_keys st Hok _ _ Hget) as (e & He & _).
      by apply lookup_lt_Some in He.
    + apply Forall_forall. intros r (c & _ & Hc)%list_elem_of_omap.
      destruct (ok_keys st Hok _ _ Hc) as (e & He & _).
      by apply lookup_lt_Some in He.
  - exact Hl.
  - exact Hk.
  - eapply (relationship_ids_add st); [done|reflexivity| | |].
    + simpl. lia.
    + constructor.
    + constructor.
Qed.

Lemma irregular_ok st st' :
  generator_ok st -> irregular st st' ->
  diagrams_ok st' /\ registered st' /\ diagrams_shown st' /\
  listed_by_parent st' /\ Forall well_kinded (element_objs st') /\
  relationship_ids_ok st'.
Proof.
  intros Hgen [what type level description suffix pid infos p ep Hget Hep Hkind
              |element_id element Hget].
  - by eapply interrupted_ok.
  - by eapply detailed_ok.
Qed.

Lemma exec_ok c st : generator_ok st -> generator_ok (exec c st).
Proof.
  intros Hgen. pose proof Hgen as [Hok Hch Hdk Hreg Hsh Hl Hk Hrel].
  destruct (exec_inv child_of c st child_of_stable Hok Hch
              (child_of_admitted c st Hok)) as [Hok' Hch'].
  destruct (exec_steps c st Hok Hdk) as [Htr|Htr].
  - split; try done.
    + by apply (diagrams_ok_step st).
    + by apply (registered_step st).
    + by apply (diagrams_shown_step st).
    + by apply (listed_by_parent_step st).
    + by apply (kinds_step st).
    + by apply (relationship_ids_step st).
  - destruct (irregular_ok st _ Hgen Htr) as (? & ? & ? & ? & ? & ?).
    by split.
Qed.

Lemma run_ok calls st : generator_ok st -> generator_ok (run calls st).
Proof.
  revert st. induction calls as [|c calls IH]; intros st Hok; [done|].
  simpl. by apply IH, exec_ok.
Qed.

Lemma reachable_ok st : reachable st -> generator_ok st.
Proof. intros [calls ->]. apply run_ok, generator_ok_init. Qed.

(** When every builder call runs through, every element with children is
    shown first by a stored diagram. *)
Lemma run_explored calls st :
  generator_ok st -> explored st -> all_run_through calls st ->
  explored (run calls st).
Proof.
  revert st. induction calls as [|c calls IH]; intros st Hgen Hex Hrun; [done|].
  destruct Hrun as [Hc Hrun]. simpl. apply IH; [by apply exec_ok| |done].
  destruct Hgen as [Hok _ Hdk _ _ _ _ _].
  apply (explored_step st); [done|done|apply exec_grown|done|].
  by apply exec_transition.
Qed.

Lemma regular_ok st : regular st -> generator_ok st /\ explored st.
Proof.
  intros (calls & Hrun & ->). split.
  - apply run_ok, generator_ok_init.
  - apply run_explored; [apply generator_ok_init|apply explored_init|done].
Qed.

Lemma payments_containers_reachable : reachable payments_containers.
Proof. exists payments_calls. vm_compute. reflexivity. Qed.

Lemma payments_containers_regular : regular payments_containers.
Proof.
  exists payments_calls. split; [|vm_compute; reflexivity].
  split; [exact I|]. split; [|exact I].
  intros _. eexists. vm_compute. reflexivity.
Qed.

(** X7: in every state the generator reaches by calls that run through
    (none is a call of a builder that raises although the element it is
    given is stored), [drill_down] writes nothing and constructs no diagram.
    It returns [None] exactly when the element is not stored or has no
    children; otherwise it returns the first diagram of the Diagram Store,
    in insertion order, whose first element is the element. *)
Theorem drill_down_reachable st element_id :
  regular st ->
  exists result,
    drill_down element_id st = (st, Return result) /\
    (result = None <->
     lookup_element st element_id = None \/
     exists e, lookup_element st element_id = Some e /\ e_children e = []) /\
    (forall diagram, result = Some diagram ->
       find (shows_first st element_id) (odict.values (diagrams st))
         = Some diagram /\
       is_Some (diagram_objs st !! diagram)).
Proof.
  intros [[Hok _ Hdk _ _ _ _ _] Hex]%regular_ok.
  destruct (drill_down_explored st element_id Hok Hex) as (result & Hrun & Hres).
  exists result. split; [done|].
  destruct (lookup_element st element_id) as [e|]; [|subst result].
  2: { split; [split; [by left|done]|done]. }
  destruct (e_children e) as [|c cs] eqn:Hc; [subst result|].
  { split; [split; [right; by exists e|done]|done]. }
  destruct Hres as (diagram & -> & Hfind & Hin & _). split.
  - split; [done|]. intros [?|(e' & [= <-] & ?)]; congruence.
  - intros ? [= <-]. split; [done|].
    destruct Hok as [_ _ D]. apply lookup_lt_is_Some. by apply D.
Qed.

Lemma drill_down_reachable_witness :
  drill_down "uuid-0_system" payments_containers
    = (payments_containers, Return (Some 0)) /\
  drill_down "uuid-2" payments_containers = (payments_containers, Return None) /\
  drill_down "nowhere" payments_containers = (payments_containers, Return None).
Proof.
  pose proof payments_containers_regular as Hreach.
  destruct (drill_down_reachable payments_containers "uuid-0_system" Hreach)
    as (r1 & H1 & _ & Hsome).
  destruct (drill_down_reachable payments_containers "uuid-2" Hreach)
    as (r2 & H2 & Hnone2 & _).
  destruct (drill_down_reachable payments_containers "nowhere" Hreach)
    as (r3 & H3 & Hnone3 & _).
  rewrite H1, H2, H3. split; [|split].
  - destruct r1 as [diagram|].
    + destruct (Hsome diagram eq_refl) as [Hfind _].
      vm_compute in Hfind. by injection Hfind as <-.
    + apply (f_equal snd) in H1. vm_compute in H1. discriminate H1.
  - rewrite (proj2 Hnone2); [done|]. right. eexists. split; vm_compute; reflexivity.
  - rewrite (proj2 Hnone3); [done|]. left. vm_compute. reflexivity.
Defined.

(** The condition on the calls is needed: after a builder that raised
    inside its loop for a container, the container lists a child and no
    stored diagram shows it first, and [drill_down] constructs and stores a
    diagram for it. *)
Lemma drill_down_after_interrupted_builder :
  let st :=
    exec (CreateComponentDiagram "uuid-2"
            [spec_dict (mkSpec "Handler" None None None); []])
      payments_containers in
  reachable st /\
  e_children <$> lookup_element st "uuid-2" = Some ["uuid-7"] /\
  length (diagram_objs st) = 2 /\
  (drill_down "uuid-2" st).2 = Return (Some 2) /\
  odict.get "uuid-10" (diagrams (drill_down "uuid-2" st).1) = Some 2.
Proof.
  split.
  - exists (payments_calls
            ++ [CreateComponentDiagram "uuid-2"
                  [spec_dict (mkSpec "Handler" None None None); []]]).
    vm_compute. reflexivity.
  - vm_compute. by repeat split.
Qed.

Lemma hierarchy_elements_eq st d :
  fold_left
    (fun infos element => infos ++ [element_info (element_at st element)])
    (d_elements d) []
  = map (fun r => element_info (element_at st r)) (d_elements d).
Proof. by rewrite fold_left_snoc. Qed.

(** The elements of a stored diagram, in a state of the generator. *)
Lemma stored_diagram_elements st diagram_id diagram r :
  generator_ok st ->
  odict.get diagram_id (diagrams st) = Some diagram ->
  r ∈ d_elements (diagram_at st diagram) ->
  exists e, element_objs st !! r = Some e /\ element_at st r = e /\
            lookup_element st (e_id e) = Some e.
Proof.
  intros [Hok _ Hdk Hreg Hsh _ _ _] Hget Hr.
  destruct (dk_keys st Hdk diagram_id diagram Hget) as (d & Hd & _).
  unfold diagram_at in Hr. rewrite Hd in Hr. simpl in Hr.
  destruct (Hsh diagram d Hd) as [_ Hall].
  pose proof (proj1 (Forall_forall _ _) Hall r Hr) as Hlt. simpl in Hlt.
  apply lookup_lt_is_Some in Hlt as [e He].
  exists e. split; [done|]. split; [unfold element_at; by rewrite He|].
  apply lookup_element_Some. exists r. split; [by apply Hreg|done].
Qed.

(** X8: in every state the generator reaches by calls that run through
    (none is a call of a builder that raises although the element it is
    given is stored), the entries of [get_diagram_hierarchy] describe stored
    elements, and the [has_children] of an entry tells whether [drill_down]
    into it returns a diagram: it does exactly when [has_children] is true,
    and then writes nothing. *)
Theorem has_children_iff_drill_down st diagram_id h info :
  regular st ->
  get_diagram_hierarchy st diagram_id = Some h ->
  info ∈ h_elements h ->
  exists e result,
    lookup_element st (i_id info) = Some e /\
    i_children info = e_children e /\
    drill_down (i_id info) st = (st, Return result) /\
    (i_has_children info = true <-> is_Some result).
Proof.
  intros [Hgen Hex]%regular_ok. unfold get_diagram_hierarchy.
  destruct (odict.get diagram_id (diagrams st)) as [diagram|] eqn:Hget; [|done].
  intros [= <-]. cbn [h_elements]. rewrite hierarchy_elements_eq.
  intros (r & -> & Hr)%list_elem_of_fmap.
  destruct (stored_diagram_elements st diagram_id diagram r Hgen Hget Hr)
    as (e & _ & -> & Hl).
  destruct Hgen as [Hok _ _ _ _ _ _ _].
  destruct (drill_down_explored st (e_id e) Hok Hex) as (result & Hrun & Hres).
  exists e, result. cbn [i_id i_children i_has_children element_info].
  split; [done|]. split; [done|]. split; [done|].
  rewrite Hl in Hres. destruct (e_children e) as [|c cs].
  - subst result. simpl. split; [done|]. by intros [? ?].
  - destruct Hres as (diagram' & -> & _). simpl. split; [by eexists|done].
Qed.

Lemma has_children_iff_drill_down_witness :
  exists h,
    get_diagram_hierarchy payments_containers "uuid-1" = Some h /\
    map i_has_children (h_elements h) = [true; false; false] /\
    (drill_down "uuid-0_system" payments_containers).2 = Return (Some 0) /\
    (drill_down "uuid-4" payments_containers).2 = Return None.
Proof.
  destruct (get_diagram_hierarchy payments_containers "uuid-1") as [h|] eqn:Hh;
    [|vm_compute in Hh; discriminate Hh].
  exists h. split; [done|].
  assert (h_elements h =
          [mkElementInfo "uuid-0_system" "Payments" "System" CONTEXT true
             ["uuid-2"; "uuid-4"];
           mkElementInfo "uuid-2" "API" "Container" CONTAINER false [];
           mkElementInfo "uuid-4" "Worker" "Container" CONTAINER false []])
    as Hels by (vm_compute in Hh; by injection Hh as <-).
  split; [by rewrite Hels|].
  destruct (has_children_iff_drill_down payments_containers "uuid-1" h
              (mkElementInfo "uuid-4" "Worker" "Container" CONTAINER false [])
              payments_containers_regular Hh)
    as (e & result & _ & _ & Hrun & _).
  { rewrite Hels. apply elem_of_cons. right. apply elem_of_cons. right.
    apply elem_of_cons. by left. }
  split; vm_compute; reflexivity.
Defined.

Lemma transition_keeps_keys st st' :
  store_ok st -> diagrams_ok st -> transition st st' ->
  (forall k r, elements st !! k = Some r -> elements st' !! k = Some r) /\
  (forall k r, odict.get k (diagrams st) = Some r ->
               odict.get k (diagrams st') = Some r).
Proof.
  intros Hok Hdk Htr.
  destruct Htr as [| |n d|what type level description suffix pid infos p ep
                      Hget Hep _|diagram d f t ds te Hd]; try done.
  - rewrite create_context_diagram_run. cbn [fst elements diagrams]. split.
    + intros k r Hr. rewrite lookup_insert_ne; [done|]. intros <-.
      destruct (ok_fresh st Hok (uuid_drawn st)) as [_ HF]; [lia|]. congruence.
    + intros k r Hr. rewrite odict_get_set_ne; [done|]. intros <-.
      rewrite (dk_fresh st Hdk (uuid_drawn st)) in Hr by lia. discriminate.
  - rewrite (create_child_diagram_full _ _ _ _ _ _ _ _ _ _ Hget Hep).
    cbn [elements diagrams]. split.
    + intros k r Hr. rewrite store_children_notin; [done|].
      by eapply children_stored_not_new.
    + intros k r Hr. rewrite odict_get_set_ne; [done|]. intros <-.
      rewrite (dk_fresh st Hdk (uuid_drawn st)) in Hr by lia. discriminate.
Qed.

Lemma irregular_keeps_keys st st' :
  store_ok st -> diagrams_ok st -> irregular st st' ->
  (forall k r, elements st !! k = Some r -> elements st' !! k = Some r) /\
  (forall k r, odict.get k (diagrams st) = Some r ->
               odict.get k (diagrams st') = Some r).
Proof.
  intros Hok Hdk [what type level description suffix pid infos p ep Hget Hep Hkind
                 |element_id element Hget].
  - split; [|done].
    assert (transition st
              (create_child_diagram what type level description suffix pid
                 infos st).1) as Htr by (by eapply tr_children).
    exact (proj1 (transition_keeps_keys st _ Hok Hdk Htr)).
  - split; [done|]. cbn [detailed diagrams].
    intros k r Hr. rewrite odict_get_set_ne; [done|]. intros <-.
    rewrite (dk_fresh st Hdk (uuid_drawn st)) in Hr by lia. discriminate.
Qed.

Lemma exec_keeps_keys c st :
  store_ok st -> diagrams_ok st ->
  (forall k r, elements st !! k = Some r -> elements (exec c st) !! k = Some r)
  /\ (forall k r, odict.get k (diagrams st) = Some r ->
                  odict.get k (diagrams (exec c st)) = Some r).
Proof.
  intros Hok Hdk. destruct (exec_steps c st Hok Hdk) as [Htr|Htr].
  - by apply transition_keeps_keys.
  - by apply irregular_keeps_keys.
Qed.

Lemma run_keeps_keys calls st :
  generator_ok st ->
  (forall k r, elements st !! k = Some r -> elements (run calls st) !! k = Some r)
  /\ (forall k r, odict.get k (diagrams st) = Some r ->
                  odict.get k (diagrams (run calls st)) = Some r).
Proof.
  revert st. induction calls as [|c calls IH]; intros st Hgen; [done|].
  pose proof (exec_ok c st Hgen) as Hgen'.
  destruct Hgen as [Hok _ Hdk _ _ _ _ _].
  destruct (exec_keeps_keys c st Hok Hdk) as [He Hd].
  destruct (IH (exec c st) Hgen') as [He' Hd']. simpl. split.
  - intros k r Hr. by apply He', He.
  - intros k r Hr. by apply Hd', Hd.
Qed.

(** X9: nothing is ever deleted or replaced.  From a state of the generator,
    whatever calls follow, an identifier that resolves in the Element Store
    keeps resolving to the same element, which keeps every field but
    [children], and an identifier that resolves in the Diagram Store keeps
    resolving to the same diagram, which keeps its identifier, level and
    elements. *)
Theorem stores_only_grow calls st :
  reachable st ->
  (forall k e, lookup_element st k = Some e ->
     elements (run calls st) !! k = elements st !! k /\
     exists e', lookup_element (run calls st) k = Some e' /\ element_grown e e')
  /\
  (forall k diagram, odict.get k (diagrams st) = Some diagram ->
     odict.get k (diagrams (run calls st)) = Some diagram /\
     d_id (diagram_at (run calls st) diagram) = k /\
     d_level (diagram_at (run calls st) diagram) = d_level (diagram_at st diagram) /\
     d_elements (diagram_at (run calls st) diagram)
       = d_elements (diagram_at st diagram)).
Proof.
  intros Hgen%reachable_ok.
  destruct (run_keeps_keys calls st Hgen) as [He Hd].
  destruct (run_grown calls st) as [HE HD]. split.
  - intros k e (r & Hr & Hobj)%lookup_element_Some.
    split; [by rewrite Hr; apply He|].
    destruct (HE r e Hobj) as (e' & He' & Hg). exists e'. split; [|done].
    apply lookup_element_Some. exists r. split; [by apply He|done].
  - intros k diagram Hget. split; [by apply Hd|].
    destruct (dk_keys st (g_diagrams st Hgen) k diagram Hget) as (d & Hdo & Hid).
    destruct (HD diagram d Hdo) as (d' & Hd' & Hid' & _ & Hlevel & Hels & _).
    unfold diagram_at. rewrite Hdo, Hd'. simpl. split; [congruence|done].
Qed.

Lemma stores_only_grow_witness :
  elements payments_database !! "uuid-0_system"
    = elements payments_containers !! "uuid-0_system" /\
  odict.get "uuid-1" (diagrams payments_database) = Some 1 /\
  d_elements (diagram_at payments_database 1)
    = d_elements (diagram_at payments_containers 1).
Proof.
  destruct (stores_only_grow
              [CreateContainerDiagram "uuid-0_system"
                 [spec_dict (mkSpec "Database" None None None)]]
              payments_containers payments_containers_reachable)
    as [He Hd].
  destruct (He "uuid-0_system" (element_at payments_containers 0))
    as [Hkey _]; [vm_compute; reflexivity|].
  destruct (Hd "uuid-1" 1) as (Hget & _ & _ & Hels); [vm_compute; reflexivity|].
  split; [exact Hkey|]. split; [exact Hget|exact Hels].
Defined.

(** X10: identifiers are unique.  In every state of the generator two
    element objects with the same identifier are the same object, every
    stored element and every stored diagram is stored under its own
    identifier, and the relationships of a diagram have pairwise distinct
    identifiers. *)
Theorem identifiers_are_unique st :
  reachable st ->
  (forall r1 r2 e1 e2,
     element_objs st !! r1 = Some e1 -> element_objs st !! r2 = Some e2 ->
     e_id e1 = e_id e2 -> r1 = r2) /\
  (forall k e, lookup_element st k = Some e -> e_id e = k) /\
  (forall k diagram, odict.get k (diagrams st) = Some diagram ->
     exists d, diagram_objs st !! diagram = Some d /\ d_id d = k) /\
  (forall diagram d, diagram_objs st !! diagram = Some d ->
     NoDup (map r_id (d_relationships d))).
Proof.
  intros [Hok _ Hdk Hreg _ _ _ Hrel]%reachable_ok. split; [|split; [|split]].
  - intros r1 r2 e1 e2 H1 H2 Hid.
    apply Hreg in H1, H2. rewrite Hid in H1. congruence.
  - intros k e (r & Hr & Hobj)%lookup_element_Some.
    destruct (ok_keys st Hok k r Hr) as (e' & He' & Hid). congruence.
  - apply (dk_keys st Hdk).
  - intros diagram d Hd. by destruct (Hrel diagram d Hd).
Qed.

Lemma identifiers_are_unique_witness :
  (forall k e, lookup_element payments_containers k = Some e -> e_id e = k) /\
  NoDup (map r_id (d_relationships (diagram_at payments_containers 1))).
Proof.
  destruct (identifiers_are_unique payments_containers
              payments_containers_reachable) as (_ & Hkeys & _ & Hrel).
  split; [exact Hkeys|].
  apply (Hrel 1). vm_compute. reflexivity.
Defined.

(** X11: the links between parents and children go both ways.  In every
    state of the generator, a stored element that has a [parent_id] is
    listed in the [children] of the element stored under that identifier,
    and no [children] list has an identifier twice. *)
Theorem children_list_their_parent st k e :
  reachable st ->
  lookup_element st k = Some e ->
  NoDup (e_children e) /\
  forall parent_id, e_parent_id e = Some parent_id ->
    exists parent,
      lookup_element st parent_id = Some parent /\
      e_id parent = parent_id /\
      k ∈ e_children parent.
Proof.
  intros [Hok _ _ _ _ Hl _ _]%reachable_ok Hk.
  destruct (Hl k e Hk) as [Hnd Hparent]. split; [done|].
  intros pp Hpp. destruct (Hparent pp Hpp) as (parent & Hlp & Hin).
  exists parent. split; [done|]. split; [|done].
  apply lookup_element_Some in Hlp as (r & Hr & Hobj).
  destruct (ok_keys st Hok pp r Hr) as (e' & He' & Hid). congruence.
Qed.

Lemma children_list_their_parent_witness :
  exists parent,
    lookup_element payments_containers "uuid-0_system" = Some parent /\
    "uuid-4" ∈ e_children parent /\ NoDup (e_children parent).
Proof.
  destruct (children_list_their_parent payments_containers "uuid-4"
              (element_at payments_containers 2) payments_containers_reachable)
    as [_ Hparent]; [vm_compute; reflexivity|].
  destruct (Hparent "uuid-0_system") as (parent & Hl & _ & Hin);
    [vm_compute; reflexivity|].
  exists parent. split; [exact Hl|]. split; [exact Hin|].
  destruct (children_list_their_parent payments_containers "uuid-0_system"
              parent payments_containers_reachable Hl) as [Hnd _].
  exact Hnd.
Defined.

(** X12: the generator constructs three kinds of element only.  In every
    state of the generator a stored element is a System of the Context level
    without parent, or a Container of the Container level with a parent, or
    a Component of the Component level with a parent; none is of the Code
    level, and its [relationships] list is empty. *)
Theorem elements_are_well_kinded st k e :
  reachable st ->
  lookup_element st k = Some e ->
  e_relationships e = [] /\ e_level e <> CODE /\
  (e_type e = "System" /\ e_level e = CONTEXT /\ e_parent_id e = None
   \/ e_type e = "Container" /\ e_level e = CONTAINER /\ is_Some (e_parent_id e)
   \/ e_type e = "Component" /\ e_level e = COMPONENT /\ is_Some (e_parent_id e)).
Proof.
  intros [_ _ _ _ _ _ Hk _]%reachable_ok (r & _ & Hobj)%lookup_element_Some.
  destruct (Forall_lookup_1 _ _ _ _ Hk Hobj) as (Hrel & _ & Hkind).
  split; [done|]. split; [|done].
  destruct Hkind as [(_ & -> & _)|[(_ & -> & _)|(_ & -> & _)]]; discriminate.
Qed.

Lemma elements_are_well_kinded_witness :
  exists e,
    lookup_element payments_containers "uuid-2" = Some e /\
    e_type e = "Container" /\ e_level e = CONTAINER /\
    e_parent_id e = Some "uuid-0_system".
Proof.
  exists (element_at payments_containers 1).
  assert (lookup_element payments_containers "uuid-2"
          = Some (element_at payments_containers 1)) as Hl
    by (vm_compute; reflexivity).
  destruct (elements_are_well_kinded payments_containers "uuid-2" _
              payments_containers_reachable Hl) as (_ & _ & Hkind).
  split; [exact Hl|]. vm_compute. by repeat split.
Defined.

(** X13: in every state of the generator, every stored diagram has at least
    one element, and every element of a stored diagram is the element the
    Element Store has under the same identifier. *)
Theorem diagram_elements_are_stored st diagram_id diagram :
  reachable st ->
  odict.get diagram_id (diagrams st) = Some diagram ->
  observed st diagram <> [] /\
  Forall (fun e => lookup_element st (e_id e) = Some e) (observed st diagram).
Proof.
  intros Hgen%reachable_ok Hget. split.
  - destruct (dk_keys st (g_diagrams st Hgen) diagram_id diagram Hget)
      as (d & Hd & _).
    destruct (g_shown st Hgen diagram d Hd) as [Hne _].
    unfold observed, diagram_at. rewrite Hd. simpl.
    by destruct (d_elements d).
  - unfold observed. apply Forall_fmap, Forall_forall. intros r Hr.
    destruct (stored_diagram_elements st diagram_id diagram r Hgen Hget Hr)
      as (e & _ & He & Hl). simpl. by rewrite He.
Qed.

Lemma diagram_elements_are_stored_witness :
  map e_id (observed payments_containers 1)
    = ["uuid-0_system"; "uuid-2"; "uuid-4"] /\
  Forall (fun e => lookup_element payments_containers (e_id e) = Some e)
    (observed payments_containers 1).
Proof.
  destruct (diagram_elements_are_stored payments_containers "uuid-1" 1
              payments_containers_reachable) as [_ Hall];
    [vm_compute; reflexivity|].
  split; [vm_compute; reflexivity|exact Hall].
Defined.

(** X14: in every state of the generator, [create_context_diagram] succeeds.
    The identifier of the diagram it returns and the identifier of its
    system, the former followed by [_system], were not in use; afterwards
    they resolve to the new diagram, of the Context level and without
    relationships, and to the new System element, the only element of the
    diagram.  Every other identifier resolves as before.  The hierarchy of
    the new diagram has one entry, without children, and [drill_down] on the
    new system returns [None]. *)
Theorem create_context_diagram_spec st system_name description :
  reachable st ->
  exists st' diagram,
    create_context_diagram system_name description st = (st', Return diagram) /\
    let d := diagram_at st' diagram in
    let system_id := d_id d +:+ "_system" in
    let system :=
      mkElement system_id system_name "System" CONTEXT description (Some "")
        [] [] None [] in
    odict.get (d_id d) (diagrams st) = None /\
    elements st !! system_id = None /\
    odict.get (d_id d) (diagrams st') = Some diagram /\
    d_name d = system_name +:+ " - Context" /\
    d_level d = CONTEXT /\
    d_relationships d = [] /\
    observed st' diagram = [system] /\
    lookup_element st' system_id = Some system /\
    (forall k, k <> system_id -> lookup_element st' k = lookup_element st k) /\
    (forall k, k <> d_id d ->
       odict.get k (diagrams st') = odict.get k (diagrams st)) /\
    get_diagram_hierarchy st' (d_id d)
      = Some (mkHierarchy (d_id d) (system_name +:+ " - Context") CONTEXT
                [mkElementInfo system_id system_name "System" CONTEXT false []]) /\
    drill_down system_id st' = (st', Return None).
Proof.
  intros Hgen%reachable_ok.
  pose proof (g_store st Hgen) as Hok. pose proof (g_diagrams st Hgen) as Hdk.
  rewrite create_context_diagram_run. eexists _, _. split; [reflexivity|].
  erewrite diagram_at_new by reflexivity. cbn [d_id d_name d_level d_relationships].
  set (st' := mkState _ _ _ _ _ _).
  assert (diagram_at st' (length (diagram_objs st))
          = mkDiagram (uuid_str (uuid_drawn st)) (system_name +:+ " - Context")
              CONTEXT [length (element_objs st)] [] (clock st) (S (clock st)))
    as Hd by (by apply diagram_at_new).
  assert (element_at st' (length (element_objs st))
          = mkElement (uuid_str (uuid_drawn st) +:+ "_system") system_name
              "System" CONTEXT description (Some "") [] [] None [])
    as He by (by apply element_at_new).
  destruct (ok_fresh st Hok (uuid_drawn st)) as [_ Hfresh]; [lia|].
  split; [apply (dk_fresh st Hdk); lia|]. split; [done|].
  split; [apply odict_get_set_eq|]. do 3 (split; [done|]).
  split; [unfold observed; rewrite Hd; simpl; by rewrite He|].
  split.
  { apply lookup_element_Some. exists (length (element_objs st)).
    split; [apply lookup_insert_eq|by apply list_lookup_middle]. }
  split.
  { intros k Hne. unfold lookup_element. cbn [elements element_objs st'].
    rewrite lookup_insert_ne by done.
    destruct (elements st !! k) as [r|] eqn:Hr; [|done]. simpl.
    destruct (ok_keys st Hok k r Hr) as (e & Hobj & _).
    rewrite Hobj. by apply lookup_app_l_Some. }
  split; [intros k Hne; by apply odict_get_set_ne|].
  split.
  { unfold get_diagram_hierarchy. cbn [diagrams st'].
    rewrite odict_get_set_eq, Hd. simpl. by rewrite He. }
  eapply drill_down_leaf; [apply lookup_insert_eq|by rewrite He].
Qed.

Lemma create_context_diagram_spec_witness :
  exists st' diagram,
    create_context_diagram "Payments" "handles billing" init
      = (st', Return diagram) /\
    d_id (diagram_at st' diagram) = "uuid-0" /\
    map e_id (observed st' diagram) = ["uuid-0_system"] /\
    drill_down "uuid-0_system" st' = (st', Return None).
Proof.
  destruct (create_context_diagram_spec init "Payments" "handles billing")
    as (st' & diagram & Hrun & _ & _ & _ & _ & _ & _ & Hobs & _ & _ & _ & _ & Hdrill).
  { by exists []. }
  exists st', diagram. split; [exact Hrun|].
  apply (f_equal fst) in Hrun as Hst. apply (f_equal snd) in Hrun as Hres.
  vm_compute in Hst, Hres. injection Hres as <-. subst st'.
  split; [vm_compute; reflexivity|]. split; [vm_compute; reflexivity|].
  exact Hdrill.
Defined.

Lemma find_ext_in {A} (p q : A -> bool) (l : list A) :
  (forall x, x ∈ l -> p x = q x) -> find p l = find q l.
Proof.
  induction l as [|a l IH]; intros H; [done|]. simpl.
  rewrite (H a) by (by left). destruct (q a); [done|].
  apply IH. intros x Hx. apply H. by right.
Qed.

Lemma find_app_Some {A} (p : A -> bool) (l l' : list A) x :
  find p l = Some x -> find p (l ++ l') = Some x.
Proof.
  induction l as [|a l IH]; simpl; [done|]. by destruct (p a).
Qed.

Lemma find_app_None {A} (p : A -> bool) (l l' : list A) :
  find p l = None -> find p (l ++ l') = find p l'.
Proof.
  induction l as [|a l IH]; simpl; [done|]. by destruct (p a).
Qed.

(** Later calls do not change which element a diagram shows first. *)
Lemma shows_first_grown st st' k diagram :
  objects_grown st st' -> diagrams_shown st ->
  diagram < length (diagram_objs st) ->
  shows_first st' k diagram = shows_first st k diagram.
Proof.
  intros [HE HD] Hsh [d Hd]%lookup_lt_is_Some.
  destruct (HD diagram d Hd) as (d' & Hd' & _ & _ & _ & Hels & _).
  unfold shows_first, diagram_at. rewrite Hd, Hd'. simpl. rewrite Hels.
  destruct (d_elements d) as [|r rest] eqn:E; [done|].
  destruct (Hsh diagram d Hd) as [_ Hall]. rewrite E in Hall.
  apply Forall_cons_1 in Hall as [Hlt _].
  apply lookup_lt_is_Some in Hlt as [e He].
  destruct (HE r e He) as (e' & He' & Hfix & _).
  unfold element_at. rewrite He, He'. simpl.
  apply (f_equal e_id) in Hfix. simpl in Hfix. by rewrite Hfix.
Qed.

Lemma first_is_context_mono st st' extra k :
  store_ok st -> diagrams_shown st -> objects_grown st st' ->
  odict.values (diagrams st') = odict.values (diagrams st) ++ extra ->
  (forall r, elements st !! k = Some r -> elements st' !! k = Some r) ->
  first_is_context st k -> first_is_context st' k.
Proof.
  intros Hok Hsh Hg Hv Hkeep (diagram & d & r & Hfind & Hd & Hlevel & Hels & Hr).
  destruct (grown_diagrams st st' Hg diagram d Hd)
    as (d' & Hd' & _ & _ & Hlevel' & Hels' & _).
  exists diagram, d', r. split.
  - rewrite Hv. apply find_app_Some. rewrite <- Hfind. apply find_ext_in.
    intros v Hin. apply (shows_first_grown st st' k v Hg Hsh).
    by apply (ok_diagrams st Hok).
  - split; [done|]. split; [congruence|]. split; [congruence|]. by apply Hkeep.
Qed.

(** No stored diagram shows first an element that is not stored. *)
Lemma find_not_stored st st' k :
  store_ok st -> diagrams_shown st -> registered st -> objects_grown st st' ->
  elements st !! k = None ->
  find (shows_first st' k) (odict.values (diagrams st)) = None.
Proof.
  intros Hok Hsh Hreg Hg Hk.
  destruct (find (shows_first st' k) (odict.values (diagrams st)))
    as [diagram|] eqn:Hfind; [|done].
  apply find_some in Hfind as [Hin Hshow]. apply list_elem_of_In in Hin.
  rewrite (shows_first_grown st st' k diagram Hg Hsh) in Hshow
    by (by apply (ok_diagrams st Hok)).
  apply (ok_diagrams st Hok), lookup_lt_is_Some in Hin as [d Hd].
  unfold shows_first, diagram_at in Hshow. rewrite Hd in Hshow. simpl in Hshow.
  destruct (d_elements d) as [|r rest] eqn:E; [done|].
  destruct (Hsh diagram d Hd) as [_ Hall]. rewrite E in Hall.
  apply Forall_cons_1 in Hall as [Hlt _].
  apply lookup_lt_is_Some in Hlt as [e He].
  unfold element_at in Hshow. rewrite He in Hshow. simpl in Hshow.
  apply String.eqb_eq in Hshow. apply Hreg in He. congruence.
Qed.

Lemma systems_first_step st st' :
  generator_ok st -> objects_grown st st' -> systems_first st ->
  transition st st' -> systems_first st'.
Proof.
  intros [Hok Hch Hdk Hreg Hsh Hl Hkinds Hrel] Hg Hs Htr.
  destruct (transition_keeps_keys st st' Hok Hdk Htr) as [Hkeep _].
  destruct Htr as [| |n d|what type level description suffix pid infos p ep
                      Hget Hep _|diagram d f t ds te Hd]; try exact Hs.
  - intros k e Hk Hnone.
    destruct (create_context_lookup_inv n d st k e Hok Hk) as [(-> & _)|Hold].
    + destruct (ok_fresh st Hok (uuid_drawn st)) as [_ Hfresh]; [lia|].
      pose proof (find_not_stored st _ _ Hok Hsh Hreg Hg Hfresh) as Hfind.
      revert Hfind. rewrite create_context_diagram_run. cbn [fst]. intros Hfind.
      eexists (length (diagram_objs st)), _, (length (element_objs st)).
      cbn [diagrams diagram_objs elements].
      split; [|split; [by apply list_lookup_middle|]].
      * rewrite odict_values_set_fresh by (apply (dk_fresh st Hdk); lia).
        rewrite find_app_None by exact Hfind. simpl.
        unfold shows_first, diagram_at, element_at.
        cbn [diagram_objs element_objs].
        rewrite list_lookup_middle by done. simpl.
        rewrite list_lookup_middle by done. simpl.
        by rewrite String.eqb_refl.
      * split; [done|]. split; [done|]. by rewrite lookup_insert_eq.
    + apply (first_is_context_mono st _ [length (diagram_objs st)] k Hok Hsh Hg).
      * rewrite create_context_diagram_run. cbn [fst diagrams].
        apply odict_values_set_fresh, (dk_fresh st Hdk). lia.
      * apply Hkeep.
      * by apply (Hs k e).
  - intros k e' Hk Hnone.
    assert (exists e, lookup_element st k = Some e /\ e_parent_id e = None)
      as (e & Hold & Hnone').
    { destruct (children_lookup_inv what type level description suffix pid infos
                  st p ep Hok Hget Hep k e' Hk)
        as [(j & info & _ & _ & ->)|[[-> ->]|(Hne & _ & Hold)]]; [done| |].
      - exists ep. split; [|done]. apply lookup_element_Some. by exists p.
      - by exists e'. }
    apply (first_is_context_mono st _ [length (diagram_objs st)] k Hok Hsh Hg).
    + rewrite (create_child_diagram_full _ _ _ _ _ _ _ _ _ _ Hget Hep).
      cbn [diagrams].
      apply odict_values_set_fresh, (dk_fresh st Hdk). lia.
    + apply Hkeep.
    + by apply (Hs k e).
  - intros k e Hk Hnone.
    apply (first_is_context_mono st _ [] k Hok Hsh Hg).
    + cbn [diagrams]. by rewrite app_nil_r.
    + apply Hkeep.
    + by apply (Hs k e).
Qed.

Lemma systems_first_irregular st st' :
  generator_ok st -> objects_grown st st' -> systems_first st ->
  irregular st st' -> systems_first st'.
Proof.
  intros [Hok Hch Hdk Hreg Hsh Hl Hkinds Hrel] Hg Hs Htr.
  destruct (irregular_keeps_keys st st' Hok Hdk Htr) as [Hkeep _].
  destruct Htr as [what type level description suffix pid infos p ep
                     Hget Hep _|element_id element Hget].
  - intros k e' Hk Hnone.
    assert (exists e, lookup_element st k = Some e /\ e_parent_id e = None)
      as (e & Hold & Hnone').
    { destruct (children_lookup_inv what type level description suffix pid infos
                  st p ep Hok Hget Hep k e' Hk)
        as [(j & info & _ & _ & ->)|[[-> ->]|(Hne & _ & Hold)]]; [done| |].
      - exists ep. split; [|done]. apply lookup_element_Some. by exists p.
      - by exists e'. }
    apply (first_is_context_mono st _ [] k Hok Hsh Hg).
    + cbn [interrupted diagrams]. by rewrite app_nil_r.
    + apply Hkeep.
    + by apply (Hs k e).
  - intros k e Hk Hnone.
    apply (first_is_context_mono st _ [length (diagram_objs st)] k Hok Hsh Hg).
    + cbn [detailed diagrams].
      apply odict_values_set_fresh, (dk_fresh st Hdk). lia.
    + apply Hkeep.
    + by apply (Hs k e).
Qed.

Lemma run_systems_first calls st :
  generator_ok st -> systems_first st -> systems_first (run calls st).
Proof.
  revert st. induction calls as [|c calls IH]; intros st Hgen Hs; [done|].
  simpl. apply IH; [by apply exec_ok|].
  destruct (exec_steps c st (g_store st Hgen) (g_diagrams st Hgen)) as [Htr|Htr].
  - apply (systems_first_step st); [done|apply exec_grown|done|done].
  - apply (systems_first_irregular st); [done|apply exec_grown|done|done].
Qed.

Lemma reachable_systems_first st : reachable st -> systems_first st.
Proof.
  intros [calls ->]. apply run_systems_first; [apply generator_ok_init|].
  intros k e Hk. unfold lookup_element in Hk. cbn in Hk. done.
Qed.

(** X15: drilling down into a system never shows its containers.  In every
    state of the generator, for a stored element without parent that has
    children, [drill_down] returns a diagram of the Context level whose only
    element is that element: the diagram [create_context_diagram] stored
    with the system comes first in the search, before every container
    diagram of the system. *)
Theorem drill_down_system_returns_context st element_id e :
  reachable st ->
  lookup_element st element_id = Some e ->
  e_parent_id e = None ->
  e_children e <> [] ->
  exists diagram,
    drill_down element_id st = (st, Return (Some diagram)) /\
    d_level (diagram_at st diagram) = CONTEXT /\
    observed st diagram = [e].
Proof.
  intros Hreach Hk Hnone Hc.
  pose proof (reachable_ok st Hreach) as Hgen.
  destruct (reachable_systems_first st Hreach element_id e Hk Hnone)
    as (diagram & d & r & Hfind & Hd & Hlevel & Hels & Hr).
  apply lookup_element_Some in Hk as (r' & Hr' & Hobj).
  rewrite Hr in Hr'. injection Hr' as <-.
  assert (element_at st r = e) as Hat by (unfold element_at; by rewrite Hobj).
  exists diagram. split.
  - apply (drill_down_reuse st element_id r diagram Hr); [by rewrite Hat|done].
  - unfold observed, diagram_at. rewrite Hd. simpl. split; [done|].
    rewrite Hels. simpl. by rewrite Hat.
Qed.

Lemma drill_down_system_returns_context_witness :
  exists diagram,
    drill_down "uuid-0_system" payments_containers
      = (payments_containers, Return (Some diagram)) /\
    d_level (diagram_at payments_containers diagram) = CONTEXT /\
    map e_children (observed payments_containers diagram)
      = [["uuid-2"; "uuid-4"]].
Proof.
  destruct (drill_down_system_returns_context payments_containers
              "uuid-0_system" (element_at payments_containers 0)
              payments_containers_reachable)
    as (diagram & Hrun & Hlevel & Hobs);
    [vm_compute; reflexivity|vm_compute; reflexivity|vm_compute; discriminate|].
  exists diagram. split; [exact Hrun|]. split; [exact Hlevel|].
  rewrite Hobs. vm_compute. reflexivity.
Defined.

(** ** What the renderings keep *)

Lemma element_at_grown st st' r :
  objects_grown st st' -> r < length (element_objs st) ->
  e_id (element_at st' r) = e_id (element_at st r) /\
  e_name (element_at st' r) = e_name (element_at st r) /\
  e_type (element_at st' r) = e_type (element_at st r).
Proof.
  intros Hg [e He]%lookup_lt_is_Some.
  destruct (grown_elements st st' Hg r e He) as (e' & He' & Hfix & _).
  unfold element_at. rewrite He, He'. simpl.
  split; [|split].
  - by apply (f_equal e_id) in Hfix.
  - by apply (f_equal e_name) in Hfix.
  - by apply (f_equal e_type) in Hfix.
Qed.

Lemma first_with_id_grown st st' wanted els :
  objects_grown st st' ->
  Forall (fun r => r < length (element_objs st)) els ->
  first_with_id st' wanted els = first_with_id st wanted els.
Proof.
  intros Hg Hall. unfold first_with_id. apply find_ext_in. intros r Hr.
  destruct (element_at_grown st st' r Hg) as [-> _]; [|done].
  by apply (proj1 (Forall_forall _ _) Hall).
Qed.

(** X16: a diagram keeps its renderings, up to edges added at the end.  From
    a state of the generator, whatever calls follow, the relationships of a
    stored diagram are those it had followed by the added ones; its export
    in the [dot] format has the same node lines and the lines of the old
    relationships, then those of the added ones; its figure has the same
    title and the same nodes, with the same labels, colours and sizes, and
    the edges it had are the first edges it has. *)
Theorem renderings_only_gain_edges calls st diagram_id diagram highlighted_elements :
  reachable st ->
  odict.get diagram_id (diagrams st) = Some diagram ->
  let st' := run calls st in
  let d := diagram_at st diagram in
  exists added f f',
    d_relationships (diagram_at st' diagram) = d_relationships d ++ added /\
    _generate_dot_format st diagram =
      String.concat newline
        (dot_header ++ map node_line (observed st diagram)
         ++ map edge_line (d_relationships d) ++ ["}"]) /\
    _generate_dot_format st' diagram =
      String.concat newline
        (dot_header ++ map node_line (observed st diagram)
         ++ map edge_line (d_relationships d) ++ map edge_line added ++ ["}"]) /\
    generate_plotly_diagram st diagram_id highlighted_elements = Plotted f /\
    generate_plotly_diagram st' diagram_id highlighted_elements = Plotted f' /\
    f_title f' = f_title f /\
    f_node_text f' = f_node_text f /\
    f_node_colors f' = f_node_colors f /\
    f_node_sizes f' = f_node_sizes f /\
    f_edge_text f' =
      f_edge_text f
      ++ map r_description (List.filter (ends_shown st' (diagram_at st' diagram)) added).
Proof.
  intros Hgen%reachable_ok Hget st' d.
  destruct (dk_keys st (g_diagrams st Hgen) diagram_id diagram Hget)
    as (d0 & Hd0 & _).
  pose proof (run_grown calls st) as Hg. fold st' in Hg.
  destruct (grown_diagrams st st' Hg diagram d0 Hd0)
    as (d' & Hd' & _ & Hname & _ & Hels & _ & [added Hadded]).
  destruct (run_keeps_keys calls st Hgen) as [_ Hkeep].
  apply Hkeep in Hget as Hget'. fold st' in Hget'.
  destruct (g_shown st Hgen diagram d0 Hd0) as [_ Hall].
  assert (diagram_at st diagram = d0) as Hat by (unfold diagram_at; by rewrite Hd0).
  assert (diagram_at st' diagram = d') as Hat' by (unfold diagram_at; by rewrite Hd').
  subst d. rewrite Hat, Hat'.
  assert (forall r, r ∈ d_elements d0 ->
            e_id (element_at st' r) = e_id (element_at st r) /\
            e_name (element_at st' r) = e_name (element_at st r) /\
            e_type (element_at st' r) = e_type (element_at st r)) as Hsame.
  { intros r Hr. apply element_at_grown; [done|].
    by apply (proj1 (Forall_forall _ _) Hall). }
  assert (forall rel, ends_shown st' d' rel = ends_shown st d0 rel) as Hends.
  { intros rel. unfold ends_shown. rewrite Hels.
    by rewrite !(first_with_id_grown st st' _ _ Hg Hall). }
  destruct (plot_edges_ok st d0 (d_relationships d0) ([], []))
    as (ends & Hplot & _).
  destruct (plot_edges_ok st' d' (d_relationships d') ([], []))
    as (ends' & Hplot' & _).
  exists added. eexists _, _. split; [done|].
  unfold _generate_dot_format. rewrite !dot_lines_eq, Hat, Hat'.
  unfold observed. rewrite Hat, map_map. split; [done|]. split.
  { rewrite Hels, Hadded, map_app, <- app_assoc. do 2 f_equal.
    f_equal. apply map_ext_in. intros r Hr%list_elem_of_In.
    destruct (Hsame r Hr) as (Hid & Hn & Ht).
    unfold node_line. by rewrite Hid, Hn, Ht. }
  unfold generate_plotly_diagram. rewrite Hget, Hget', Hat, Hat'.
  rewrite !plot_nodes_eq, !length_map, Hplot, Hplot'. cbn [fst snd app].
  split; [reflexivity|]. split; [reflexivity|].
  cbn [f_title f_node_text f_node_colors f_node_sizes f_edge_text].
  split; [done|]. rewrite Hels.
  split; [|split; [|split]].
  - apply map_ext_in. intros r Hr%list_elem_of_In.
    destruct (Hsame r Hr) as (_ & Hn & Ht). by rewrite Hn, Ht.
  - apply map_ext_in. intros r Hr%list_elem_of_In.
    destruct (Hsame r Hr) as (Hid & _). by rewrite Hid.
  - apply map_ext_in. intros r Hr%list_elem_of_In.
    destruct (Hsame r Hr) as (Hid & _). by rewrite Hid.
  - rewrite Hadded, List.filter_app, map_app. f_equal. f_equal.
    apply List.filter_ext. intros rel. apply Hends.
Qed.

Lemma renderings_only_gain_edges_witness :
  exists f f',
    generate_plotly_diagram payments_containers "uuid-1" None = Plotted f /\
    generate_plotly_diagram payments_dangling "uuid-1" None = Plotted f' /\
    f_node_text f' = f_node_text f /\
    f_edge_text f' = f_edge_text f /\
    length (d_relationships (diagram_at payments_dangling 1)) = 3.
Proof.
  destruct (renderings_only_gain_edges
              [AddRelationship "uuid-1" "uuid-2" "elsewhere" "calls" "HTTP"]
              payments_containers "uuid-1" 1 None payments_containers_reachable)
    as (added & f & f' & Hadded & _ & _ & Hf & Hf' & _ & Htext & _ & _ & Hedges);
    [vm_compute; reflexivity|].
  exists f, f'. split; [exact Hf|]. split; [exact Hf'|]. split; [exact Htext|].
  assert (added = [mkRelationship "uuid-6" "uuid-2" "elsewhere" "calls" "HTTP"])
    as ->.
  { vm_compute in Hadded. by injection Hadded as <-. }
  split; [|vm_compute; reflexivity].
  rewrite Hedges.
  match goal with
  | |- _ ++ map _ ?l = _ => assert (l = []) as -> by (vm_compute; reflexivity)
  end.
  apply app_nil_r.
Defined.

(** ** The diagram [drill_down] returns *)










(** ** The elements of a diagram are distinct *)

Lemma shown_once_step st st' :
  shown_once st -> transition st st' -> shown_once st'.
Proof.
  intros Hs Htr.
  destruct Htr as [| |n d|what type level description suffix pid infos p ep
                      Hget Hep _|diagram d f t ds te Hd]; try exact Hs.
  - rewrite create_context_diagram_run. intros diagram d'. cbn [fst diagram_objs].
    intros [[_ Hold]|[_ <-]]%lookup_snoc_Some; [by apply (Hs diagram)|].
    apply NoDup_singleton.
  - rewrite (create_child_diagram_full _ _ _ _ _ _ _ _ _ _ Hget Hep).
    intros diagram d'. cbn [diagram_objs].
    intros [[_ Hold]|[_ <-]]%lookup_snoc_Some; [by apply (Hs diagram)|].
    cbn [d_elements]. apply NoDup_cons. split; [|apply NoDup_seq].
    rewrite elem_of_seq. apply lookup_lt_Some in Hep. lia.
  - intros diagram' d'. cbn [diagram_objs].
    destruct (decide (diagram = diagram')) as [<-|Hne].
    + rewrite list_lookup_insert_eq by (by eapply lookup_lt_Some).
      intros [= <-]. cbn [d_elements set_updated_at append_relationship].
      by apply (Hs diagram).
    + rewrite list_lookup_insert_ne by done. apply Hs.
Qed.

(** The stored children of an element are distinct objects. *)
Lemma stored_children_NoDup st cs :
  store_ok st -> NoDup cs -> NoDup (omap (fun c => elements st !! c) cs).
Proof.
  intros Hok. induction 1 as [|c cs Hnotin Hnd IH]; [constructor|].
  cbn [omap list_omap]. destruct (elements st !! c) as [r|] eqn:Hc; [|done].
  apply NoDup_cons. split; [|done].
  intros (c' & Hin & Hc')%list_elem_of_omap.
  destruct (ok_keys st Hok c r Hc) as (e & He & Hid).
  destruct (ok_keys st Hok c' r Hc') as (e' & He' & Hid').
  apply Hnotin. congruence.
Qed.

Lemma shown_once_irregular st st' :
  generator_ok st -> shown_once st -> irregular st st' -> shown_once st'.
Proof.
  intros [Hok Hch Hdk Hreg Hsh Hl Hkinds Hrel] Hs
    [what type level description suffix pid infos p ep Hget Hep _
    |element_id element Hget]; [exact Hs|].
  intros diagram d'. cbn [detailed diagram_objs].
  intros [[_ Hold]|[_ <-]]%lookup_snoc_Some; [by apply (Hs diagram)|].
  cbn [d_elements].
  destruct (ok_keys st Hok element_id element Hget) as (e & He & Hid).
  assert (element_at st element = e) as -> by (unfold element_at; by rewrite He).
  assert (lookup_element st element_id = Some e) as Hk.
  { apply lookup_element_Some. by exists element. }
  apply NoDup_cons. split.
  - intros (c & Hin & Hc)%list_elem_of_omap.
    destruct (ok_keys st Hok c element Hc) as (e' & He' & Hid').
    assert (c = element_id) as -> by congruence.
    destruct (Hch element_id e element_id Hk Hin) as (ce & Hce & Hchild).
    assert (ce = e) as -> by congruence.
    destruct (Forall_lookup_1 _ _ _ _ Hkinds He) as (_ & Hown & _).
    by apply Hown.
  - apply stored_children_NoDup; [done|]. by apply (Hl element_id e).
Qed.

Lemma run_shown_once calls st :
  generator_ok st -> shown_once st -> shown_once (run calls st).
Proof.
  revert st. induction calls as [|c calls IH]; intros st Hgen Hs; [done|].
  simpl. apply IH; [by apply exec_ok|].
  destruct (exec_steps c st (g_store st Hgen) (g_diagrams st Hgen)) as [Htr|Htr].
  - by apply (shown_once_step st).
  - by apply (shown_once_irregular st).
Qed.

Lemma reachable_shown_once st : reachable st -> shown_once st.
Proof.
  intros [calls ->]. apply run_shown_once; [apply generator_ok_init|].
  intros diagram d Hd. cbn in Hd. by rewrite lookup_nil in Hd.
Qed.

(** X18: in every state of the generator, the elements of a stored diagram
    have pairwise distinct identifiers.  The search of an element by its
    identifier, with which [generate_plotly_diagram] resolves the ends of a
    relationship, then finds that very element, and [list.index] finds its
    position: an edge of the figure is drawn between the only positions
    that hold elements with the identifiers of its ends. *)
Theorem diagram_elements_are_distinct st diagram_id diagram :
  reachable st ->
  odict.get diagram_id (diagrams st) = Some diagram ->
  let els := d_elements (diagram_at st diagram) in
  NoDup (map e_id (observed st diagram)) /\
  (forall i r, els !! i = Some r ->
     first_with_id st (e_id (element_at st r)) els = Some r /\
     index (element_at st r) (map (element_at st) els) = Some i) /\
  (forall wanted i j,
     drawn_at st els wanted i -> drawn_at st els wanted j -> i = j).
Proof.
  intros Hreach Hget els. pose proof (reachable_ok st Hreach) as Hgen.
  destruct (dk_keys st (g_diagrams st Hgen) diagram_id diagram Hget)
    as (d & Hd & _).
  pose proof (reachable_shown_once st Hreach diagram d Hd) as Hnd.
  destruct (g_shown st Hgen diagram d Hd) as [_ Hall].
  assert (diagram_at st diagram = d) as Hat by (unfold diagram_at; by rewrite Hd).
  subst els. unfold observed. rewrite Hat. clear Hat Hget Hd.
  assert (forall r r', r ∈ d_elements d -> r' ∈ d_elements d ->
            e_id (element_at st r) = e_id (element_at st r') -> r = r') as Hinj.
  { intros r r' Hr Hr' Hid.
    pose proof (proj1 (Forall_forall _ _) Hall r Hr) as Hlt.
    pose proof (proj1 (Forall_forall _ _) Hall r' Hr') as Hlt'.
    apply lookup_lt_is_Some in Hlt as [e He], Hlt' as [e' He'].
    unfold element_at in Hid. rewrite He, He' in Hid. simpl in Hid.
    apply (g_registered st Hgen) in He, He'. congruence. }
  assert (forall i j r r', d_elements d !! i = Some r ->
            d_elements d !! j = Some r' ->
            e_id (element_at st r) = e_id (element_at st r') -> i = j) as Hpos.
  { intros i j r r' Hi Hj Hid.
    assert (r = r') as <-.
    { apply Hinj; [by eapply list_elem_of_lookup_2..|done]. }
    by eapply NoDup_lookup. }
  split; [|split].
  - rewrite map_map. apply NoDup_fmap_2_strong; [|done].
    intros r r' Hr Hr' Hid. by apply Hinj.
  - intros i r Hi.
    assert (exists r', first_with_id st (e_id (element_at st r)) (d_elements d)
                       = Some r') as [r' Hfirst].
    { unfold first_with_id. eapply find_exists.
      - by eapply list_elem_of_lookup_2.
      - by apply String.eqb_eq. }
    destruct (first_with_id_Some _ _ _ _ Hfirst) as [Hr' Hid].
    assert (r' = r) as ->.
    { apply Hinj; [done|by eapply list_elem_of_lookup_2|done]. }
    split; [done|].
    destruct (index_of_first _ _ _ _ Hfirst) as (j & Hj & _ & r'' & Hr'' & Hid'').
    rewrite Hj. f_equal. by apply (Hpos j i r'' r).
  - intros wanted i j (r & Hr & Hid) (r' & Hr' & Hid').
    apply (Hpos i j r r'); [done..|congruence].
Qed.

Lemma diagram_elements_are_distinct_witness :
  map e_id (observed payments_dangling 1) = ["uuid-0_system"; "uuid-2"; "uuid-4"] /\
  NoDup (map e_id (observed payments_dangling 1)) /\
  first_with_id payments_dangling "uuid-4"
    (d_elements (diagram_at payments_dangling 1)) = Some 2.
Proof.
  assert (reachable payments_dangling) as Hreach.
  { exists (payments_calls
            ++ [AddRelationship "uuid-1" "uuid-2" "elsewhere" "calls" "HTTP"]).
    vm_compute. reflexivity. }
  destruct (diagram_elements_are_distinct payments_dangling "uuid-1" 1 Hreach)
    as (Hnd & Hfirst & _); [vm_compute; reflexivity|].
  split; [vm_compute; reflexivity|]. split; [exact Hnd|].
  destruct (Hfirst 2 2) as [H _]; [vm_compute; reflexivity|].
  exact H.
Defined.

(** * The diagram tools of the agent *)

Lemma drill_down_without_children st element_id :
  Forall (fun e => e_children e = [] /\ e_type e = "System") (element_objs st) ->
  drill_down element_id st = (st, Return None).
Proof.
  intros Hall. destruct (elements st !! element_id) as [r|] eqn:Hr.
  - apply (drill_down_leaf st element_id r Hr). unfold element_at.
    destruct (element_objs st !! r) as [e|] eqn:He; [|done]. simpl.
    by destruct (Forall_lookup_1 _ _ _ _ Hall He).
  - by apply drill_down_missing.
Qed.

Lemma odict_get_set_is_Some {V} k k' (v : V) d :
  is_Some (odict.get k d) -> is_Some (odict.get k (odict.set k' v d)).
Proof.
  intros H. destruct (decide (k' = k)) as [->|Hne].
  - rewrite odict_get_set_eq. by eexists.
  - by rewrite odict_get_set_ne.
Qed.

Lemma use_tool_ok validation_error_str c agent :
  agent_ok agent -> agent_ok (use_tool validation_error_str c agent).1.
Proof.
  intros [He Hd Hs Hc]. destruct c as [n d|i|d ids]; cbn [use_tool].
  - unfold C4CreateDiagramTool_arun. rewrite create_context_diagram_run.
    erewrite diagram_at_new by reflexivity. cbn [fst d_id].
    split; cbn [c4_generator current_diagram element_objs diagram_objs diagrams].
    + apply Forall_app. split; [done|]. by repeat constructor.
    + apply Forall_app. split.
      * eapply Forall_impl; [exact Hd|]. intros d0 (? & ? & r & ? & ?).
        do 2 (split; [done|]). exists r. split; [done|].
        rewrite length_app. simpl. lia.
      * repeat constructor. eexists. split; [reflexivity|].
        rewrite length_app. simpl. lia.
    + intros k r. rewrite length_app. simpl.
      destruct (decide (uuid_str (uuid_drawn (c4_generator agent)) = k))
        as [<-|Hne].
      * rewrite odict_get_set_eq. intros [= <-]. lia.
      * rewrite odict_get_set_ne by done. intros ?%Hs. lia.
    + intros k [= <-]. rewrite odict_get_set_eq. by eexists.
  - unfold C4DrillDownTool_arun. rewrite drill_down_without_children by done.
    by split.
  - by split.
Qed.

Lemma use_tools_ok validation_error_str calls agent :
  agent_ok agent -> agent_ok (use_tools validation_error_str calls agent).
Proof.
  revert agent. induction calls as [|c calls IH]; intros agent Hok; [done|].
  simpl. by apply IH, use_tool_ok.
Qed.

Lemma new_agent_ok : agent_ok new_agent.
Proof. split; try done; by constructor. Qed.

(** X19: an agent that uses its diagram tools never drills down.  The tools
    construct context diagrams only, so that no element ever has children:
    after any uses of the three tools by a new agent, [C4DrillDownTool]
    answers that no lower level is available, whatever the element, and
    leaves the agent as it is. *)
Theorem agent_never_drills_down validation_error_str calls element_id :
  let agent := use_tools validation_error_str calls new_agent in
  C4DrillDownTool_arun validation_error_str element_id agent
    = (agent, "No lower level available for this element").
Proof.
  intros agent.
  destruct (use_tools_ok validation_error_str calls new_agent new_agent_ok)
    as [He _ _ _].
  fold agent in He. unfold C4DrillDownTool_arun.
  rewrite drill_down_without_children by done. by destruct agent.
Qed.

(** X20: the current diagram of an agent that uses its diagram tools is a
    stored context diagram.  After any uses of the three tools by a new
    agent, the identifier kept as [current_diagram], when there is one, is
    a key of the Diagram Store; the diagram is of the Context level and
    shows one System element, without children; its figure has this single
    node, in light blue, and no edge. *)
Theorem current_diagram_is_a_context_diagram validation_error_str calls
    diagram_id :
  let agent := use_tools validation_error_str calls new_agent in
  let st := c4_generator agent in
  current_diagram agent = Some diagram_id ->
  exists diagram system f,
    odict.get diagram_id (diagrams st) = Some diagram /\
    d_level (diagram_at st diagram) = CONTEXT /\
    observed st diagram = [system] /\
    e_type system = "System" /\
    e_children system = [] /\
    generate_plotly_diagram st diagram_id None = Plotted f /\
    f_node_text f = [e_name system +:+ "<br>System"] /\
    f_node_colors f = ["lightblue"] /\
    f_edge_ends f = [] /\
    f_edge_text f = [].
Proof.
  intros agent st Hcur.
  destruct (use_tools_ok validation_error_str calls new_agent new_agent_ok)
    as [He Hd Hs Hc].
  fold agent in He, Hd, Hs, Hc. fold st in He, Hd, Hs, Hc.
  destruct (Hc diagram_id Hcur) as [diagram Hget].
  pose proof (Hs diagram_id diagram Hget) as Hlt.
  apply lookup_lt_is_Some in Hlt as [d Hdo].
  destruct (Forall_lookup_1 _ _ _ _ Hd Hdo) as (Hlevel & Hrels & r & Hels & Hr).
  apply lookup_lt_is_Some in Hr as [e Heo].
  destruct (Forall_lookup_1 _ _ _ _ He Heo) as [Hch Htype].
  assert (diagram_at st diagram = d) as Hat by (unfold diagram_at; by rewrite Hdo).
  assert (element_at st r = e) as Hat' by (unfold element_at; by rewrite Heo).
  exists diagram, e. eexists. split; [done|]. rewrite Hat. split; [done|].
  split; [unfold observed; rewrite Hat, Hels; simpl; by rewrite Hat'|].
  do 2 (split; [done|]).
  unfold generate_plotly_diagram. rewrite Hget, Hat, plot_nodes_eq, Hrels, Hels.
  cbn [map plot_edges is_highlighted]. rewrite Hat', Htype.
  split; [reflexivity|]. by repeat split.
Qed.

Lemma current_diagram_is_a_context_diagram_witness :
  exists diagram system,
    odict.get "uuid-1"
      (diagrams (c4_generator
         (use_tools (fun _ => "invalid")
            [C4CreateDiagram "Payments" "handles billing";
             C4DrillDown "uuid-0_system";
             C4CreateDiagram "Orders" "takes orders"] new_agent)))
      = Some diagram /\
    observed (c4_generator
         (use_tools (fun _ => "invalid")
            [C4CreateDiagram "Payments" "handles billing";
             C4DrillDown "uuid-0_system";
             C4CreateDiagram "Orders" "takes orders"] new_agent)) diagram
      = [system] /\
    e_type system = "System".
Proof.
  destruct (current_diagram_is_a_context_diagram (fun _ => "invalid")
              [C4CreateDiagram "Payments" "handles billing";
               C4DrillDown "uuid-0_system";
               C4CreateDiagram "Orders" "takes orders"] "uuid-1")
    as (diagram & system & f & Hget & _ & Hobs & Htype & _);
    [vm_compute; reflexivity|].
  exists diagram, system. split; [exact Hget|]. split; [exact Hobs|exact Htype].
Defined.

(** X21: what [C4HighlightElementsTool] reports to an agent that uses its
    diagram tools.  The tool leaves the agent as it is.  It reports one
    highlighted element when the diagram is stored and the identifier of
    its system is, character by character, one of the pieces of
    [element_ids] between commas, and no highlighted element otherwise, an
    unknown diagram included. *)
Theorem highlight_tool_reports validation_error_str calls diagram_id
    element_ids :
  let agent := use_tools validation_error_str calls new_agent in
  let st := c4_generator agent in
  let found :=
    match odict.get diagram_id (diagrams st) with
    | Some diagram =>
        match observed st diagram with
        | [system] => py_in (e_id system) (split ","%char element_ids)
        | _ => false
        end
    | None => false
    end in
  C4HighlightElementsTool_arun diagram_id element_ids agent
    = (agent, if found then "Highlighted 1 elements"
              else "Highlighted 0 elements").
Proof.
  intros agent st found.
  destruct (use_tools_ok validation_error_str calls new_agent new_agent_ok)
    as [He Hd Hs Hc].
  fold agent in He, Hd, Hs, Hc. fold st in He, Hd, Hs, Hc.
  unfold C4HighlightElementsTool_arun, highlight_elements. fold st.
  subst found. destruct (odict.get diagram_id (diagrams st)) as [diagram|] eqn:Hget.
  2: { f_equal. }
  pose proof (Hs diagram_id diagram Hget) as Hlt.
  apply lookup_lt_is_Some in Hlt as [d Hdo].
  destruct (Forall_lookup_1 _ _ _ _ Hd Hdo) as (_ & _ & r & Hels & _).
  assert (diagram_at st diagram = d) as Hat by (unfold diagram_at; by rewrite Hdo).
  unfold observed. rewrite Hat, Hels. cbn [hr_highlighted_elements fold_left map].
  destruct (py_in _ _); reflexivity.
Qed.
